(** * Client transport manager of the OWL front end

    A shallow embedding of the client half of the task orchestration layer:
    the polling task service ([services/tasks.ts]), the push-channel service
    ([owlApiService] in the same file), the conversation components that
    drive them ([ConversationPanel], [CamelChat]) and the browser session
    service ([services/browser.ts]).

    Conventions.  Strings are [string], holding the UTF-8 encoding of the
    text; JavaScript numbers that the code only uses as integers (clock
    readings, close codes, retry counters, token counts) are [Z]; a value
    that may be [undefined] or [null] is an [option]; a call that may throw
    returns a [Completion], and where the engine throws (a property read of
    [null]) the message of its error is an argument.  An asynchronous
    handler is split where it awaits: the part before, and the part that
    runs, on the state of that moment, when the awaited call has settled.  What the environment decides (server
    answers, the clock, whether a socket write throws) is an explicit
    argument of the function that observes it, and what the code does to the
    environment (HTTP requests, frames written to the socket, callbacks) is
    returned as a log. *)

From Stdlib Require Import String Ascii List ZArith Bool Arith Lia DecimalString.
Import ListNotations.
Local Open Scope string_scope.
Local Open Scope list_scope.

(** ** JavaScript values and helpers *)

Module JS.

(** [s.includes(sub)]: [sub] occurs somewhere in [s]. *)
Fixpoint includes (s sub : string) : bool :=
  String.prefix sub s ||
  match s with
  | EmptyString => false
  | String _ rest => includes rest sub
  end.

(** Truthiness of a string: every string but the empty one. *)
Definition truthy (s : string) : bool :=
  match s with
  | EmptyString => false
  | String _ _ => true
  end.

(** Truthiness of a possibly missing string ([undefined], [null] and the
    empty string are falsy). *)
Definition truthy_opt (o : option string) : bool :=
  match o with
  | Some s => truthy s
  | None => false
  end.

(** [a || b] on strings, where [a] may be missing. *)
Definition or_else (a : option string) (b : string) : string :=
  match a with
  | Some s => if truthy s then s else b
  | None => b
  end.

(** [a || b] where both sides may be missing ([null] result when neither is
    truthy and [b] is [null]). *)
Definition or_opt (a b : option string) : option string :=
  if truthy_opt a then a else b.

(** Strings hold the UTF-8 encoding of the text, one [ascii] per byte.

    [trim] removes the WhiteSpace and LineTerminator characters of the
    language.  [is_space] is the ones of one byte (U+0009 to U+000D and
    U+0020); [is_space2] is U+00A0, the bytes C2 A0; [is_space3] is the ones
    of three bytes: U+1680 (E1 9A 80), U+2000 to U+200A (E2 80 80 to
    E2 80 8A), U+2028 and U+2029 (E2 80 A8, E2 80 A9), U+202F (E2 80 AF),
    U+205F (E2 81 9F), U+3000 (E3 80 80) and U+FEFF (EF BB BF). *)
Definition is_space (c : ascii) : bool :=
  let n := nat_of_ascii c in
  (Nat.leb 9 n && Nat.leb n 13) || Nat.eqb n 32.

Definition is_space2 (a b : ascii) : bool :=
  Nat.eqb (nat_of_ascii a) 194 && Nat.eqb (nat_of_ascii b) 160.

Definition is_space3 (a b c : ascii) : bool :=
  let x := nat_of_ascii a in
  let y := nat_of_ascii b in
  let z := nat_of_ascii c in
  (Nat.eqb x 225 && Nat.eqb y 154 && Nat.eqb z 128) ||
  (Nat.eqb x 226 && Nat.eqb y 128 &&
   ((Nat.leb 128 z && Nat.leb z 138) || Nat.eqb z 168 || Nat.eqb z 169 || Nat.eqb z 175)) ||
  (Nat.eqb x 226 && Nat.eqb y 129 && Nat.eqb z 159) ||
  (Nat.eqb x 227 && Nat.eqb y 128 && Nat.eqb z 128) ||
  (Nat.eqb x 239 && Nat.eqb y 187 && Nat.eqb z 191).

Fixpoint trim_start (s : string) : string :=
  match s with
  | EmptyString => EmptyString
  | String a rest =>
      if is_space a then trim_start rest
      else
        match rest with
        | EmptyString => s
        | String b rest2 =>
            if is_space2 a b then trim_start rest2
            else
              match rest2 with
              | EmptyString => s
              | String c rest3 => if is_space3 a b c then trim_start rest3 else s
              end
        end
  end.

(** A string of white space only (the empty string included). *)
Definition blank (s : string) : bool :=
  match trim_start s with
  | EmptyString => true
  | String _ _ => false
  end.

(** What is left of [s] without the white space at its end: a byte stays
    unless only white space follows from it on. *)
Fixpoint trim_end (s : string) : string :=
  match s with
  | EmptyString => EmptyString
  | String c rest => if blank s then EmptyString else String c (trim_end rest)
  end.

Definition trim (s : string) : string := trim_end (trim_start s).

(** Decimal rendering of an integer, as a template literal prints it.  A
    number of the language is a double: it holds an integer exactly, and
    prints it in this notation, when the integer is a safe one. *)
Definition show (n : Z) : string := NilZero.string_of_int (Z.to_int n).

Definition MAX_SAFE_INTEGER : Z := 9007199254740991.

Definition safe_integer (n : Z) : Prop :=
  (- MAX_SAFE_INTEGER <= n <= MAX_SAFE_INTEGER)%Z.

(** Scalar JSON values and flat JSON objects: all the client ever writes to a
    socket or posts as a request body. *)
Inductive jvalue : Type :=
| JNull
| JBool (b : bool)
| JNum (n : Z)
| JStr (s : string).

Definition jobject : Type := list (string * jvalue).

Definition keys (o : jobject) : list string := map fst o.

Fixpoint get (o : jobject) (k : string) : option jvalue :=
  match o with
  | [] => None
  | (k', v) :: rest => if (k' =? k)%string then Some v else get rest k
  end.

Definition jstr_opt (o : option string) : jvalue :=
  match o with
  | Some s => JStr s
  | None => JNull
  end.

(** A thrown error: its message and the optional field the panel reads. *)
Record Error : Type := mkError {
  message : string;
  formattedMessage : option string
}.

(** [new Error(m)] *)
Definition new_Error (m : string) : Error := mkError m None.

(** The result of a call: a value or a thrown error. *)
Inductive Completion (A : Type) : Type :=
| Return (a : A)
| Throw (e : Error).
Arguments Return {A} a.
Arguments Throw {A} e.

Definition bind {A B} (c : Completion A) (k : A -> Completion B) : Completion B :=
  match c with
  | Return a => k a
  | Throw e => Throw e
  end.

(** [try { c } catch (e) { h e }]. *)
Definition try_catch {A} (c : Completion A) (h : Error -> Completion A) : Completion A :=
  match c with
  | Return a => Return a
  | Throw e => h e
  end.

(** Reading a property of [body], a value that may be [null] or
    [undefined]: it then throws a [TypeError], whose message [type_error] is
    the engine's. *)
Definition read {A} (type_error : string) (body : option A) : Completion A :=
  match body with
  | Some a => Return a
  | None => Throw (new_Error type_error)
  end.

(** What an HTTP call of the axios instance comes back with: a response
    body, or a rejection (network failure, time-out, error status). *)
Inductive Axios (A : Type) : Type :=
| Resolved (data : A)
| Rejected (e : Error).
Arguments Resolved {A} data.
Arguments Rejected {A} e.

(** The requests a service hands to the axios instance. *)
Inductive HttpRequest : Type :=
| GET (url : string) (params : jobject)
| POST (url : string) (body : jobject).

End JS.

Notation "x <- c ;; k" := (JS.bind c (fun x => k))
  (at level 61, c at next level, right associativity).

(** ** Chat messages *)

Record Message : Type := mkMessage {
  role : string;
  content : string;
  token_count : option Z;
  timestamp : option string
}.

(** [{...msg, timestamp: ts}] *)
Definition with_timestamp (ts : string) (msg : Message) : Message :=
  mkMessage (role msg) (content msg) (token_count msg) (Some ts).

(** Identity of a bubble for deduplication: role and content. *)
Definition msg_key (m : Message) : string * string := (role m, content m).

Definition no_duplicate_bubbles (l : list Message) : Prop :=
  NoDup (map msg_key l).

Definition is_loading (m : Message) : bool := (role m =? "loading")%string.
Definition is_error (m : Message) : bool := (role m =? "error")%string.

(** [prev.filter(msg => msg.role !== 'loading')] *)
Definition drop_loading (prev : list Message) : list Message :=
  filter (fun m => negb (is_loading m)) prev.

(** ** Messages on the push channel (server to client, and the notices the
    connection layer hands to the same callback) *)

Record TokenInfo : Type := mkTokenInfo {
  completion_token_count : option Z;
  prompt_token_count : option Z;
  total_token_count : option Z
}.

Record QueryPayload : Type := mkPayload {
  answer : option string;
  token_info : option TokenInfo;
  chat_history : option (list Message)
}.

Module Push.

Record response : Type := mkResponse {
  type : option string;
  status : option string;
  message : option string;
  error : option string;
  result : option QueryPayload;
  browser_mode : option string;
  task_id : option string
}.

Definition type_is (r : response) (t : string) : bool :=
  match type r with
  | Some s => (s =? t)%string
  | None => false
  end.

Definition status_is (r : response) (t : string) : bool :=
  match status r with
  | Some s => (s =? t)%string
  | None => false
  end.

(** [{type: t, message: m}] *)
Definition notice (t m : string) : response :=
  mkResponse (Some t) None (Some m) None None None None.

End Push.

(** The notices produced by [connectWebSocket] itself. *)
Inductive TransportNotice : Type :=
| ConnectTimeout
| SocketError
| SocketClosed (code : Z)
| ConnectFailed.

Definition notice_text (n : TransportNotice) : string :=
  match n with
  | ConnectTimeout =>
      "Failed to connect to the server via WebSocket. Falling back to HTTP API."
  | SocketError =>
      "WebSocket connection error. Some features may not work properly."
  | SocketClosed code =>
      "WebSocket connection closed (" ++ JS.show code ++ "). Real-time updates disabled."
  | ConnectFailed =>
      "Failed to establish WebSocket connection. Using HTTP API instead."
  end.

Definition error_notice (n : TransportNotice) : Push.response :=
  Push.notice "error" (notice_text n).

(** [{type: 'system', message: ..., status: 'connected'}] *)
Definition connected_notice : Push.response :=
  Push.mkResponse (Some "system") (Some "connected")
    (Some "WebSocket connection established successfully")
    None None None None.

(** ** The browser socket *)

Module WebSocket.

Inductive ReadyState : Type := CONNECTING | OPEN | CLOSING | CLOSED.

Definition is_open (r : ReadyState) : bool :=
  match r with
  | OPEN => true
  | _ => false
  end.

(** A socket: its ready state and the frames handed to [send], oldest
    first. *)
Record t : Type := mk {
  readyState : ReadyState;
  sent : list JS.jobject
}.

Definition fresh : t := mk CONNECTING [].

(** [ws.send(JSON.stringify(frame))]; [throws] is the environment's verdict
    on this write. *)
Definition send (throws : bool) (frame : JS.jobject) (ws : t) : JS.Completion t :=
  if throws then JS.Throw (JS.new_Error "send failed")
  else JS.Return (mk (readyState ws) (sent ws ++ [frame])).

(** [ws.close()] starts the closing handshake unless the socket is already
    closing or closed. *)
Definition close (ws : t) : t :=
  match readyState ws with
  | CONNECTING | OPEN => mk CLOSING (sent ws)
  | _ => ws
  end.

Definition set_state (r : ReadyState) (ws : t) : t := mk r (sent ws).

End WebSocket.

(** ** [owlApiService]: the push channel and the query over HTTP *)

Module owlApiService.

(** The three frames the service writes. *)
Definition query_frame (query module : string) : JS.jobject :=
  [("type", JS.JStr "query"); ("query", JS.JStr query); ("module", JS.JStr module)].

Definition ping_frame (now : Z) : JS.jobject :=
  [("type", JS.JStr "ping"); ("time", JS.JNum now)].

Definition cancel_frame (taskId : string) : JS.jobject :=
  [("type", JS.JStr "cancel"); ("task_id", JS.JStr taskId)].

(** A guarded write: refuse when the socket is not open, turn a throwing
    write into [false]. *)
Definition guarded_send (throws : bool) (frame : JS.jobject) (ws : WebSocket.t)
    : bool * WebSocket.t :=
  if negb (WebSocket.is_open (WebSocket.readyState ws)) then (false, ws)
  else
    match WebSocket.send throws frame ws with
    | JS.Return ws' => (true, ws')
    | JS.Throw _ => (false, ws)
    end.

(** [sendWebSocketQuery(ws, query, module = 'run')] *)
Definition sendWebSocketQuery (throws : bool) (ws : WebSocket.t)
    (query : string) (module : option string) : bool * WebSocket.t :=
  guarded_send throws
    (query_frame query (match module with Some m => m | None => "run" end)) ws.

(** [sendWebSocketPing(ws)], [now] being the reading of [Date.now()]. *)
Definition sendWebSocketPing (throws : bool) (now : Z) (ws : WebSocket.t)
    : bool * WebSocket.t :=
  guarded_send throws (ping_frame now) ws.

(** [cancelWebSocketTask(ws, taskId)] *)
Definition cancelWebSocketTask (throws : bool) (ws : WebSocket.t) (taskId : string)
    : bool * WebSocket.t :=
  guarded_send throws (cancel_frame taskId) ws.

(** *** [connectWebSocket]: the handlers installed on a new socket *)

Record connection : Type := mkConnection {
  socket : WebSocket.t;
  hasConnected : bool;
  timeoutArmed : bool
}.

(** What the browser reports on a socket.  [Opened] carries the clock and
    the verdict on the first ping; [Received] carries the parsed frame, or
    nothing when [JSON.parse] threw; [TimeoutElapsed] is the five-second
    timer of [connectWebSocket] coming due. *)
Inductive event : Type :=
| Opened (now : Z) (ping_throws : bool)
| Received (data : option Push.response)
| Errored
| Closed (code : Z)
| TimeoutElapsed.

Definition connectionTimeoutMs : Z := 5000.

(** [connectWebSocket(onMessage)]: [None] with the failure notice when the
    URL or the socket constructor throws, else a connecting socket with the
    timer armed. *)
Definition connectWebSocket (constructor_throws : bool)
    : option connection * list Push.response :=
  if constructor_throws then (None, [error_notice ConnectFailed])
  else (Some (mkConnection WebSocket.fresh false true), []).

Definition clearTimeout (c : connection) : connection :=
  mkConnection (socket c) (hasConnected c) false.

(** The handler installed first on [onopen]. *)
Definition originalOnOpen (now : Z) (ping_throws : bool) (c : connection)
    : connection * list Push.response :=
  let c1 := clearTimeout c in
  let ws :=
    match WebSocket.send ping_throws (ping_frame now) (socket c1) with
    | JS.Return ws' => ws'
    | JS.Throw _ => socket c1
    end in
  (mkConnection ws (hasConnected c1) (timeoutArmed c1), [connected_notice]).

(** One event: the connection afterwards and the calls of [onMessage] it
    made, in order. *)
Definition handle (ev : event) (c : connection) : connection * list Push.response :=
  match ev with
  | Opened now ping_throws =>
      let c1 := mkConnection (WebSocket.set_state WebSocket.OPEN (socket c))
                             true (timeoutArmed c) in
      originalOnOpen now ping_throws c1
  | Received (Some data) => (c, [data])
  | Received None => (c, [])
  | Errored =>
      let c1 := clearTimeout c in
      if hasConnected c1 then (c1, [error_notice SocketError]) else (c1, [])
  | Closed code =>
      let c1 := clearTimeout
                  (mkConnection (WebSocket.set_state WebSocket.CLOSED (socket c))
                                (hasConnected c) (timeoutArmed c)) in
      if negb (code =? 1000)%Z && hasConnected c1
      then (c1, [error_notice (SocketClosed code)])
      else (c1, [])
  | TimeoutElapsed =>
      if timeoutArmed c then
        let c1 := clearTimeout c in
        if negb (WebSocket.is_open (WebSocket.readyState (socket c1)))
        then (mkConnection (WebSocket.close (socket c1)) (hasConnected c1) false,
              [error_notice ConnectTimeout])
        else (c1, [])
      else (c, [])
  end.

(** A run of events: final connection and every notice delivered. *)
Fixpoint run (evs : list event) (c : connection) : connection * list Push.response :=
  match evs with
  | [] => (c, [])
  | ev :: rest =>
      let (c1, out1) := handle ev c in
      let (c2, out2) := run rest c1 in
      (c2, out1 ++ out2)
  end.

Definition is_opened (ev : event) : bool :=
  match ev with
  | Opened _ _ => true
  | _ => false
  end.

(** The connection [connectWebSocket] returns. *)
Definition connecting : connection := mkConnection WebSocket.fresh false true.

Definition after (evs : list event) (c : connection) : connection := fst (run evs c).
Definition delivered (evs : list event) (c : connection) : list Push.response :=
  snd (run evs c).

(** The frames of the server among the events, in order. *)
Fixpoint forwarded (evs : list event) : list Push.response :=
  match evs with
  | [] => []
  | Received (Some data) :: rest => data :: forwarded rest
  | _ :: rest => forwarded rest
  end.

(** Any use of the push half of the service on one connection: the three
    senders and the events of the socket. *)
Inductive call : Type :=
| CallQuery (throws : bool) (query : string) (module : option string)
| CallPing (throws : bool) (now : Z)
| CallCancel (throws : bool) (taskId : string)
| CallEvent (ev : event).

Definition on_socket (f : WebSocket.t -> bool * WebSocket.t) (c : connection) : connection :=
  mkConnection (snd (f (socket c))) (hasConnected c) (timeoutArmed c).

Definition perform (k : call) (c : connection) : connection :=
  match k with
  | CallQuery throws query module =>
      on_socket (fun ws => sendWebSocketQuery throws ws query module) c
  | CallPing throws now => on_socket (sendWebSocketPing throws now) c
  | CallCancel throws taskId => on_socket (fun ws => cancelWebSocketTask throws ws taskId) c
  | CallEvent ev => fst (handle ev c)
  end.

Definition perform_all (ks : list call) (c : connection) : connection :=
  fold_left (fun c' k => perform k c') ks c.

(** The three client-to-server shapes of the wire protocol, as the
    interface of the push channel lists them. *)
Inductive wire_shape : JS.jobject -> Prop :=
| shape_query (query module : string) :
    wire_shape [("type", JS.JStr "query"); ("query", JS.JStr query);
                ("module", JS.JStr module)]
| shape_cancel (task_id : string) :
    wire_shape [("type", JS.JStr "cancel"); ("task_id", JS.JStr task_id)]
| shape_ping (time : Z) :
    wire_shape [("type", JS.JStr "ping"); ("time", JS.JNum time)].

(** *** [runQuery]: submission and polling over HTTP *)

Record QueryParams : Type := mkQueryParams {
  query : string;
  module : option string
}.

Record QueryResult : Type := mkQueryResult {
  result_answer : option string;
  tokenCount : string;
  result_status : string;
  result_chat_history : option (list Message)
}.

(** Body of the answer to the submission and to a status request. *)
Record Started : Type := mkStarted { started_task_id : option string }.

Record TaskInfo : Type := mkTaskInfo {
  info_status : option string;
  info_result : option QueryPayload;
  info_error : option string
}.

(** The environment of one [runQuery]: the answer to the submission and to
    the status request of each attempt (attempts count from 1). *)
Record RestEnv : Type := mkRestEnv {
  start_answer : JS.Axios Started;
  status_answer : nat -> JS.Axios TaskInfo
}.

Definition maxRetries : nat := 60.
Definition pollDelayMs : Z := 1000.

Definition task_url (taskId : string) : string := "/run/task/" ++ taskId.

Definition info_status_is (d : TaskInfo) (t : string) : bool :=
  match info_status d with
  | Some s => (s =? t)%string
  | None => false
  end.

(** The polling loop with [remaining = maxRetries - retries] rounds to go:
    the [result] of the completed task, or what was thrown. *)
Fixpoint poll_result (env : RestEnv) (taskId : string) (remaining retries : nat)
    : JS.Completion (option QueryPayload) * list JS.HttpRequest :=
  match remaining with
  | O => (JS.Throw (JS.new_Error "Task timed out after 60 seconds"), [])
  | S remaining' =>
      let retries' := S retries in
      let req := JS.GET (task_url taskId) [] in
      match status_answer env retries' with
      | JS.Rejected e => (JS.Throw e, [req])
      | JS.Resolved data =>
          if info_status_is data "completed" then (JS.Return (info_result data), [req])
          else if info_status_is data "error" then
            (JS.Throw (JS.new_Error (JS.or_else (info_error data) "Task failed")), [req])
          else
            let (r, reqs) := poll_result env taskId remaining' retries' in
            (r, req :: reqs)
      end
  end.

(** [n || 0] *)
Definition count_or_zero (n : option Z) : Z :=
  match n with
  | Some z => z
  | None => 0%Z
  end.

(** The formatting at the end of [runQuery].  Destructuring a [result]
    that is [null] or missing throws the [TypeError] of the engine; the
    counts are printed as they are when they and their sum are safe
    integers ([safe_counts]). *)
Definition format_result (type_error : string) (payload : option QueryPayload)
    : JS.Completion QueryResult :=
  match payload with
  | None => JS.Throw (JS.new_Error type_error)
  | Some p =>
      let field (f : TokenInfo -> option Z) :=
        count_or_zero (match token_info p with Some t => f t | None => None end) in
      let completionTokens := field completion_token_count in
      let promptTokens := field prompt_token_count in
      let totalTokens :=
        if (field total_token_count =? 0)%Z then (completionTokens + promptTokens)%Z
        else field total_token_count in
      JS.Return (mkQueryResult (answer p)
        ("Completion: " ++ JS.show completionTokens ++ " | Prompt: " ++
         JS.show promptTokens ++ " | Total: " ++ JS.show totalTokens)
        "✅ Successfully completed"
        (chat_history p))
  end.

Definition safe_counts (payload : option QueryPayload) : Prop :=
  match payload with
  | Some p =>
      match token_info p with
      | Some t =>
          JS.safe_integer (count_or_zero (completion_token_count t)) /\
          JS.safe_integer (count_or_zero (prompt_token_count t)) /\
          JS.safe_integer (count_or_zero (total_token_count t)) /\
          JS.safe_integer (count_or_zero (completion_token_count t) +
                           count_or_zero (prompt_token_count t))
      | None => True
      end
  | None => True
  end.

Definition submit_request (params : QueryParams) : JS.HttpRequest :=
  JS.POST "/run/async"
    [("query", JS.JStr (query params));
     ("module", JS.JStr (match module params with Some m => m | None => "run" end))].

(** [runQuery({query, module = 'run'})] *)
Definition runQuery (type_error : string) (env : RestEnv) (params : QueryParams)
    : JS.Completion QueryResult * list JS.HttpRequest :=
  match start_answer env with
  | JS.Rejected e => (JS.Throw e, [submit_request params])
  | JS.Resolved data =>
      match started_task_id data with
      | Some taskId =>
          if JS.truthy taskId then
            let (r, reqs) := poll_result env taskId maxRetries 0 in
            (JS.bind r (format_result type_error), submit_request params :: reqs)
          else (JS.Throw (JS.new_Error "No task ID returned from API"),
                [submit_request params])
      | None => (JS.Throw (JS.new_Error "No task ID returned from API"),
                 [submit_request params])
      end
  end.

(** What one status answer decides: the end of the polling with a result
    or an error, or nothing when the task is still under way. *)
Definition verdict (a : JS.Axios TaskInfo) : option (JS.Completion (option QueryPayload)) :=
  match a with
  | JS.Rejected e => Some (JS.Throw e)
  | JS.Resolved data =>
      if info_status_is data "completed" then Some (JS.Return (info_result data))
      else if info_status_is data "error"
      then Some (JS.Throw (JS.new_Error (JS.or_else (info_error data) "Task failed")))
      else None
  end.

(** Every attempt before the n-th leaves the task under way. *)
Definition pending_before (env : RestEnv) (n : nat) : Prop :=
  forall j, 1 <= j < n -> verdict (status_answer env j) = None.

(** The submission was accepted with the id [taskId]. *)
Definition started_as (env : RestEnv) (taskId : string) : Prop :=
  start_answer env = JS.Resolved (mkStarted (Some taskId)) /\ JS.truthy taskId = true.

(** *** The response interceptor of the axios instance *)

(** The three ways a request fails: the server answered with an error
    status, no answer came, or the request could not be set up. *)
Inductive AxiosFailure : Type :=
| BadStatus (message : string) (status : Z) (data_message : option string)
            (statusText : string)
| NoResponse (message : string)
| SetupFailed (message : string).

Definition failure_message (f : AxiosFailure) : string :=
  match f with
  | BadStatus m _ _ _ | NoResponse m | SetupFailed m => m
  end.

(** The text the interceptor puts in [formattedMessage]. *)
Definition errorMessage (f : AxiosFailure) : string :=
  match f with
  | BadStatus _ status data_message statusText =>
      "Server error: " ++ JS.show status ++ " - " ++
      (match JS.or_opt data_message (Some statusText) with Some t => t | None => "" end)
  | NoResponse _ =>
      "No response from server. Please check your connection or the server status."
  | SetupFailed m => m
  end.

(** The rejection the callers of the instance see. *)
Definition intercept (f : AxiosFailure) : JS.Error :=
  JS.mkError (failure_message f) (Some (errorMessage f)).

(** *** Environment variables *)

Record EnvPair : Type := mkEnvPair {
  pair_key : string;
  pair_value : string
}.

(** [updateEnvVars(variables)]: one POST per variable with a key, in
    order; the first rejection is rethrown and ends the loop.  [answers]
    gives the answer to the k-th POST made. *)
Fixpoint update_loop {Data : Type} (answers : nat -> JS.Axios Data)
    (variables : list EnvPair) (posted : nat) (results : list Data)
    : JS.Completion (list Data) * list JS.HttpRequest :=
  match variables with
  | [] => (JS.Return results, [])
  | v :: rest =>
      if JS.truthy (pair_key v) then
        let req := JS.POST "/env/set"
                     [("key", JS.JStr (pair_key v)); ("value", JS.JStr (pair_value v))] in
        match answers posted with
        | JS.Resolved data =>
            let (r, reqs) := update_loop answers rest (S posted) (results ++ [data]) in
            (r, req :: reqs)
        | JS.Rejected e => (JS.Throw e, [req])
        end
      else update_loop answers rest posted results
  end.

Definition updateEnvVars {Data : Type} (answers : nat -> JS.Axios Data)
    (variables : list EnvPair) : JS.Completion (list Data) * list JS.HttpRequest :=
  update_loop answers variables 0 [].

Definition set_request (v : EnvPair) : JS.HttpRequest :=
  JS.POST "/env/set" [("key", JS.JStr (pair_key v)); ("value", JS.JStr (pair_value v))].

(** An entry of the answer of [/env/api_related], and the answer of
    [/env/check]. *)
Record EnvItem : Type := mkEnvItem {
  item_key : string;
  item_value : option string
}.

Record EnvCheck : Type := mkEnvCheck {
  check_status : option string;
  missing_vars : option (list string)
}.

Definition mask : string := "••••••••••••••••••••••••••".

(** [getEnvironmentVariables()]; [OPENAI_API_KEY] is the key the build was
    given, if any. *)
Definition getEnvironmentVariables (OPENAI_API_KEY : option string)
    (related : JS.Axios (list EnvItem)) (check : JS.Axios EnvCheck)
    : list EnvPair * list JS.HttpRequest :=
  match related with
  | JS.Resolved data =>
      (map (fun item => mkEnvPair (item_key item)
                          (JS.or_else (item_value item) "")) data,
       [JS.GET "/env/api_related" []])
  | JS.Rejected _ =>
      let fallback :=
        [mkEnvPair "OPENAI_API_KEY" (if JS.truthy_opt OPENAI_API_KEY then mask else "")] in
      (match check with
       | JS.Resolved c =>
           match check_status c with
           | Some s =>
               if (s =? "missing")%string
               then match missing_vars c with
                    | Some keys => map (fun key => mkEnvPair key "") keys
                    | None => fallback
                    end
               else fallback
           | None => fallback
           end
       | JS.Rejected _ => fallback
       end,
       [JS.GET "/env/api_related" []; JS.GET "/env/check" []])
  end.

End owlApiService.

(** ** The polling task service *)

Inductive TaskStatus : Type :=
| PENDING | RUNNING | COMPLETED | FAILED | CANCELED | NOT_FOUND.

Definition status_text (s : TaskStatus) : string :=
  match s with
  | PENDING => "pending"
  | RUNNING => "running"
  | COMPLETED => "completed"
  | FAILED => "failed"
  | CANCELED => "canceled"
  | NOT_FOUND => "not_found"
  end.

Definition TaskStatus_eqb (a b : TaskStatus) : bool :=
  match a, b with
  | PENDING, PENDING | RUNNING, RUNNING | COMPLETED, COMPLETED
  | FAILED, FAILED | CANCELED, CANCELED | NOT_FOUND, NOT_FOUND => true
  | _, _ => false
  end.

(** The five states of the task life cycle. *)
Definition lifecycle_states : list TaskStatus :=
  [PENDING; RUNNING; COMPLETED; FAILED; CANCELED].

Module taskService.

Record Task : Type := mkTask {
  id : string;
  status : TaskStatus;
  type : option string;
  created_at : option string;
  started_at : option string;
  completed_at : option string;
  result : option string;
  error : option string;
  parent_id : option string;
  subtask_ids : option (list string)
}.

(** Body of the answers that carry only a verdict. *)
Record Verdict : Type := mkVerdict {
  verdict_status : option string;
  verdict_error : option string
}.

Record Success : Type := mkSuccess { success : bool }.

(** [getTaskStatus(taskId)]: one GET; a rejection is rethrown with its
    message, or with a default one when the message is empty. *)
Definition status_url (taskId : string) : string := "/tasks/" ++ taskId.

Definition getTaskStatus (taskId : string) (answer : JS.Axios Task)
    : JS.Completion Task * list JS.HttpRequest :=
  (match answer with
   | JS.Resolved data => JS.Return data
   | JS.Rejected e =>
       JS.Throw (JS.new_Error
         (JS.or_else (Some (JS.message e)) "Error checking task status"))
   end,
   [JS.GET (status_url taskId) []]).

(** [cancelTask(taskId, reason?)].  [encodeURIComponent] gives nothing
    when it throws (a reason that is not well-formed text); the body of the
    answer may be [null]. *)
Definition cancel_url (encodeURIComponent : string -> option string) (taskId : string)
    (reason : option string) : option string :=
  if JS.truthy_opt reason
  then
    match encodeURIComponent (match reason with Some r => r | None => "" end) with
    | Some encoded => Some ("/tasks/" ++ taskId ++ "/cancel?reason=" ++ encoded)%string
    | None => None
    end
  else Some ("/tasks/" ++ taskId ++ "/cancel")%string.

Definition verdict_is_error (v : Verdict) : bool :=
  match verdict_status v with
  | Some s => (s =? "error")%string
  | None => false
  end.

Definition cancelTask (type_error : string) (encodeURIComponent : string -> option string)
    (taskId : string) (reason : option string) (answer : JS.Axios (option Verdict))
    : JS.Completion Success * list JS.HttpRequest :=
  match cancel_url encodeURIComponent taskId reason with
  | None => (JS.Return (mkSuccess false), [])
  | Some url =>
      (JS.try_catch
         (match answer with
          | JS.Resolved body =>
              data <- JS.read type_error body ;;
              if verdict_is_error data
              then JS.Throw (JS.new_Error
                     (match verdict_error data with Some m => m | None => "" end))
              else JS.Return (mkSuccess true)
          | JS.Rejected e => JS.Throw e
          end)
         (fun _ => JS.Return (mkSuccess false)),
       [JS.POST url []])
  end.

(** The server call completed without an error status: the request was
    not rejected and the body does not say [error]. *)
Definition completed_without_error_status (answer : JS.Axios (option Verdict)) : Prop :=
  match answer with
  | JS.Resolved (Some data) => verdict_status data <> Some "error"
  | JS.Resolved None => True
  | JS.Rejected _ => False
  end.

(** The statuses that end [pollTaskCompletion]. *)
Definition terminal_statuses : list TaskStatus := [COMPLETED; FAILED; CANCELED].

Definition is_terminal (s : TaskStatus) : bool :=
  existsb (TaskStatus_eqb s) terminal_statuses.

(** The environment of a polling loop: the answer to the k-th status
    request, the time that request takes, and by how much the k-th sleep
    overruns the interval. *)
Record PollEnv : Type := mkPollEnv {
  answer_of : nat -> JS.Axios Task;
  latency : nat -> Z;
  oversleep : nat -> Z
}.

(** Outcome of the loop, the requests it made (oldest first) and the clock
    when it ended. *)
Record PollRun : Type := mkPollRun {
  outcome : JS.Completion Task;
  requests : list JS.HttpRequest;
  finished_at : Z
}.

Definition defaultInterval : Z := 1000.
Definition defaultTimeout : Z := 300000.

Definition timed_out : JS.Error := JS.new_Error "Task polling timed out".

(** The [while] loop of [pollTaskCompletion], entered for the k-th time with
    the clock at [now].  The result is [None] when [fuel] iterations were
    not enough to leave the loop. *)
Fixpoint poll_loop (env : PollEnv) (taskId : string) (interval timeout startTime : Z)
    (fuel k : nat) (now : Z) : option PollRun :=
  match fuel with
  | O => None
  | S fuel' =>
      if (now - startTime <? timeout)%Z then
        let (task, reqs) := getTaskStatus taskId (answer_of env k) in
        let after_fetch := (now + latency env k)%Z in
        match task with
        | JS.Throw e => Some (mkPollRun (JS.Throw e) reqs after_fetch)
        | JS.Return t =>
            if is_terminal (status t) then Some (mkPollRun (JS.Return t) reqs after_fetch)
            else
              match poll_loop env taskId interval timeout startTime fuel' (S k)
                      (after_fetch + Z.max 0 interval + oversleep env k)%Z with
              | Some r => Some (mkPollRun (outcome r) (reqs ++ requests r) (finished_at r))
              | None => None
              end
        end
      else Some (mkPollRun (JS.Throw timed_out) [] now)
  end.

(** A parameter with a default value. *)
Definition or_default (o : option Z) (d : Z) : Z :=
  match o with
  | Some z => z
  | None => d
  end.

(** [pollTaskCompletion(taskId, interval = 1000, timeout = 300000)] called
    when the clock reads [startTime]. *)
Definition pollTaskCompletion (env : PollEnv) (taskId : string)
    (interval timeout : option Z) (startTime : Z) (fuel : nat) : option PollRun :=
  poll_loop env taskId
    (or_default interval defaultInterval) (or_default timeout defaultTimeout)
    startTime fuel 0 startTime.

(** The clock at the start of the k-th iteration when every earlier poll
    came back non-terminal. *)
Fixpoint clock_at (env : PollEnv) (interval startTime : Z) (k : nat) : Z :=
  match k with
  | O => startTime
  | S k' =>
      (clock_at env interval startTime k' + latency env k' + Z.max 0 interval
       + oversleep env k')%Z
  end.

(** The k-th poll starts before the time-out has run out. *)
Definition within (env : PollEnv) (interval timeout startTime : Z) (k : nat) : Prop :=
  (clock_at env interval startTime k - startTime < timeout)%Z.

(** The k-th poll comes back with a snapshot that is not terminal. *)
Definition nonterminal_at (env : PollEnv) (k : nat) : Prop :=
  exists t, answer_of env k = JS.Resolved t /\ is_terminal (status t) = false.

(** The loop gets as far as making the n-th poll. *)
Definition reaches (env : PollEnv) (interval timeout startTime : Z) (n : nat) : Prop :=
  within env interval timeout startTime n /\
  forall j, j < n -> nonterminal_at env j.

Section Ending.

Variable env : PollEnv.
Variable taskId : string.
Variables interval timeout startTime : Z.

(** How a run of the loop ends: at the time-out check of iteration [n], or
    with the answer to the n-th poll. *)
Inductive ending (k n : nat) (r : PollRun) : Prop :=
| ends_timed_out :
    ~ within env interval timeout startTime n ->
    outcome r = JS.Throw timed_out ->
    requests r = repeat (JS.GET (status_url taskId) []) (n - k) ->
    ending k n r
| ends_terminal (t : Task) :
    within env interval timeout startTime n ->
    answer_of env n = JS.Resolved t ->
    is_terminal (status t) = true ->
    outcome r = JS.Return t ->
    requests r = repeat (JS.GET (status_url taskId) []) (S n - k) ->
    ending k n r
| ends_rejected (e : JS.Error) :
    within env interval timeout startTime n ->
    answer_of env n = JS.Rejected e ->
    outcome r = JS.Throw (JS.new_Error
                  (JS.or_else (Some (JS.message e)) "Error checking task status")) ->
    requests r = repeat (JS.GET (status_url taskId) []) (S n - k) ->
    ending k n r.

End Ending.

(** *** Submission, listing and clean-up *)

(** Body of the answer to a submission. *)
Record Executed : Type := mkExecuted {
  executed_status : option string;
  executed_error : option string;
  task_id : option string;
  taskId : option string
}.

Record Submitted : Type := mkSubmitted { submitted_taskId : option string }.

Definition executed_is_error (d : Executed) : bool :=
  match executed_status d with
  | Some s => (s =? "error")%string
  | None => false
  end.

(** [executeTask(request)]: the request body is any value [request]; the
    log pairs it with the path it was posted to.  The body of the answer may
    be [null]. *)
Definition executeTask {Request : Type} (type_error : string) (request : Request)
    (answer : JS.Axios (option Executed))
    : JS.Completion Submitted * list (string * Request) :=
  (JS.try_catch
     (match answer with
      | JS.Resolved body =>
          data <- JS.read type_error body ;;
          if executed_is_error data
          then JS.Throw (JS.new_Error
                 (match executed_error data with Some m => m | None => "" end))
          else JS.Return (mkSubmitted (JS.or_opt (task_id data) (taskId data)))
      | JS.Rejected e => JS.Throw e
      end)
     (fun error =>
        JS.Throw (JS.new_Error (JS.or_else (Some (JS.message error)) "Error executing task"))),
   [("/tasks/execute", request)]).

(** Body of the answer to a listing: the array itself, or an object that
    may carry it under [tasks]. *)
Inductive Listing : Type :=
| ListingArray (tasks : list Task)
| ListingObject (tasks : option (list Task)).

Definition list_url (status : option TaskStatus) (limit offset : Z) : string :=
  match status with
  | Some s =>
      "/tasks?status=" ++ status_text s ++ "&limit=" ++ JS.show limit ++
      "&offset=" ++ JS.show offset
  | None => "/tasks?limit=" ++ JS.show limit ++ "&offset=" ++ JS.show offset
  end.

(** [listTasks(status?, limit = 10, offset = 0)] *)
Definition listTasks (status : option TaskStatus) (limit offset : option Z)
    (answer : JS.Axios Listing) : JS.Completion (list Task) * list JS.HttpRequest :=
  (match answer with
   | JS.Resolved (ListingArray tasks) => JS.Return tasks
   | JS.Resolved (ListingObject (Some tasks)) => JS.Return tasks
   | JS.Resolved (ListingObject None) => JS.Return []
   | JS.Rejected e =>
       JS.Throw (JS.new_Error (JS.or_else (Some (JS.message e)) "Error listing tasks"))
   end,
   [JS.GET (list_url status (or_default limit 10) (or_default offset 0)) []]).

(** [cleanupTasks(maxAgeHours = 24)] *)
Definition cleanupTasks (type_error : string) (maxAgeHours : option Z)
    (answer : JS.Axios (option Verdict))
    : JS.Completion Success * list JS.HttpRequest :=
  (JS.try_catch
     (match answer with
      | JS.Resolved body =>
          data <- JS.read type_error body ;;
          if verdict_is_error data
          then JS.Throw (JS.new_Error
                 (match verdict_error data with Some m => m | None => "" end))
          else JS.Return (mkSuccess true)
      | JS.Rejected e => JS.Throw e
      end)
     (fun _ => JS.Return (mkSuccess false)),
   [JS.GET ("/tasks/cleanup/" ++ JS.show (or_default maxAgeHours 24)) []]).

End taskService.

(** ** The conversation panel: state and push-message handler *)

Module ConversationPanel.

Inductive Status : Type := Idle | Loading | Success | Failed.

Record state : Type := mkState {
  messages : list Message;
  input : string;
  loading : bool;
  status : Status;
  tokenCount : string
}.

(** The state of the first render. *)
Definition initial (ts : string) : state :=
  mkState [mkMessage "assistant" "How can I help you today?" None (Some ts)]
          "" false Idle "".

Definition setMessages (f : list Message -> list Message) (st : state) : state :=
  mkState (f (messages st)) (input st) (loading st) (status st) (tokenCount st).
Definition setInput (s : string) (st : state) : state :=
  mkState (messages st) s (loading st) (status st) (tokenCount st).
Definition setLoading (b : bool) (st : state) : state :=
  mkState (messages st) (input st) b (status st) (tokenCount st).
Definition setStatus (s : Status) (st : state) : state :=
  mkState (messages st) (input st) (loading st) s (tokenCount st).
Definition setTokenCount (s : string) (st : state) : state :=
  mkState (messages st) (input st) (loading st) (status st) s.

(** The filter of the connected branch: an error bubble that mentions the
    socket or the connection goes, everything else stays. *)
Definition is_connection_error (msg : Message) : bool :=
  is_error msg &&
  (JS.includes (content msg) "WebSocket" || JS.includes (content msg) "connection").

Definition clear_connection_errors (prev : list Message) : list Message :=
  filter (fun msg => negb (is_connection_error msg)) prev.

(** [[...filteredPrev, m]] after dropping the loading bubble. *)
Definition replace_loading (m : Message) (prev : list Message) : list Message :=
  drop_loading prev ++ [m].

(** Merge of the transcript of a completed query into the live list. *)
Definition merge_chat_history (ts : string) (history prev : list Message) : list Message :=
  drop_loading prev ++ map (with_timestamp ts) history.

(** [n || 0] followed by template printing. *)
Definition show_count (n : option Z) : string :=
  match n with
  | Some z => JS.show z
  | None => "0"
  end.

Definition token_summary (t : TokenInfo) : string :=
  "Completion: " ++ show_count (completion_token_count t) ++
  " | Prompt: " ++ show_count (prompt_token_count t) ++
  " | Total: " ++ show_count (total_token_count t).

(** The browser-mode branch rewrites the last bubble when it is the loading
    one. *)
Definition browser_mode_text (mode : string) : string :=
  "Thinking... (" ++
  (if (mode =? "visible")%string then "Browser window should open shortly"
   else "Headless browser mode") ++ ")".

Definition update_last_loading (ts mode : string) (prev : list Message) : list Message :=
  match rev prev with
  | lastMessage :: _ =>
      if is_loading lastMessage
      then removelast prev ++ [mkMessage "loading" (browser_mode_text mode) None (Some ts)]
      else prev
  | [] => prev
  end.

(** The log branch rewrites the first loading bubble, keeping its other
    fields. *)
Fixpoint update_first_loading (ts text : string) (prev : list Message) : list Message :=
  match prev with
  | [] => []
  | m :: rest =>
      if is_loading m
      then mkMessage (role m) text (token_count m) (Some ts) :: rest
      else m :: update_first_loading ts text rest
  end.

Definition nonempty_history (p : QueryPayload) : option (list Message) :=
  match chat_history p with
  | Some (m :: l) => Some (m :: l)
  | _ => None
  end.

Definition usable_answer (p : QueryPayload) : option string :=
  match answer p with
  | Some a => if JS.truthy a && JS.truthy (JS.trim a) then Some a else None
  | None => None
  end.

Definition on_completed (ts : string) (p : QueryPayload) (st : state) : state :=
  let st1 :=
    match nonempty_history p with
    | Some history => setMessages (merge_chat_history ts history) st
    | None =>
        match usable_answer p with
        | Some a => setMessages (replace_loading (mkMessage "assistant" a None (Some ts))) st
        | None =>
            setMessages (replace_loading (mkMessage "error"
              "Empty response received. The browser process may have failed to return results."
              None (Some ts))) st
        end
    end in
  let st2 :=
    match token_info p with
    | Some t => setTokenCount (token_summary t) st1
    | None => st1
    end in
  setLoading false (setStatus Success st2).

(** [handleWebSocketMessage].  [closure_loading] is the value of [loading]
    captured by the handler, [ts] the reading of [formatTimestamp()]. *)
Definition handleWebSocketMessage
    (closure_loading : bool) (ts : string) (response : Push.response) (st : state) : state :=
  if Push.type_is response "system" && Push.status_is response "connected" then
    setMessages clear_connection_errors st
  else if Push.type_is response "ack" then st
  else if Push.type_is response "status" then
    match (if Push.status_is response "completed" then Push.result response else None) with
    | Some p => on_completed ts p st
    | None =>
        if Push.status_is response "error" then
          setMessages (replace_loading (mkMessage "error"
            (JS.or_else (Push.error response) "An error occurred processing your request")
            None (Some ts))) (setLoading false (setStatus Failed st))
        else if Push.status_is response "processing" then
          match Push.browser_mode response with
          | Some mode =>
              if JS.truthy mode then setMessages (update_last_loading ts mode) st else st
          | None => st
          end
        else st
    end
  else if Push.type_is response "log" then
    if closure_loading
    then setMessages (update_first_loading ts (JS.or_else (Push.message response) "Thinking...")) st
    else st
  else if Push.type_is response "error" then
    setMessages (replace_loading (mkMessage "error"
      (JS.or_else (Push.message response) "An unexpected error occurred")
      None (Some ts))) (setLoading false (setStatus Failed st))
  else st.

(** *** Submission *)

(** [sendRESTQuery(query)]: the updater applied to the list once the answer
    of [runQuery] is in.  A transcript replaces the list; a bare answer
    replaces the loading bubble. *)
Definition show_result (ts : string) (r : owlApiService.QueryResult)
    (prev : list Message) : list Message :=
  match owlApiService.result_chat_history r with
  | Some (m :: l) => map (with_timestamp ts) (m :: l)
  | _ =>
      drop_loading prev ++
      [mkMessage "assistant"
         (match owlApiService.result_answer r with Some a => a | None => "" end)
         None (Some ts)]
  end.

(** [sendRESTQuery(query)] up to its [await]: the call of [runQuery] it
    makes. *)
Definition sendRESTQuery (selectedModule query : string) : owlApiService.QueryParams :=
  owlApiService.mkQueryParams query (Some selectedModule).

(** [sendRESTQuery] from its [await] on, when [runQuery] has settled with
    [r]: the updates are made to the state of that moment. *)
Definition sendRESTQuery_resumed (ts : string)
    (r : JS.Completion owlApiService.QueryResult) (st : state) : JS.Completion state :=
  res <- r ;;
  JS.Return (setLoading false (setStatus Success
    (setTokenCount (owlApiService.tokenCount res)
      (setMessages (show_result ts res) st)))).

(** The mounted panel: what is on screen, the connection made at mount (if
    the constructor did not throw), whether [wsRef.current] still points to
    its socket, whether the ping timer is running, how many times
    [connectWebSocket] has been called, and the calls of [runQuery] whose
    answer [handleSubmit] is still awaiting, oldest first. *)
Record panel : Type := mkPanel {
  view : state;
  conn : option owlApiService.connection;
  wsRef : bool;
  pingTimer : bool;
  connects : nat;
  awaited : list owlApiService.QueryParams
}.


(** The socket [wsRef.current] points to, when it is open. *)
Definition open_socket (p : panel) : option owlApiService.connection :=
  match conn p with
  | Some c =>
      if wsRef p && WebSocket.is_open (WebSocket.readyState (owlApiService.socket c))
      then Some c else None
  | None => None
  end.

Definition with_socket (ws : WebSocket.t) (c : owlApiService.connection)
    : owlApiService.connection :=
  owlApiService.mkConnection ws (owlApiService.hasConnected c)
    (owlApiService.timeoutArmed c).

(** Every notice handed to the callback goes through the handler of the
    first render, whose [loading] is [false]. *)
Definition deliver (ts : string) (notices : list Push.response) (st : state) : state :=
  fold_left (fun s n => handleWebSocketMessage false ts n s) notices st.

(** The mount effect. *)
Definition mount (ts : string) (constructor_throws : bool) : panel :=
  let (c, notices) := owlApiService.connectWebSocket constructor_throws in
  mkPanel (deliver ts notices (initial ts)) c
          (match c with Some _ => true | None => false end) true 1 [].

(** The catch block of [handleSubmit]. *)
Definition submit_failed (ts : string) (e : JS.Error) (st : state) : state :=
  setLoading false
    (setMessages (replace_loading (mkMessage "error"
       (JS.or_else (JS.formattedMessage e) "An error occurred processing your request")
       None (Some ts)))
     (setStatus Failed st)).

(** [handleSubmit] up to its [await]: the panel afterwards and the call of
    [runQuery] it starts, if any.  The guard and the query are those of the
    render the handler belongs to. *)
Definition handleSubmit (ts selectedModule : string) (send_throws : bool) (p : panel)
    : panel * option owlApiService.QueryParams :=
  let st := view p in
  if negb (JS.truthy (JS.trim (input st))) || loading st then (p, None)
  else
    let userMessage := mkMessage "user" (JS.trim (input st)) None (Some ts) in
    let loadingMessage := mkMessage "loading" "Thinking..." None (Some ts) in
    let st1 :=
      setStatus Loading (setLoading true
        (setMessages (fun prev => prev ++ [userMessage; loadingMessage])
          (setInput "" st))) in
    let by_rest (c : option owlApiService.connection) :=
      let call := sendRESTQuery selectedModule (input st) in
      (mkPanel st1 c (wsRef p) (pingTimer p) (connects p) (awaited p ++ [call]),
       Some call) in
    match open_socket p with
    | Some c =>
        let (ok, ws) :=
          owlApiService.sendWebSocketQuery send_throws (owlApiService.socket c)
            (input st) (Some selectedModule) in
        if ok then (mkPanel st1 (Some (with_socket ws c)) (wsRef p) (pingTimer p)
                            (connects p) (awaited p), None)
        else by_rest (Some (with_socket ws c))
    | None => by_rest (conn p)
    end.

(** [handleSubmit] from its [await] on, when the call of [runQuery] has
    settled with [r]: nothing more when [sendRESTQuery] returns, the catch
    block when it throws. *)
Definition handleSubmit_resumed (ts : string)
    (r : JS.Completion owlApiService.QueryResult) (st : state) : state :=
  match sendRESTQuery_resumed ts r st with
  | JS.Return st' => st'
  | JS.Throw e => submit_failed ts e st
  end.

(** The list without its k-th entry. *)
Definition without {A : Type} (k : nat) (l : list A) : list A :=
  firstn k l ++ skipn (S k) l.

(** *** Life cycle *)

(** What happens to a mounted panel: an event of its socket, a tick of the
    ping timer, typing, a submission, the settling of the k-th awaited call
    of [runQuery] with [r], and the unmount. *)
Inductive action : Type :=
| Socket (ev : owlApiService.event) (ts : string)
| PingTick (now : Z) (send_throws : bool)
| Typed (text : string)
| Submit (ts selectedModule : string) (send_throws : bool)
| Answered (k : nat) (ts : string) (r : JS.Completion owlApiService.QueryResult)
| Unmount.

Definition step (a : action) (p : panel) : panel :=
  match a with
  | Socket ev ts =>
      match conn p with
      | Some c =>
          let (c', notices) := owlApiService.handle ev c in
          mkPanel (deliver ts notices (view p)) (Some c') (wsRef p) (pingTimer p)
                  (connects p) (awaited p)
      | None => p
      end
  | PingTick now send_throws =>
      if pingTimer p then
        match open_socket p with
        | Some c =>
            let (_, ws) :=
              owlApiService.sendWebSocketPing send_throws now (owlApiService.socket c) in
            mkPanel (view p) (Some (with_socket ws c)) (wsRef p) (pingTimer p) (connects p)
                    (awaited p)
        | None => p
        end
      else p
  | Typed text =>
      mkPanel (setInput text (view p)) (conn p) (wsRef p) (pingTimer p) (connects p)
              (awaited p)
  | Submit ts selectedModule send_throws =>
      fst (handleSubmit ts selectedModule send_throws p)
  | Answered k ts r =>
      match nth_error (awaited p) k with
      | Some _ =>
          mkPanel (handleSubmit_resumed ts r (view p)) (conn p) (wsRef p) (pingTimer p)
                  (connects p) (without k (awaited p))
      | None => p
      end
  | Unmount =>
      mkPanel (view p)
        (if wsRef p
         then option_map (fun c => with_socket (WebSocket.close (owlApiService.socket c)) c)
                (conn p)
         else conn p)
        false false (connects p) (awaited p)
  end.

Definition steps (acts : list action) (p : panel) : panel :=
  fold_left (fun q a => step a q) acts p.

(** Frames written to the socket of the panel so far. *)
Definition frames (p : panel) : list JS.jobject :=
  match conn p with
  | Some c => WebSocket.sent (owlApiService.socket c)
  | None => []
  end.


(** The bubble shown for a notice of the connection layer. *)
Definition error_bubble (ts : string) (n : TransportNotice) : Message :=
  mkMessage "error" (notice_text n) None (Some ts).

End ConversationPanel.

(** ** The plain chat component *)

Module CamelChat.

(** What the push handler of the chat reads of a frame. *)
Record frame : Type := mkFrame {
  status : option string;
  chat_history : option (list Message);
  response : option string;
  error : option string
}.

Record state : Type := mkState {
  messages : list Message;
  isLoading : bool
}.

Definition status_is (f : frame) (t : string) : bool :=
  match status f with
  | Some s => (s =? t)%string
  | None => false
  end.

Definition handleWebSocketMessage (f : frame) (st : state) : state :=
  if status_is f "success" then
    match chat_history f with
    | Some newMessages => mkState (messages st ++ newMessages) false
    | None =>
        if JS.truthy_opt (response f)
        then mkState (messages st ++
                      [mkMessage "assistant"
                         (match response f with Some r => r | None => "" end) None None])
                     false
        else mkState (messages st) false
    end
  else if status_is f "error" then
    mkState (messages st ++
             [mkMessage "assistant"
                ("Error: " ++ JS.or_else (error f) "An unknown error occurred") None None])
            false
  else st.

(** The fields above of a frame made by [connectWebSocket] itself. *)
Definition of_notice (r : Push.response) : frame :=
  mkFrame (Push.status r) None None (Push.error r).

Definition receive (frames : list frame) (st : state) : state :=
  fold_left (fun st f => handleWebSocketMessage f st) frames st.

End CamelChat.


(** ** The browser session service *)

Module browserService.

Record BrowserResponse : Type := mkBrowserResponse {
  success : bool;
  session_id : option string;
  error : option string
}.

Record BrowserNavigateParams : Type := mkNavigate {
  navigate_url : string;
  navigate_session_id : option string
}.

Record BrowserExtractParams : Type := mkExtract {
  extract_url : string;
  selector : option string;
  extract_session_id : option string
}.

Record BrowserActionParams : Type := mkAction {
  action_url : string;
  task : string;
  action_session_id : option string
}.

(** The only state of the service: [currentSessionId]. *)
Definition state : Type := option string.

Definition initial : state := None.

(** [providedId || this.currentSessionId] *)
Definition _getSessionId (providedId : option string) (currentSessionId : state)
    : option string :=
  JS.or_opt providedId currentSessionId.

Definition _setSessionId (sessionId : string) (currentSessionId : state) : state * string :=
  (Some sessionId, sessionId).

(** The object literal [{...params, session_id: sessionId}] for each of the
    three posting operations. *)
Definition navigate_request (params : BrowserNavigateParams) (st : state) : JS.HttpRequest :=
  JS.POST "/browser/navigate"
    [("url", JS.JStr (navigate_url params));
     ("session_id", JS.jstr_opt (_getSessionId (navigate_session_id params) st))].

Definition extract_request (params : BrowserExtractParams) (st : state) : JS.HttpRequest :=
  JS.POST "/browser/extract"
    ([("url", JS.JStr (extract_url params))] ++
     match selector params with
     | Some s => [("selector", JS.JStr s)]
     | None => []
     end ++
     [("session_id", JS.jstr_opt (_getSessionId (extract_session_id params) st))]).

Definition action_request (params : BrowserActionParams) (st : state) : JS.HttpRequest :=
  JS.POST "/browser/action"
    [("url", JS.JStr (action_url params));
     ("task", JS.JStr (task params));
     ("session_id", JS.jstr_opt (_getSessionId (action_session_id params) st))].

Definition amazon_request (keyword : string) : JS.HttpRequest :=
  JS.GET "/browser/amazon-search" [("keyword", JS.JStr keyword)].

(** What every operation but [closeSession] does with the answer: remember
    the session of the response, or turn a rejection into a failure. *)
Definition settle (fallback : string) (answer : JS.Axios BrowserResponse) (st : state)
    : state * BrowserResponse :=
  match answer with
  | JS.Resolved data =>
      (match session_id data with
       | Some s => if JS.truthy s then fst (_setSessionId s st) else st
       | None => st
       end, data)
  | JS.Rejected e =>
      (st, mkBrowserResponse false None (Some (JS.or_else (Some (JS.message e)) fallback)))
  end.

Definition navigate (params : BrowserNavigateParams) (answer : JS.Axios BrowserResponse)
    (st : state) : state * BrowserResponse * list JS.HttpRequest :=
  (settle "Failed to navigate" answer st, [navigate_request params st]).

Definition extract (params : BrowserExtractParams) (answer : JS.Axios BrowserResponse)
    (st : state) : state * BrowserResponse * list JS.HttpRequest :=
  (settle "Failed to extract content" answer st, [extract_request params st]).

Definition performAction (params : BrowserActionParams) (answer : JS.Axios BrowserResponse)
    (st : state) : state * BrowserResponse * list JS.HttpRequest :=
  (settle "Failed to perform action" answer st, [action_request params st]).

Definition amazonSearch (keyword : string) (answer : JS.Axios BrowserResponse)
    (st : state) : state * BrowserResponse * list JS.HttpRequest :=
  (settle "Failed to search Amazon" answer st, [amazon_request keyword]).

(** [closeSession]: the part after the answer, run on the state of that
    moment with the id chosen before the request. *)
Definition close_settle (sessionId : string) (answer : JS.Axios BrowserResponse)
    (st : state) : state * BrowserResponse :=
  match answer with
  | JS.Resolved data =>
      (if success data &&
          match st with
          | Some current => (sessionId =? current)%string
          | None => false
          end
       then None else st, data)
  | JS.Rejected e =>
      (st, mkBrowserResponse false None
             (Some (JS.or_else (Some (JS.message e)) "Failed to close session")))
  end.

Definition closeSession (provided : option string) (answer : JS.Axios BrowserResponse)
    (st : state) : state * BrowserResponse * list JS.HttpRequest :=
  match _getSessionId provided st with
  | Some sessionId =>
      if JS.truthy sessionId
      then (close_settle sessionId answer st,
            [JS.POST "/browser/sessions/close" [("session_id", JS.JStr sessionId)]])
      else (st, mkBrowserResponse false None (Some "No session ID provided or stored"), [])
  | None => (st, mkBrowserResponse false None (Some "No session ID provided or stored"), [])
  end.

(** The calls a client of the service can make, each with the answer of
    the server to its request, and a run of them from a state of the
    service. *)
Inductive operation : Type :=
| Navigate (params : BrowserNavigateParams) (answer : JS.Axios BrowserResponse)
| Extract (params : BrowserExtractParams) (answer : JS.Axios BrowserResponse)
| PerformAction (params : BrowserActionParams) (answer : JS.Axios BrowserResponse)
| AmazonSearch (keyword : string) (answer : JS.Axios BrowserResponse)
| CloseSession (provided : option string) (answer : JS.Axios BrowserResponse).

Definition perform (op : operation) (st : state)
    : state * BrowserResponse * list JS.HttpRequest :=
  match op with
  | Navigate params answer => navigate params answer st
  | Extract params answer => extract params answer st
  | PerformAction params answer => performAction params answer st
  | AmazonSearch keyword answer => amazonSearch keyword answer st
  | CloseSession provided answer => closeSession provided answer st
  end.

Fixpoint run (ops : list operation) (st : state) : state * list JS.HttpRequest :=
  match ops with
  | [] => (st, [])
  | op :: rest =>
      let '(st', _, reqs) := perform op st in
      let (st'', reqs') := run rest st' in
      (st'', reqs ++ reqs')
  end.

Definition is_close_request (r : JS.HttpRequest) : bool :=
  match r with
  | JS.POST url _ => (url =? "/browser/sessions/close")%string
  | JS.GET _ _ => false
  end.

(** The session id a request carries, if it has the field. *)
Definition carried_session (r : JS.HttpRequest) : option JS.jvalue :=
  match r with
  | JS.POST _ body => JS.get body "session_id"
  | JS.GET _ params => JS.get params "session_id"
  end.

(** A stored session id is never the empty string. *)
Definition usable (st : state) : Prop :=
  match st with
  | Some s => JS.truthy s = true
  | None => True
  end.

(** A request to close a session names the session. *)
Definition close_carries_id (r : JS.HttpRequest) : Prop :=
  is_close_request r = true ->
  exists s, carried_session r = Some (JS.JStr s) /\ JS.truthy s = true.

End browserService.

(** ** The task components *)

Module TaskExecutor.

(** [taskId] of the component: [null], or what [executeTask] returned
    (possibly [undefined]). *)
Record state : Type := mkState {
  query : string;
  taskId : option (option string);
  isSubmitting : bool;
  error : option string
}.

Definition initial : state := mkState "" None false None.

(** The body [handleSubmit] posts. *)
Record request (Context : Type) : Type := mkRequest {
  request_type : string;
  request_query : string;
  request_context : Context
}.
Arguments mkRequest {Context} request_type request_query request_context.

Definition handleSubmit {Context : Type} (type_error : string) (contextData : Context)
    (answer : JS.Axios (option taskService.Executed)) (st : state)
    : state * list (string * request Context) :=
  if negb (JS.truthy (JS.trim (query st))) then (st, [])
  else
    let (result, log) :=
      taskService.executeTask type_error (mkRequest "user_query" (query st) contextData)
        answer in
    (match result with
     | JS.Return r =>
         mkState (query st) (Some (taskService.submitted_taskId r)) false None
     | JS.Throw err =>
         mkState (query st) (taskId st) false
           (Some (JS.or_else (Some (JS.message err)) "Error executing task"))
     end, log).

Definition handleReset (st : state) : state :=
  mkState "" None (isSubmitting st) None.



End TaskExecutor.

Module TaskViewer.

Record state : Type := mkState {
  task : option taskService.Task;
  error : option string;
  isPolling : bool
}.

Definition initial : state := mkState None None false.

(** [fetchTaskStatus()]: the snapshot, or [null] with the error shown. *)
Definition fetchTaskStatus (taskId : string) (answer : JS.Axios taskService.Task)
    (st : state) : state * option taskService.Task * list JS.HttpRequest :=
  let (r, reqs) := taskService.getTaskStatus taskId answer in
  match r with
  | JS.Return taskData => (mkState (Some taskData) None (isPolling st), Some taskData, reqs)
  | JS.Throw err =>
      (mkState (task st)
         (Some (JS.or_else (Some (JS.message err)) "Error fetching task status"))
         (isPolling st), None, reqs)
  end.

(** What a run of the loop leaves: the component, the snapshots handed to
    [onTaskComplete], the requests made and the clock. *)
Record run : Type := mkRun {
  final : state;
  completed : list taskService.Task;
  requests : list JS.HttpRequest;
  finished_at : Z
}.

(** The [while] loop of [pollTaskCompletion], entered for the k-th time
    with the clock at [now]; [None] when [fuel] iterations were not
    enough. *)
Fixpoint poll_loop (env : taskService.PollEnv) (taskId : string)
    (pollInterval maxPollDuration : Z) (onTaskComplete : bool) (startTime : Z)
    (fuel k : nat) (now : Z) (st : state) : option run :=
  match fuel with
  | O => None
  | S fuel' =>
      if (now - startTime <? maxPollDuration)%Z then
        let '(st1, taskData, reqs) :=
          fetchTaskStatus taskId (taskService.answer_of env k) st in
        let after_fetch := (now + taskService.latency env k)%Z in
        let continue (delay : Z) :=
          match poll_loop env taskId pollInterval maxPollDuration onTaskComplete startTime
                  fuel' (S k)
                  (after_fetch + Z.max 0 delay + taskService.oversleep env k)%Z st1 with
          | Some r =>
              Some (mkRun (final r) (completed r) (reqs ++ requests r) (finished_at r))
          | None => None
          end in
        match taskData with
        | None => continue (pollInterval * 5)%Z
        | Some t =>
            if taskService.is_terminal (taskService.status t)
            then Some (mkRun st1 (if onTaskComplete then [t] else []) reqs after_fetch)
            else continue pollInterval
        end
      else Some (mkRun st [] [] now)
  end.

(** [pollTaskCompletion()], with [isPolling] as the closure captured it. *)
Definition pollTaskCompletion (env : taskService.PollEnv) (taskId : string)
    (pollInterval maxPollDuration : option Z) (onTaskComplete : bool) (startTime : Z)
    (fuel : nat) (closure_isPolling : bool) (st : state) : option run :=
  if closure_isPolling then Some (mkRun st [] [] startTime)
  else
    match poll_loop env taskId
            (taskService.or_default pollInterval 1000)
            (taskService.or_default maxPollDuration 300000)
            onTaskComplete startTime fuel 0 startTime
            (mkState (task st) (error st) true) with
    | Some r =>
        Some (mkRun (mkState (task (final r)) (error (final r)) false)
                (completed r) (requests r) (finished_at r))
    | None => None
    end.

(** The clock at the start of the k-th iteration: a rejected fetch is
    followed by five intervals of sleep, a snapshot by one. *)
Fixpoint clock_at (env : taskService.PollEnv) (pollInterval startTime : Z) (k : nat) : Z :=
  match k with
  | O => startTime
  | S k' =>
      (clock_at env pollInterval startTime k' + taskService.latency env k' +
       Z.max 0 (match taskService.answer_of env k' with
                | JS.Rejected _ => pollInterval * 5
                | JS.Resolved _ => pollInterval
                end) + taskService.oversleep env k')%Z
  end.

(** The k-th fetch does not end the loop: it was rejected, or its
    snapshot is not terminal. *)
Definition goes_on (env : taskService.PollEnv) (k : nat) : Prop :=
  match taskService.answer_of env k with
  | JS.Rejected _ => True
  | JS.Resolved t => taskService.is_terminal (taskService.status t) = false
  end.

(** The loop gets as far as making the n-th fetch. *)
Definition reaches (env : taskService.PollEnv) (pollInterval maxPollDuration startTime : Z)
    (n : nat) : Prop :=
  (clock_at env pollInterval startTime n - startTime < maxPollDuration)%Z /\
  forall j, j < n -> goes_on env j.

End TaskViewer.

(** ** The browser test page *)

Module BrowserTest.

Record state : Type := mkState {
  url : string;
  keyword : string;
  task : string;
  selector : string;
  loading : bool;
  sessionId : option string;
  result : option browserService.BrowserResponse;
  message : string
}.

Definition initial : state :=
  mkState "https://www.amazon.com" "mechanical keyboard for programmers"
    "Search for mechanical keyboards and find the top 3 options with their prices"
    ".s-result-item h2" false None None "".

(** The page together with the service it drives. *)
Definition world : Type := (state * browserService.state)%type.

(** [sessionId || undefined] *)
Definition session_argument (st : state) : option string :=
  if JS.truthy_opt (sessionId st) then sessionId st else None.

(** What the first four handlers do with a response: show it, remember its
    session when it has one, report success. *)
Definition shown (text : string) (response : browserService.BrowserResponse) (st : state)
    : state :=
  mkState (url st) (keyword st) (task st) (selector st) false
    (if JS.truthy_opt (browserService.session_id response)
     then browserService.session_id response else sessionId st)
    (Some response) text.

Definition handleNavigate (answer : JS.Axios browserService.BrowserResponse) (w : world)
    : world * list JS.HttpRequest :=
  let (st, service) := w in
  let '(service', response, reqs) :=
    browserService.navigate (browserService.mkNavigate (url st) None) answer service in
  ((shown "Navigation successful" response st, service'), reqs).

Definition handleExtract (answer : JS.Axios browserService.BrowserResponse) (w : world)
    : world * list JS.HttpRequest :=
  let (st, service) := w in
  let '(service', response, reqs) :=
    browserService.extract
      (browserService.mkExtract (url st) (Some (selector st)) (session_argument st))
      answer service in
  ((shown "Content extraction successful" response st, service'), reqs).

Definition handlePerformAction (answer : JS.Axios browserService.BrowserResponse) (w : world)
    : world * list JS.HttpRequest :=
  let (st, service) := w in
  let '(service', response, reqs) :=
    browserService.performAction
      (browserService.mkAction (url st) (task st) (session_argument st)) answer service in
  ((shown "Action performed successfully" response st, service'), reqs).

Definition handleAmazonSearch (answer : JS.Axios browserService.BrowserResponse) (w : world)
    : world * list JS.HttpRequest :=
  let (st, service) := w in
  let '(service', response, reqs) :=
    browserService.amazonSearch (keyword st) answer service in
  ((shown "Amazon search successful" response st, service'), reqs).

Definition with_message (text : string) (st : state) : state :=
  mkState (url st) (keyword st) (task st) (selector st) (loading st) (sessionId st)
    (result st) text.

Definition handleCloseSession (answer : JS.Axios browserService.BrowserResponse) (w : world)
    : world * list JS.HttpRequest :=
  let (st, service) := w in
  if negb (JS.truthy_opt (sessionId st))
  then ((with_message "No active session to close" st, service), [])
  else
    let '(service', response, reqs) :=
      browserService.closeSession (sessionId st) answer service in
    ((if browserService.success response
      then mkState (url st) (keyword st) (task st) (selector st) false None
             (Some response) "Session closed successfully"
      else mkState (url st) (keyword st) (task st) (selector st) false (sessionId st)
             (result st) "Failed to close session",
      service'), reqs).

Inductive action : Type :=
| Navigate (answer : JS.Axios browserService.BrowserResponse)
| Extract (answer : JS.Axios browserService.BrowserResponse)
| PerformAction (answer : JS.Axios browserService.BrowserResponse)
| AmazonSearch (answer : JS.Axios browserService.BrowserResponse)
| CloseSession (answer : JS.Axios browserService.BrowserResponse)
| UrlChange (value : string)
| SelectorChange (value : string)
| KeywordChange (value : string)
| TaskChange (value : string).

Definition step (a : action) (w : world) : world * list JS.HttpRequest :=
  match a with
  | Navigate answer => handleNavigate answer w
  | Extract answer => handleExtract answer w
  | PerformAction answer => handlePerformAction answer w
  | AmazonSearch answer => handleAmazonSearch answer w
  | CloseSession answer => handleCloseSession answer w
  | UrlChange v =>
      let (st, service) := w in
      ((mkState v (keyword st) (task st) (selector st) (loading st) (sessionId st)
          (result st) (message st), service), [])
  | SelectorChange v =>
      let (st, service) := w in
      ((mkState (url st) (keyword st) (task st) v (loading st) (sessionId st)
          (result st) (message st), service), [])
  | KeywordChange v =>
      let (st, service) := w in
      ((mkState (url st) v (task st) (selector st) (loading st) (sessionId st)
          (result st) (message st), service), [])
  | TaskChange v =>
      let (st, service) := w in
      ((mkState (url st) (keyword st) v (selector st) (loading st) (sessionId st)
          (result st) (message st), service), [])
  end.

Definition steps (acts : list action) (w : world) : world :=
  fold_left (fun w' a => fst (step a w')) acts w.

(** The page and the service agree on the session, which is never the
    empty string. *)
Definition in_step (w : world) : Prop :=
  sessionId (fst w) = snd w /\
  forall s, snd w = Some s -> JS.truthy s = true.

(** The banner of the page is red when its text says so. *)
Definition banner_red (text : string) : bool :=
  JS.includes text "failed" || JS.includes text "error".

(** The texts the handlers can leave in the banner. *)
Definition banner_texts : list string :=
  [""; "Navigation successful"; "Content extraction successful";
   "Action performed successfully"; "Amazon search successful";
   "No active session to close"; "Session closed successfully";
   "Failed to close session"].

End BrowserTest.

(** ** The tool service and the tool form *)

Module toolService.

Record ToolParameter : Type := mkParameter {
  parameter_name : string;
  parameter_type : string;
  parameter_description : option string;
  required : bool;
  default : option JS.jvalue
}.

Record Tool : Type := mkTool {
  name : string;
  description : string;
  category : string;
  parameters : list ToolParameter
}.

(** Body of the answer to an execution. *)
Record Execution : Type := mkExecution {
  execution_status : option string;
  execution_error : option string;
  execution_result : option JS.jvalue
}.

Definition execution_is_error (d : Execution) : bool :=
  match execution_status d with
  | Some s => (s =? "error")%string
  | None => false
  end.

(** [executeTool(toolName, parameters)]; the log holds the bodies posted to
    [/tools/execute]. *)
Definition executeTool (toolName : string) (parameters : JS.jobject)
    (answer : JS.Axios Execution)
    : JS.Completion (option JS.jvalue) * list (string * JS.jobject) :=
  (JS.try_catch
     (match answer with
      | JS.Resolved data =>
          if execution_is_error data
          then JS.Throw (JS.new_Error
                 (match execution_error data with Some m => m | None => "" end))
          else JS.Return (execution_result data)
      | JS.Rejected e => JS.Throw e
      end)
     (fun error =>
        JS.Throw (JS.new_Error (JS.or_else (Some (JS.message error)) "Error executing tool"))),
   [(toolName, parameters)]).

End toolService.

Module ToolExecutor.

Record state : Type := mkState {
  parameters : JS.jobject;
  loading : bool;
  error : option string;
  result : option (option JS.jvalue)
}.

Definition initial : state := mkState [] false None None.

(** [{...prev, [name]: value}] *)
Fixpoint assign (prev : JS.jobject) (name : string) (value : JS.jvalue) : JS.jobject :=
  match prev with
  | [] => [(name, value)]
  | (k, v) :: rest =>
      if (k =? name)%string then (k, value) :: rest else (k, v) :: assign rest name value
  end.

Definition handleParameterChange (name : string) (value : JS.jvalue) (st : state) : state :=
  mkState (assign (parameters st) name value) (loading st) (error st) (result st).

(** The names every object literal inherits from [Object.prototype]: reading
    one of them from an object that has no such property of its own does
    not give [undefined]. *)
Definition inherited (name : string) : bool :=
  existsb (String.eqb name)
    ["constructor"; "__proto__"; "hasOwnProperty"; "isPrototypeOf";
     "propertyIsEnumerable"; "toLocaleString"; "toString"; "valueOf";
     "__defineGetter__"; "__defineSetter__"; "__lookupGetter__"; "__lookupSetter__"].

(** [parameters[name] === undefined || parameters[name] === ''] *)
Definition unset (parameters : JS.jobject) (name : string) : bool :=
  match JS.get parameters name with
  | None => negb (inherited name)
  | Some (JS.JStr s) => negb (JS.truthy s)
  | Some _ => false
  end.

Definition missingParams (tool : toolService.Tool) (parameters : JS.jobject) : list string :=
  map toolService.parameter_name
    (filter (fun param =>
               toolService.required param &&
               unset parameters (toolService.parameter_name param))
            (toolService.parameters tool)).

(** [names.join(', ')] *)
Fixpoint join (names : list string) : string :=
  match names with
  | [] => ""
  | [n] => n
  | n :: rest => (n ++ ", " ++ join rest)%string
  end.

Definition handleExecute (tool : toolService.Tool) (answer : JS.Axios toolService.Execution)
    (st : state) : state * list (string * JS.jobject) :=
  match missingParams tool (parameters st) with
  | [] =>
      let (r, log) := toolService.executeTool (toolService.name tool) (parameters st) answer in
      (match r with
       | JS.Return executionResult =>
           mkState (parameters st) false None (Some executionResult)
       | JS.Throw e =>
           mkState (parameters st) false
             (Some (JS.or_else (Some (JS.message e)) "Error executing tool")) None
       end, log)
  | missing =>
      (mkState (parameters st) false
         (Some ("Missing required parameters: " ++ join missing)%string) None, [])
  end.

End ToolExecutor.

(** ** The environment manager *)

Module EnvironmentManager.

Record EnvVar : Type := mkEnvVar {
  key : string;
  value : string;
  guide : option string;
  defaultValue : option string;
  description : option string;
  group : string;
  isOptional : option bool
}.

Definition keys (vars : list EnvVar) : list string := map key vars.

(** [envMap[k]] after [envData.forEach(env => envMap[env.key] = env.value)]:
    the value of the last entry with the key.  The keys looked up are those
    of the table, names of environment variables. *)
Fixpoint envMap (envData : list owlApiService.EnvPair) (k : string) : option string :=
  match envData with
  | [] => None
  | env :: rest =>
      match envMap rest k with
      | Some v => Some v
      | None =>
          if (owlApiService.pair_key env =? k)%string
          then Some (owlApiService.pair_value env) else None
      end
  end.

Definition known (table : list EnvVar) (k : string) : bool :=
  existsb (fun p => (key p =? k)%string) table.

Section Table.

(** The table of the predefined variables. *)
Variable PREDEFINED_ENV_VARS : list EnvVar.

(** The list [fetchEnvironmentVariables] builds from the answer of the
    service: the table with the values of the server, then the variables
    the table does not know, in the group [other]. *)
Definition completeVars (envData : list owlApiService.EnvPair) : list EnvVar :=
  map (fun predefined =>
         mkEnvVar (key predefined)
           (JS.or_else (envMap envData (key predefined))
              (JS.or_else (defaultValue predefined) ""))
           (guide predefined) (defaultValue predefined) (description predefined)
           (group predefined) (isOptional predefined))
      PREDEFINED_ENV_VARS ++
  map (fun env =>
         mkEnvVar (owlApiService.pair_key env) (owlApiService.pair_value env)
           None None None "other" None)
      (filter (fun env => negb (known PREDEFINED_ENV_VARS (owlApiService.pair_key env)))
              envData).

End Table.

(** [handleSaveChanges]: the variables with a value that is not blank are
    sent; when all are accepted the list is fetched again.  The result is
    the list and the status message afterwards, with the requests made. *)
Record Saved : Type := mkSaved {
  saved_vars : list EnvVar;
  saved_message : string;
  saved_requests : list JS.HttpRequest
}.

Definition nonEmptyVars (envVars : list EnvVar) : list EnvVar :=
  filter (fun v => negb (JS.trim (value v) =? "")%string) envVars.

Definition handleSaveChanges {Data : Type} (PREDEFINED_ENV_VARS : list EnvVar)
    (OPENAI_API_KEY : option string) (answers : nat -> JS.Axios Data)
    (related : JS.Axios (list owlApiService.EnvItem))
    (check : JS.Axios owlApiService.EnvCheck)
    (envVars : list EnvVar) : Saved :=
  let updatedVars :=
    map (fun v => owlApiService.mkEnvPair (key v) (value v)) (nonEmptyVars envVars) in
  match owlApiService.updateEnvVars answers updatedVars with
  | (JS.Return _, posts) =>
      let (envData, gets) :=
        owlApiService.getEnvironmentVariables OPENAI_API_KEY related check in
      mkSaved (completeVars PREDEFINED_ENV_VARS envData)
        "Environment variables saved successfully" (posts ++ gets)
  | (JS.Throw _, posts) =>
      mkSaved envVars "Failed to save environment variables" posts
  end.

(** [line.split('=')[0]]: what comes before the first equals sign. *)
Fixpoint before_equals (s : string) : string :=
  match s with
  | EmptyString => EmptyString
  | String c rest => if Ascii.eqb c "="%char then EmptyString else String c (before_equals rest)
  end.

Fixpoint has_equals (s : string) : bool :=
  match s with
  | EmptyString => false
  | String c rest => Ascii.eqb c "="%char || has_equals rest
  end.

(** [handleUpdateVariable(index, 'key', newValue)]: [None] when the index
    is out of range and the assignment throws. *)
Definition sanitized_key (newValue : string) : string :=
  if JS.includes newValue "=" then JS.trim (before_equals newValue) else newValue.

Fixpoint set_key (vars : list EnvVar) (index : nat) (k : string) : option (list EnvVar) :=
  match vars, index with
  | [], _ => None
  | v :: rest, O =>
      Some (mkEnvVar k (value v) (guide v) (defaultValue v) (description v) (group v)
              (isOptional v) :: rest)
  | v :: rest, S i =>
      match set_key rest i k with
      | Some rest' => Some (v :: rest')
      | None => None
      end
  end.

Definition handleUpdateKey (index : nat) (newValue : string) (envVars : list EnvVar)
    : option (list EnvVar) :=
  set_key envVars index (sanitized_key newValue).

(** The loop of [handleBulkImport] that merges the parsed variables into
    the list: a known key gets the new value in place, a new key is
    appended. *)
Fixpoint set_value (vars : list EnvVar) (k v : string) : option (list EnvVar) :=
  match vars with
  | [] => None
  | x :: rest =>
      if (key x =? k)%string
      then Some (mkEnvVar (key x) v (guide x) (defaultValue x) (description x) (group x)
                   (isOptional x) :: rest)
      else match set_value rest k v with
           | Some rest' => Some (x :: rest')
           | None => None
           end
  end.

Definition merge_one (updatedVars : list EnvVar) (newVar : EnvVar) : list EnvVar :=
  match set_value updatedVars (key newVar) (value newVar) with
  | Some vars => vars
  | None => updatedVars ++ [newVar]
  end.

Definition merge_imported (newVars envVars : list EnvVar) : list EnvVar :=
  fold_left merge_one newVars envVars.

(** The value shown for a key: that of the first variable with the key. *)
Fixpoint value_of (vars : list EnvVar) (k : string) : option string :=
  match vars with
  | [] => None
  | x :: rest => if (key x =? k)%string then Some (value x) else value_of rest k
  end.

End EnvironmentManager.

(** ** Invariants of the conversation panel *)

Module PanelInvariants.

(** The indicator says [Loading] exactly while [loading] is set. *)
Definition indicator_agrees (st : ConversationPanel.state) : Prop :=
  ConversationPanel.loading st = true <->
  ConversationPanel.status st = ConversationPanel.Loading.

(** What a handler may do to the pair [loading], [status]. *)
Definition settles (st st' : ConversationPanel.state) : Prop :=
  (ConversationPanel.loading st', ConversationPanel.status st')
    = (ConversationPanel.loading st, ConversationPanel.status st) \/
  (ConversationPanel.loading st' = true /\
   ConversationPanel.status st' = ConversationPanel.Loading) \/
  (ConversationPanel.loading st' = false /\
   (ConversationPanel.status st' = ConversationPanel.Success \/
    ConversationPanel.status st' = ConversationPanel.Failed)).

Definition loading_bubbles (l : list Message) : nat :=
  length (filter is_loading l).

(** At most one [Thinking...] bubble, and none when [loading] is not set. *)
Definition one_loading_bubble (st : ConversationPanel.state) : Prop :=
  loading_bubbles (ConversationPanel.messages st) <= 1 /\
  (ConversationPanel.loading st = false ->
   loading_bubbles (ConversationPanel.messages st) = 0).

(** A handler that ends the request leaves no loading bubble; one that
    does not end it leaves their number as it was or smaller. *)
Definition tidy (st st' : ConversationPanel.state) : Prop :=
  (ConversationPanel.loading st' = ConversationPanel.loading st /\
   loading_bubbles (ConversationPanel.messages st')
     <= loading_bubbles (ConversationPanel.messages st)) \/
  loading_bubbles (ConversationPanel.messages st') = 0.

(** A transcript sent by the server uses no bubble of role [loading]. *)
Definition clean_payload (p : option QueryPayload) : Prop :=
  match p with
  | Some payload =>
      match chat_history payload with
      | Some history => loading_bubbles history = 0
      | None => True
      end
  | None => True
  end.

Definition clean_action (a : ConversationPanel.action) : Prop :=
  match a with
  | ConversationPanel.Socket (owlApiService.Received (Some data)) _ =>
      clean_payload (Push.result data)
  | ConversationPanel.Answered _ _ (JS.Return res) =>
      match owlApiService.result_chat_history res with
      | Some history => loading_bubbles history = 0
      | None => True
      end
  | _ => True
  end.

(** The socket of the action opens. *)
Definition opens (a : ConversationPanel.action) : bool :=
  match a with
  | ConversationPanel.Socket ev _ => owlApiService.is_opened ev
  | _ => false
  end.

End PanelInvariants.

(** ** Scenarios used in the statements below *)

Definition transcript : list Message :=
  [mkMessage "user" "hi" None None; mkMessage "assistant" "Hello!" None None].

(** The panel after the user sent [hi] over the open socket. *)
Definition live_panel : ConversationPanel.state :=
  ConversationPanel.mkState
    [mkMessage "assistant" "How can I help you today?" None (Some "10:00");
     mkMessage "user" "hi" None (Some "10:01");
     mkMessage "loading" "Thinking..." None (Some "10:01")]
    "" true ConversationPanel.Loading "".

(** The status frame of the completed task, carrying the transcript. *)
Definition completed_frame : Push.response :=
  Push.mkResponse (Some "status") (Some "completed") None None
    (Some (mkPayload (Some "Hello!") None (Some transcript))) None None.



(** A server on which the task completes at the third poll, each request
    taking twenty milliseconds. *)
Definition snapshot (taskId : string) (s : TaskStatus) : taskService.Task :=
  taskService.mkTask taskId s (Some "query") None None None None None None None.

Definition finishing_env : taskService.PollEnv :=
  taskService.mkPollEnv
    (fun k => JS.Resolved (snapshot "t1" (if Nat.ltb k 2 then RUNNING else COMPLETED)))
    (fun _ => 20%Z) (fun _ => 0%Z).

(** A server that does not know the task and answers at once. *)
Definition unknown_env : taskService.PollEnv :=
  taskService.mkPollEnv (fun _ => JS.Resolved (snapshot "nope" NOT_FOUND))
    (fun _ => 0%Z) (fun _ => 0%Z).

(** The panel once the socket has opened and the user has typed a query,
    and a polling server on which the task completes at the second poll. *)
Definition ready_panel : ConversationPanel.panel :=
  ConversationPanel.steps
    [ConversationPanel.Socket (owlApiService.Opened 0 false) "10:00";
     ConversationPanel.Typed "2+2"]
    (ConversationPanel.mount "10:00" false).

Definition offline_panel : ConversationPanel.panel :=
  ConversationPanel.steps [ConversationPanel.Typed "2+2"]
    (ConversationPanel.mount "10:00" true).

(** A panel whose query went over HTTP because the socket was still
    connecting, and on which the time-out notice of the socket landed while
    the answer was awaited. *)
Definition waiting_panel : ConversationPanel.panel :=
  ConversationPanel.steps
    [ConversationPanel.Typed "2+2";
     ConversationPanel.Submit "10:01" "run_mini" false;
     ConversationPanel.Socket owlApiService.TimeoutElapsed "10:01"]
    (ConversationPanel.mount "10:00" false).

(** An input of white space only: a space, a no-break space (U+00A0) and
    an ideographic space (U+3000). *)
Definition wide_blank : string :=
  String (ascii_of_nat 32)
    (String (ascii_of_nat 194) (String (ascii_of_nat 160)
       (String (ascii_of_nat 227) (String (ascii_of_nat 128) (String (ascii_of_nat 128)
          EmptyString))))).

Definition answering_server : owlApiService.RestEnv :=
  owlApiService.mkRestEnv
    (JS.Resolved (owlApiService.mkStarted (Some "t7")))
    (fun attempt =>
       JS.Resolved
         (if Nat.ltb attempt 2
          then owlApiService.mkTaskInfo (Some "running") None None
          else owlApiService.mkTaskInfo (Some "completed")
                 (Some (mkPayload (Some "4") None None)) None)).

(** The same server, reporting the tokens used. *)
Definition counting_server : owlApiService.RestEnv :=
  owlApiService.mkRestEnv
    (JS.Resolved (owlApiService.mkStarted (Some "t7")))
    (fun attempt =>
       JS.Resolved
         (if Nat.ltb attempt 2
          then owlApiService.mkTaskInfo (Some "running") None None
          else owlApiService.mkTaskInfo (Some "completed")
                 (Some (mkPayload (Some "4")
                          (Some (mkTokenInfo (Some 3%Z) (Some 12%Z) None)) None)) None)).

(** A polling server on which the task ends in error at the third attempt,
    and one on which it is reported [failed] for ever. *)
Definition failing_server : owlApiService.RestEnv :=
  owlApiService.mkRestEnv
    (JS.Resolved (owlApiService.mkStarted (Some "t8")))
    (fun attempt =>
       JS.Resolved
         (if Nat.ltb attempt 3
          then owlApiService.mkTaskInfo (Some "running") None None
          else owlApiService.mkTaskInfo (Some "error") None (Some "boom"))).

Definition stalled_server : owlApiService.RestEnv :=
  owlApiService.mkRestEnv
    (JS.Resolved (owlApiService.mkStarted (Some "t9")))
    (fun _ => JS.Resolved (owlApiService.mkTaskInfo (Some "failed") None None)).

(** The answer [runQuery] makes of the task completed on
    [answering_server], and a server that cannot be reached. *)
Definition four_result : owlApiService.QueryResult :=
  owlApiService.mkQueryResult (Some "4") "Completion: 0 | Prompt: 0 | Total: 0"
    "✅ Successfully completed" None.

Definition unreachable_server : owlApiService.RestEnv :=
  owlApiService.mkRestEnv
    (JS.Rejected (owlApiService.intercept (owlApiService.NoResponse "Network Error")))
    (fun _ => JS.Rejected (owlApiService.intercept (owlApiService.NoResponse "Network Error"))).

(** A server whose first status answer is lost, and on which the task then
    runs and completes. *)
Definition flaky_env : taskService.PollEnv :=
  taskService.mkPollEnv
    (fun k =>
       match k with
       | 0 => JS.Rejected (JS.new_Error "Network Error")
       | 1 => JS.Resolved (snapshot "t1" RUNNING)
       | _ => JS.Resolved (snapshot "t1" COMPLETED)
       end)
    (fun _ => 20%Z) (fun _ => 0%Z).

(** * Properties *)

(** ** Helper facts on lists and strings *)

Ltac split_ifs :=
  repeat (match goal with
          | |- context [if ?b then _ else _] => destruct b eqn:?; simpl
          end).

Lemma filter_absorb {A} (p q : A -> bool) (l : list A) :
  (forall a, p a = true -> q a = true) ->
  filter p (filter q l) = filter p l.
Proof.
  intros Himp. induction l as [|a l IH]; simpl; [reflexivity|].
  destruct (q a) eqn:Hq; simpl.
  - destruct (p a); rewrite IH; reflexivity.
  - destruct (p a) eqn:Hp; [|exact IH].
    apply Himp in Hp. congruence.
Qed.

(** ** The connected notice clears the transport errors *)

Section Connected.

Import ConversationPanel.

Lemma transport_bubble_is_connection_error (ts : string) (n : TransportNotice) :
  is_connection_error (error_bubble ts n) = true.
Proof.
  unfold is_connection_error, error_bubble, is_error. simpl role. simpl content.
  replace ("error" =? "error")%string with true by reflexivity. simpl andb.
  apply orb_true_iff. left.
  destruct n; vm_compute; reflexivity.
Qed.

Lemma connection_error_is_error (m : Message) :
  is_connection_error m = true -> is_error m = true.
Proof.
  unfold is_connection_error. intros H. apply andb_true_iff in H. tauto.
Qed.

Lemma handle_connected (closure_loading : bool) (ts : string) (st : state) :
  handleWebSocketMessage closure_loading ts connected_notice st
  = setMessages clear_connection_errors st.
Proof. reflexivity. Qed.

(** What the panel shows for a notice of the connection layer: the loading
    bubble goes and the error bubble is appended. *)
Lemma handle_transport_notice (closure_loading : bool) (ts : string)
    (n : TransportNotice) (st : state) :
  messages (handleWebSocketMessage closure_loading ts (error_notice n) st)
  = drop_loading (messages st) ++ [error_bubble ts n].
Proof.
  unfold handleWebSocketMessage, error_notice, Push.notice, Push.type_is, Push.status_is.
  simpl. unfold replace_loading, error_bubble.
  destruct n; reflexivity.
Qed.

(** C3: when the notice that the push connection is established arrives,
    every bubble that was displayed for a transport error (connection
    time-out, socket error, abnormal close, failed construction) is gone
    from the list, while the bubbles whose role is not [error] -- user,
    assistant and loading ones -- are exactly the ones there were, in the
    same order; nothing else in the panel changes. *)
Theorem connected_retracts_transport_errors
    (closure_loading : bool) (ts : string) (st : state) :
  let st' := handleWebSocketMessage closure_loading ts connected_notice st in
  (forall ts0 n, ~ In (error_bubble ts0 n) (messages st')) /\
  filter (fun m => negb (is_error m)) (messages st')
    = filter (fun m => negb (is_error m)) (messages st) /\
  (forall m, In m (messages st) -> is_error m = false -> In m (messages st')) /\
  (forall m, In m (messages st') -> In m (messages st)) /\
  (input st', loading st', status st', tokenCount st')
    = (input st, loading st, status st, tokenCount st).
Proof.
  cbv zeta. rewrite handle_connected. unfold setMessages. simpl.
  unfold clear_connection_errors. repeat split.
  - intros ts0 n Hin. apply filter_In in Hin as [_ Hkeep].
    rewrite transport_bubble_is_connection_error in Hkeep. discriminate.
  - apply filter_absorb. intros m Hm.
    destruct (is_connection_error m) eqn:Hc; [|reflexivity].
    apply connection_error_is_error in Hc. rewrite Hc in Hm. discriminate.
  - intros m Hin Hne. apply filter_In. split; [assumption|].
    destruct (is_connection_error m) eqn:Hc; [|reflexivity].
    apply connection_error_is_error in Hc. congruence.
  - intros m Hin. apply filter_In in Hin. tauto.
Qed.

End Connected.

(** ** Merging a transcript into the live list *)

Section Merge.

Lemma duplicate_key_not_NoDup {A} (l1 l2 l3 : list A) (a : A) :
  ~ NoDup (l1 ++ a :: l2 ++ a :: l3).
Proof.
  intros H. apply NoDup_remove_2 in H. apply H.
  apply in_or_app. right. apply in_or_app. right. left. reflexivity.
Qed.

(** C1: merging the transcript of a completed query into the live list does
    append a bubble that is already there.  With the greeting, the user's
    [hi] and the loading bubble on screen, the push handler of the panel,
    given the transcript [user hi; assistant Hello!], leaves the user's
    bubble twice in the list, although neither the live list nor the
    transcript had a duplicate.  The polling path of the same panel, given
    the same transcript on the same list, shows each bubble once. *)
Theorem merge_history_duplicates_bubble :
  no_duplicate_bubbles (ConversationPanel.messages live_panel) /\
  no_duplicate_bubbles transcript /\
  map msg_key
    (ConversationPanel.messages
       (ConversationPanel.handleWebSocketMessage false "10:02" completed_frame live_panel))
    = [("assistant", "How can I help you today?"); ("user", "hi"); ("user", "hi");
       ("assistant", "Hello!")] /\
  ~ no_duplicate_bubbles
      (ConversationPanel.messages
         (ConversationPanel.handleWebSocketMessage false "10:02" completed_frame live_panel)) /\
  no_duplicate_bubbles
    (ConversationPanel.messages
       (ConversationPanel.handleSubmit_resumed "10:02"
          (JS.Return (owlApiService.mkQueryResult (Some "Hello!")
                        "Completion: 0 | Prompt: 0 | Total: 0" "✅ Successfully completed"
                        (Some transcript)))
          live_panel)).
Proof.
  unfold no_duplicate_bubbles. repeat split.
  - vm_compute. repeat constructor; simpl; intuition discriminate.
  - vm_compute. repeat constructor; simpl; intuition discriminate.
  - vm_compute.
    apply (duplicate_key_not_NoDup [("assistant", "How can I help you today?")]
             [] [("assistant", "Hello!")] ("user", "hi")).
  - vm_compute. repeat constructor; simpl; intuition discriminate.
Qed.

End Merge.

(** ** Which transport events reach the user *)

Section Surfaced.

Import owlApiService.

Lemma run_cons (ev : event) (evs : list event) (c : connection) :
  run (ev :: evs) c
  = (fst (run evs (fst (handle ev c))), snd (handle ev c) ++ snd (run evs (fst (handle ev c)))).
Proof.
  simpl. destruct (handle ev c) as [c1 out1]. simpl.
  destruct (run evs c1) as [c2 out2]. reflexivity.
Qed.

Lemma hasConnected_handle (ev : event) (c : connection) :
  hasConnected (fst (handle ev c)) = hasConnected c || is_opened ev.
Proof.
  destruct c as [ws connected armed].
  destruct ev as [now throws | [data|] | | code | ]; simpl;
    rewrite ?orb_false_r, ?orb_true_r; split_ifs; try reflexivity.
  all: destruct connected; simpl in *; congruence.
Qed.

(** [hasConnected] is set by the first open event and never reset. *)
Lemma hasConnected_after (evs : list event) (c : connection) :
  hasConnected (after evs c) = hasConnected c || existsb is_opened evs.
Proof.
  unfold after. revert c. induction evs as [|ev evs IH]; intros c.
  - simpl. rewrite orb_false_r. reflexivity.
  - rewrite run_cons. cbn [fst]. rewrite IH, hasConnected_handle.
    simpl. rewrite orb_assoc. reflexivity.
Qed.

Lemma timer_stays_off (ev : event) (c : connection) :
  timeoutArmed c = false -> timeoutArmed (fst (handle ev c)) = false.
Proof.
  destruct c as [ws connected armed]. simpl. intros ->.
  destruct ev as [now throws | [data|] | | code | ]; simpl; split_ifs; reflexivity.
Qed.

(** Before the first open and with the timer off, only frames of the server
    reach the callback. *)
Lemma quiet_without_timer (evs : list event) (c : connection) :
  hasConnected c = false -> timeoutArmed c = false ->
  existsb is_opened evs = false ->
  delivered evs c = forwarded evs.
Proof.
  unfold delivered. revert c.
  induction evs as [|ev evs IH]; intros c Hnever Hoff Hno; [reflexivity|].
  simpl in Hno. apply orb_false_iff in Hno as [Hev Hrest].
  rewrite run_cons. cbn [snd].
  rewrite IH; try assumption.
  - destruct ev as [now throws | [data|] | | code | ]; simpl in *;
      try discriminate; rewrite ?Hnever, ?Hoff, ?andb_false_r; reflexivity.
  - rewrite hasConnected_handle, Hnever, Hev. reflexivity.
  - apply timer_stays_off. assumption.
Qed.

(** Before the first open the callback sees the frames of the server and at
    most one notice, the one of the connection time-out. *)
Lemma quiet_before_open (evs : list event) (c : connection) :
  hasConnected c = false ->
  existsb is_opened evs = false ->
  exists before later,
    forwarded evs = before ++ later /\
    (delivered evs c = before ++ later \/
     delivered evs c = before ++ error_notice ConnectTimeout :: later).
Proof.
  unfold delivered. revert c.
  induction evs as [|ev evs IH]; intros c Hnever Hno.
  - exists [], []. simpl. auto.
  - simpl in Hno. apply orb_false_iff in Hno as [Hev Hrest].
    rewrite run_cons. cbn [snd].
    destruct ev as [now throws | [data|] | | code | ]; try discriminate.
    + destruct (IH c Hnever Hrest) as (before & later & Hf & Hd).
      exists (data :: before), later. simpl. rewrite Hf. split; [reflexivity|].
      destruct Hd as [Hd|Hd]; rewrite Hd; auto.
    + destruct (IH c Hnever Hrest) as (before & later & Hf & Hd).
      exists before, later. simpl. auto.
    + exists [], (forwarded evs). split; [reflexivity|]. left. simpl.
      rewrite Hnever. simpl.
      apply (quiet_without_timer evs (clearTimeout c)); auto.
    + exists [], (forwarded evs). split; [reflexivity|]. left. simpl.
      rewrite Hnever, andb_false_r. simpl.
      apply (quiet_without_timer evs); auto.
    + simpl. destruct (timeoutArmed c) eqn:Harmed.
      * exists [], (forwarded evs). split; [reflexivity|].
        match goal with
        | |- context [if ?b then _ else _] => destruct b
        end; simpl; [right; f_equal | left];
          apply (quiet_without_timer evs); auto.
      * exists [], (forwarded evs). split; [reflexivity|]. left. simpl.
        apply (quiet_without_timer evs); auto.
Qed.

End Surfaced.

Section SurfacedClaims.

Import owlApiService.

Lemma delivered_single (ev : event) (c : connection) :
  delivered [ev] c = snd (handle ev c).
Proof.
  unfold delivered. rewrite run_cons. simpl. apply app_nil_r.
Qed.

(** C2, as the code has it: [connectWebSocket] returns a connecting socket,
    or no socket and the construction-failure notice when the constructor
    throws.  On the connection it returns, an error event is surfaced
    exactly when an open event came before it, and a close event exactly
    when an open event came before it and its code is not 1000.  When no
    open event has come, the callback has seen the frames of the server and
    at most one notice of the connection layer, the one of the five-second
    connection time-out. *)
Theorem surfaced_only_after_first_open (pre : list event) :
  let c := after pre connecting in
  let opened := existsb is_opened pre in
  connectWebSocket false = (Some connecting, []) /\
  connectWebSocket true = (None, [error_notice ConnectFailed]) /\
  delivered [Errored] c = (if opened then [error_notice SocketError] else []) /\
  (forall code,
     delivered [Closed code] c =
     if opened && negb (code =? 1000)%Z then [error_notice (SocketClosed code)] else []) /\
  (if opened then True
   else exists before later,
       forwarded pre = before ++ later /\
       (delivered pre connecting = before ++ later \/
        delivered pre connecting = before ++ error_notice ConnectTimeout :: later)).
Proof.
  cbv zeta.
  assert (hasConnected (after pre connecting) = existsb is_opened pre) as Hc
    by (rewrite hasConnected_after; reflexivity).
  split; [reflexivity|]. split; [reflexivity|]. split; [|split].
  - rewrite delivered_single. simpl. rewrite Hc.
    destruct (existsb is_opened pre); reflexivity.
  - intros code. rewrite delivered_single. simpl. rewrite Hc.
    rewrite andb_comm.
    destruct (existsb is_opened pre && negb (code =? 1000)%Z); reflexivity.
  - destruct (existsb is_opened pre) eqn:Hopened; [exact I|].
    apply quiet_before_open; [reflexivity | assumption].
Qed.

(** C2, as stated, fails: a connection that never opens still delivers an
    error notice when the five-second timer comes due. *)
Lemma timeout_notice_without_open :
  existsb is_opened [TimeoutElapsed] = false /\
  delivered [TimeoutElapsed] connecting = [error_notice ConnectTimeout].
Proof. split; reflexivity. Qed.

End SurfacedClaims.

(** ** Frames written to the socket *)

Section Wire.

Import owlApiService.

(** A write through the guard appends the frame or leaves the socket as it
    was; it appends only to an open socket. *)
Lemma guarded_send_sent (throws : bool) (frame : JS.jobject) (ws : WebSocket.t) :
  let (ok, ws') := guarded_send throws frame ws in
  WebSocket.readyState ws' = WebSocket.readyState ws /\
  (if ok then WebSocket.sent ws' = WebSocket.sent ws ++ [frame] /\
              WebSocket.readyState ws = WebSocket.OPEN /\ throws = false
   else ws' = ws /\ (WebSocket.readyState ws <> WebSocket.OPEN \/ throws = true)).
Proof.
  unfold guarded_send, WebSocket.send.
  destruct ws as [state sent]. simpl.
  destruct state, throws; simpl; repeat split; auto; left; discriminate.
Qed.

Lemma guarded_send_shape (throws : bool) (frame : JS.jobject) (ws : WebSocket.t) :
  wire_shape frame ->
  Forall wire_shape (WebSocket.sent ws) ->
  Forall wire_shape (WebSocket.sent (snd (guarded_send throws frame ws))).
Proof.
  intros Hframe Hsent.
  pose proof (guarded_send_sent throws frame ws) as H.
  destruct (guarded_send throws frame ws) as [[|] ws']; simpl.
  - destruct H as (_ & -> & _). apply Forall_app. auto.
  - destruct H as (_ & -> & _). assumption.
Qed.

Lemma handle_shape (ev : event) (c : connection) :
  Forall wire_shape (WebSocket.sent (socket c)) ->
  Forall wire_shape (WebSocket.sent (socket (fst (handle ev c)))).
Proof.
  destruct c as [[state sent] connected armed]. simpl. intros Hsent.
  destruct ev as [now throws | [data|] | | code | ]; simpl; split_ifs;
    try assumption.
  - destruct throws; simpl; [assumption|].
    apply Forall_app. split; [assumption|]. repeat constructor.
  - destruct state; assumption.
Qed.

Lemma perform_shape (k : call) (c : connection) :
  Forall wire_shape (WebSocket.sent (socket c)) ->
  Forall wire_shape (WebSocket.sent (socket (perform k c))).
Proof.
  intros Hsent. destruct k as [throws q m | throws now | throws taskId | ev]; simpl.
  - apply guarded_send_shape; [constructor | assumption].
  - apply guarded_send_shape; [constructor | assumption].
  - apply guarded_send_shape; [constructor | assumption].
  - apply handle_shape. assumption.
Qed.

(** C7: whatever the client does with a connection -- sending queries,
    pings and cancellations, with the socket going through any events --
    every frame it has written to the socket is [{type: query, query,
    module}], [{type: cancel, task_id}] or [{type: ping, time}], with these
    fields and no other. *)
Theorem frames_have_wire_shape (ks : list call) :
  Forall wire_shape (WebSocket.sent (socket (perform_all ks connecting))).
Proof.
  unfold perform_all.
  assert (Forall wire_shape (WebSocket.sent (socket connecting))) as Hinit
    by constructor.
  revert Hinit. generalize connecting as c.
  induction ks as [|k ks IH]; intros c Hc; simpl; [assumption|].
  apply IH. apply perform_shape. assumption.
Qed.

End Wire.

(** ** Cancelling over HTTP *)

Section Cancel.

Import taskService.

(** The claim as first stated fails on a call that completes with the body
    [null]: no error status anywhere, and still [{success: false}], because
    reading [status] of the body throws inside the [try]. *)
Lemma null_body_cancel_reports_failure :
  completed_without_error_status (JS.Resolved None) /\
  cancelTask "Cannot read properties of null (reading 'status')" (fun r => Some r)
    "t1" None (JS.Resolved None)
  = (JS.Return (mkSuccess false), [JS.POST "/tasks/t1/cancel" []]).
Proof. split; [exact I | reflexivity]. Qed.

(** C8: for every task id and optional reason, [cancelTask] returns an
    object [{success}] and never throws.  [success] is true exactly when the
    URL could be built, the call resolved and its body is a value other
    than [null] that does not carry the status [error]; a rejected call
    (transport failure or error status code), an [error] body, a [null]
    body and a reason that cannot be encoded all give [{success: false}].
    It makes one POST to the cancel endpoint of the task, with the encoded
    reason when one is given, and none when the reason cannot be encoded. *)
Theorem cancelTask_never_throws (type_error : string)
    (encodeURIComponent : string -> option string)
    (taskId : string) (reason : option string) (answer : JS.Axios (option Verdict)) :
  exists b : bool,
    fst (cancelTask type_error encodeURIComponent taskId reason answer)
      = JS.Return (mkSuccess b) /\
    (b = true <->
     (forall r, reason = Some r -> JS.truthy r = true -> encodeURIComponent r <> None) /\
     exists data, answer = JS.Resolved (Some data) /\ verdict_status data <> Some "error") /\
    snd (cancelTask type_error encodeURIComponent taskId reason answer)
      = match reason with
        | Some r =>
            if JS.truthy r
            then match encodeURIComponent r with
                 | Some encoded =>
                     [JS.POST ("/tasks/" ++ taskId ++ "/cancel?reason=" ++ encoded) []]
                 | None => []
                 end
            else [JS.POST ("/tasks/" ++ taskId ++ "/cancel") []]
        | None => [JS.POST ("/tasks/" ++ taskId ++ "/cancel") []]
        end.
Proof.
  assert (exists b : bool,
              JS.try_catch
                (match answer with
                 | JS.Resolved body =>
                     data <- JS.read type_error body ;;
                     if verdict_is_error data
                     then JS.Throw (JS.new_Error
                            (match verdict_error data with Some m => m | None => "" end))
                     else JS.Return (mkSuccess true)
                 | JS.Rejected e => JS.Throw e
                 end)
                (fun _ => JS.Return (mkSuccess false)) = JS.Return (mkSuccess b) /\
              (b = true <->
               exists data, answer = JS.Resolved (Some data) /\
                            verdict_status data <> Some "error")) as Hbody.
  { destruct answer as [[data|]|e]; simpl.
    - unfold verdict_is_error. destruct (verdict_status data) as [st|] eqn:Hst.
      + destruct (st =? "error")%string eqn:Heq; simpl.
        * exists false. split; [reflexivity|].
          split; [discriminate|]. intros (d & Hd & Hne). injection Hd as <-.
          apply String.eqb_eq in Heq. subst st. congruence.
        * exists true. split; [reflexivity|].
          split; [|reflexivity]. intros _. exists data. split; [reflexivity|].
          rewrite Hst. intros Hc. injection Hc as ->. discriminate.
      + exists true. split; [reflexivity|].
        split; [|reflexivity]. intros _. exists data. split; [reflexivity|].
        rewrite Hst. discriminate.
    - exists false. split; [reflexivity|].
      split; [discriminate|]. intros (d & Hd & _). discriminate.
    - exists false. split; [reflexivity|].
      split; [discriminate|]. intros (d & Hd & _). discriminate. }
  unfold cancelTask, cancel_url.
  destruct reason as [r|]; simpl.
  - destruct (JS.truthy r) eqn:Hr.
    + destruct (encodeURIComponent r) as [encoded|] eqn:Henc; cbn [fst snd].
      * destruct Hbody as (b & Hrun & Hiff). exists b.
        split; [exact Hrun|]. split; [|reflexivity].
        rewrite Hiff. split; [|tauto]. intros H. split; [|assumption].
        intros r' Hr' _. injection Hr' as <-. rewrite Henc. discriminate.
      * exists false. split; [reflexivity|]. split; [|reflexivity].
        split; [discriminate|]. intros [Hcan _]. exfalso.
        apply (Hcan r); auto.
    + cbn [fst snd]. destruct Hbody as (b & Hrun & Hiff). exists b.
      split; [exact Hrun|]. split; [|reflexivity].
      rewrite Hiff. split; [|tauto]. intros H. split; [|assumption].
      intros r' Hr' Ht. injection Hr' as <-. congruence.
  - cbn [fst snd]. destruct Hbody as (b & Hrun & Hiff). exists b.
    split; [exact Hrun|]. split; [|reflexivity].
    rewrite Hiff. split; [|tauto]. intros H. split; [|assumption]. discriminate.
Qed.

End Cancel.

(** ** The sticky browser session *)

Section Session.

Import browserService.

Lemma getSessionId_default (st : state) : _getSessionId None st = st.
Proof. reflexivity. Qed.

Lemma settle_state (fallback : string) (answer : JS.Axios BrowserResponse) (st : state) :
  fst (settle fallback answer st) =
  match answer with
  | JS.Resolved data =>
      match session_id data with
      | Some s => if JS.truthy s then Some s else st
      | None => st
      end
  | JS.Rejected _ => st
  end.
Proof.
  destruct answer as [data|e]; simpl; [|reflexivity].
  destruct (session_id data) as [s|]; [|reflexivity].
  destruct (JS.truthy s); reflexivity.
Qed.

(** C10, as the code has it: [navigate], [extract] and [performAction]
    called without a session id send the stored one, while [amazonSearch]
    sends its keyword and no session id; after any of the four, the stored
    id is the non-empty session id of the response when there is one, and
    is unchanged otherwise (also when the call was rejected).
    [closeSession] leaves the stored id unchanged unless the call resolved
    with [success] and the id it closed is the stored one, in which case the
    stored id becomes null. *)
Theorem sticky_session (st : state) (answer : JS.Axios BrowserResponse) :
  (forall url,
     carried_session (navigate_request (mkNavigate url None) st) = Some (JS.jstr_opt st)) /\
  (forall url sel,
     carried_session (extract_request (mkExtract url sel None) st) = Some (JS.jstr_opt st)) /\
  (forall url task,
     carried_session (action_request (mkAction url task None) st) = Some (JS.jstr_opt st)) /\
  (forall keyword, carried_session (amazon_request keyword) = None) /\
  (let stored' :=
     match answer with
     | JS.Resolved data =>
         match session_id data with
         | Some s => if JS.truthy s then Some s else st
         | None => st
         end
     | JS.Rejected _ => st
     end in
   (forall p, fst (fst (navigate p answer st)) = stored') /\
   (forall p, fst (fst (extract p answer st)) = stored') /\
   (forall p, fst (fst (performAction p answer st)) = stored') /\
   (forall k, fst (fst (amazonSearch k answer st)) = stored')) /\
  (forall provided,
     let st' := fst (fst (closeSession provided answer st)) in
     st' = st \/
     (st' = None /\
      exists data closed,
        answer = JS.Resolved data /\ success data = true /\
        _getSessionId provided st = Some closed /\ st = Some closed)).
Proof.
  repeat split.
  - intros url sel. unfold extract_request, carried_session. simpl.
    destruct sel; reflexivity.
  - intros p. unfold navigate. cbn [fst]. apply settle_state.
  - intros p. unfold extract. cbn [fst]. apply settle_state.
  - intros p. unfold performAction. cbn [fst]. apply settle_state.
  - intros k. unfold amazonSearch. cbn [fst]. apply settle_state.
  - intros provided. cbv zeta. unfold closeSession.
    destruct (_getSessionId provided st) as [sessionId|] eqn:Hid; [|left; reflexivity].
    destruct (JS.truthy sessionId); [|left; reflexivity].
    cbn [fst]. unfold close_settle.
    destruct answer as [data|e]; [|left; reflexivity]. cbn [fst].
    destruct (success data) eqn:Hok; [|left; reflexivity]. simpl.
    destruct st as [current|]; [|left; reflexivity].
    destruct (sessionId =? current)%string eqn:Heq; [|left; reflexivity].
    right. split; [reflexivity|]. apply String.eqb_eq in Heq. subst.
    exists data, current. auto.
Qed.

(** C10, as stated, fails for [amazonSearch]: with the session [s1] stored,
    the request carries no session id at all; and an empty session id in a
    response is not stored. *)
Lemma amazonSearch_ignores_session :
  carried_session (amazon_request "laptop") = None /\
  snd (amazonSearch "laptop" (JS.Resolved (mkBrowserResponse true (Some "s2") None))
         (Some "s1"))
    = [JS.GET "/browser/amazon-search" [("keyword", JS.JStr "laptop")]] /\
  fst (fst (navigate (mkNavigate "https://example.org" None)
              (JS.Resolved (mkBrowserResponse true (Some "") None)) (Some "s1")))
    = Some "s1".
Proof. repeat split. Qed.

End Session.

(** ** Choice of transport on submission *)

Section Submission.

Import ConversationPanel.

(** C5: a submission the panel accepts (input that [trim] does not empty,
    [loading] not set) goes over the push channel when [wsRef] points to an
    open socket and the write does not throw: the frame [{type: 'query',
    query, module}] with the typed query is the one frame written and
    [runQuery] is not called.  When the socket is not open, or the write
    reports failure, no frame is written and [runQuery] is called once,
    with the same query and module; whatever the server answers, that call
    submits the query by exactly one POST to [/run/async], followed by
    status polls only. *)
Theorem submission_takes_one_transport (ts module : string) (send_throws : bool)
    (p : panel) :
  JS.truthy (JS.trim (input (view p))) = true ->
  loading (view p) = false ->
  let query := input (view p) in
  let p' := fst (handleSubmit ts module send_throws p) in
  let started := snd (handleSubmit ts module send_throws p) in
  let over_http :=
    frames p' = frames p /\
    started = Some (owlApiService.mkQueryParams query (Some module)) /\
    awaited p' = awaited p ++ [owlApiService.mkQueryParams query (Some module)] /\
    forall type_error env,
      exists polls,
        snd (owlApiService.runQuery type_error env
               (owlApiService.mkQueryParams query (Some module)))
          = JS.POST "/run/async" [("query", JS.JStr query); ("module", JS.JStr module)]
            :: polls /\
        Forall (fun r => exists taskId, r = JS.GET ("/run/task/" ++ taskId) []) polls in
  match conn p with
  | Some c =>
      if wsRef p && WebSocket.is_open (WebSocket.readyState (owlApiService.socket c))
      then
        if send_throws then over_http
        else
          frames p' =
            frames p ++
            [[("type", JS.JStr "query"); ("query", JS.JStr query);
              ("module", JS.JStr module)]] /\
          started = None /\ awaited p' = awaited p
      else over_http
  | None => over_http
  end.
Proof.
  intros Hinput Hidle. cbv zeta.
  assert (forall type_error env,
            exists polls,
              snd (owlApiService.runQuery type_error env
                     (owlApiService.mkQueryParams (input (view p)) (Some module)))
                = JS.POST "/run/async"
                    [("query", JS.JStr (input (view p))); ("module", JS.JStr module)]
                  :: polls /\
              Forall (fun r => exists taskId, r = JS.GET ("/run/task/" ++ taskId) []) polls)
    as Hhttp.
  { intros type_error env. unfold owlApiService.runQuery.
    destruct (owlApiService.start_answer env) as [data|e];
      [|exists []; split; [reflexivity | constructor]].
    destruct (owlApiService.started_task_id data) as [taskId|];
      [|exists []; split; [reflexivity | constructor]].
    destruct (JS.truthy taskId); [|exists []; split; [reflexivity | constructor]].
    assert (forall remaining retries,
              Forall (fun r => exists t, r = JS.GET ("/run/task/" ++ t) [])
                (snd (owlApiService.poll_result env taskId remaining retries))) as Hpolls.
    { induction remaining as [|n IH]; intros retries; simpl; [constructor|].
      specialize (IH (S retries)).
      destruct (owlApiService.status_answer env (S retries)) as [d|e];
        [destruct (owlApiService.info_status_is d "completed");
         [|destruct (owlApiService.info_status_is d "error");
           [|destruct (owlApiService.poll_result env taskId n (S retries)) as [r reqs]]]|];
        simpl in *;
        repeat (apply Forall_cons; [exists taskId; reflexivity|]);
        try apply Forall_nil; assumption. }
    specialize (Hpolls owlApiService.maxRetries 0).
    destruct (owlApiService.poll_result env taskId owlApiService.maxRetries 0) as [r reqs].
    exists reqs. split; [reflexivity | assumption]. }
  unfold handleSubmit, open_socket. rewrite Hinput, Hidle. simpl negb. simpl orb. cbv iota.
  destruct (conn p) as [c|] eqn:Hconn.
  - destruct (wsRef p && WebSocket.is_open (WebSocket.readyState (owlApiService.socket c)))
      eqn:Hopen.
    + apply andb_true_iff in Hopen as [_ Hopen].
      unfold owlApiService.sendWebSocketQuery, owlApiService.guarded_send, WebSocket.send.
      rewrite Hopen. simpl negb. cbv iota.
      destruct send_throws; cbn [fst snd];
        unfold frames; cbn [conn awaited]; rewrite Hconn;
        (split; [reflexivity|]); (split; [reflexivity|]); try (split; [reflexivity|]);
        try reflexivity; exact Hhttp.
    + cbn [fst snd]. unfold frames. cbn [conn awaited]. rewrite Hconn.
      split; [reflexivity|]. split; [reflexivity|]. split; [reflexivity|]. exact Hhttp.
  - cbn [fst snd]. unfold frames. cbn [conn awaited]. rewrite Hconn.
    split; [reflexivity|]. split; [reflexivity|]. split; [reflexivity|]. exact Hhttp.
Qed.

(** The theorem on a panel whose socket is open and on one whose socket
    could not be constructed. *)
Lemma submission_takes_one_transport_witness :
  (let p' := fst (handleSubmit "10:01" "run_mini" false ready_panel) in
   frames p' =
     frames ready_panel ++
     [[("type", JS.JStr "query"); ("query", JS.JStr "2+2");
       ("module", JS.JStr "run_mini")]] /\
   snd (handleSubmit "10:01" "run_mini" false ready_panel) = None /\
   awaited p' = awaited ready_panel) /\
  (let p' := fst (handleSubmit "10:01" "run_mini" false offline_panel) in
   frames p' = frames offline_panel /\
   snd (handleSubmit "10:01" "run_mini" false offline_panel)
     = Some (owlApiService.mkQueryParams "2+2" (Some "run_mini")) /\
   awaited p' = awaited offline_panel ++
                [owlApiService.mkQueryParams "2+2" (Some "run_mini")] /\
   forall type_error env,
     exists polls,
       snd (owlApiService.runQuery type_error env
              (owlApiService.mkQueryParams "2+2" (Some "run_mini")))
         = JS.POST "/run/async" [("query", JS.JStr "2+2"); ("module", JS.JStr "run_mini")]
           :: polls /\
       Forall (fun r => exists taskId, r = JS.GET ("/run/task/" ++ taskId) []) polls).
Proof.
  split.
  - apply (submission_takes_one_transport "10:01" "run_mini" false ready_panel);
      reflexivity.
  - apply (submission_takes_one_transport "10:01" "run_mini" false offline_panel);
      reflexivity.
Defined.

(** The two transports at work: over the open socket the query frame is
    written and no request is made; without a socket the query is posted
    once and polled twice. *)
Example submit_over_push :
  frames (fst (handleSubmit "10:01" "run_mini" false ready_panel))
    = [owlApiService.ping_frame 0; owlApiService.query_frame "2+2" "run_mini"] /\
  snd (handleSubmit "10:01" "run_mini" false ready_panel) = None.
Proof. split; reflexivity. Qed.

Example submit_over_polling :
  snd (handleSubmit "10:01" "run_mini" false offline_panel)
    = Some (owlApiService.mkQueryParams "2+2" (Some "run_mini")) /\
  snd (owlApiService.runQuery "" answering_server
         (owlApiService.mkQueryParams "2+2" (Some "run_mini")))
    = [JS.POST "/run/async" [("query", JS.JStr "2+2"); ("module", JS.JStr "run_mini")];
       JS.GET "/run/task/t7" []; JS.GET "/run/task/t7" []] /\
  map msg_key
    (messages (view (steps [Submit "10:01" "run_mini" false;
                            Answered 0 "10:02"
                              (fst (owlApiService.runQuery "" answering_server
                                      (owlApiService.mkQueryParams "2+2"
                                         (Some "run_mini"))))]
                       offline_panel)))
    = [("assistant", "How can I help you today?");
       ("error", "Failed to establish WebSocket connection. Using HTTP API instead.");
       ("user", "2+2"); ("assistant", "4")].
Proof. repeat split. Qed.

End Submission.

(** ** Keep-alive *)

Section KeepAlive.

Import ConversationPanel.




(** A pong changes nothing. *)
Lemma pong_is_ignored (closure_loading : bool) (ts : string) (st : state)
    (status message error browser_mode task_id : option string)
    (result : option QueryPayload) :
  handleWebSocketMessage closure_loading ts
    (Push.mkResponse (Some "pong") status message error result browser_mode task_id) st
  = st.
Proof. reflexivity. Qed.



End KeepAlive.

(** ** Polling for completion *)

Section Polling.

Import taskService.

Variable env : PollEnv.
Variable taskId : string.
Variables interval timeout startTime : Z.

Let loop := poll_loop env taskId interval timeout startTime.
Let clock := clock_at env interval startTime.
Let poll_request := JS.GET (status_url taskId) [].

Local Abbreviation ending := (taskService.ending env taskId interval timeout startTime).

Lemma poll_loop_run (fuel k : nat) (r : PollRun) :
  loop fuel k (clock k) = Some r ->
  exists n, k <= n /\
    (forall j, k <= j < n ->
       within env interval timeout startTime j /\ nonterminal_at env j) /\
    ending k n r.
Proof.
  subst loop clock. revert k r.
  induction fuel as [|fuel IH]; intros k r Hrun; [discriminate|].
  simpl in Hrun.
  destruct (clock_at env interval startTime k - startTime <? timeout)%Z eqn:Hw.
  - apply Z.ltb_lt in Hw.
    destruct (answer_of env k) as [t|e] eqn:Hanswer.
    + destruct (is_terminal (status t)) eqn:Hterm.
      * injection Hrun as <-. exists k. split; [lia|]. split; [intros j Hj; lia|].
        apply ends_terminal with (t := t); auto.
        replace (S k - k) with 1 by lia. reflexivity.
      * destruct (poll_loop env taskId interval timeout startTime fuel (S k) _)
          as [r'|] eqn:Hrec; [|discriminate].
        injection Hrun as <-.
        apply (IH (S k)) in Hrec as (n & Hle & Hbefore & Hend).
        exists n. split; [lia|]. split.
        { intros j Hj. destruct (Nat.eq_dec j k) as [->|Hne].
          - split; [exact Hw|]. exists t. auto.
          - apply Hbefore. lia. }
        destruct Hend as [Hout Ho Hr | t' Hin Ha Ht Ho Hr | e Hin Ha Ho Hr].
        -- apply ends_timed_out; auto. cbn [requests]. rewrite Hr.
           replace (n - k) with (S (n - S k)) by lia. reflexivity.
        -- apply ends_terminal with (t := t'); auto. cbn [requests]. rewrite Hr.
           replace (S n - k) with (S (S n - S k)) by lia. reflexivity.
        -- apply ends_rejected with (e := e); auto. cbn [requests]. rewrite Hr.
           replace (S n - k) with (S (S n - S k)) by lia. reflexivity.
    + injection Hrun as <-. exists k. split; [lia|]. split; [intros j Hj; lia|].
      apply ends_rejected with (e := e); auto.
      replace (S k - k) with 1 by lia. reflexivity.
  - apply Z.ltb_ge in Hw. injection Hrun as <-.
    exists k. split; [lia|]. split; [intros j Hj; lia|].
    apply ends_timed_out; auto.
    + unfold within. lia.
    + rewrite Nat.sub_diag. reflexivity.
Qed.

Hypothesis interval_positive : (0 < interval)%Z.
Hypothesis latency_nonneg : forall k, (0 <= latency env k)%Z.
Hypothesis oversleep_nonneg : forall k, (0 <= oversleep env k)%Z.

Lemma clock_step (k : nat) : (clock k + interval <= clock (S k))%Z.
Proof.
  subst clock. simpl.
  pose proof (latency_nonneg k). pose proof (oversleep_nonneg k). lia.
Qed.

Lemma clock_monotone (j k : nat) : j <= k -> (clock j <= clock k)%Z.
Proof.
  induction 1 as [|k Hle IH]; [lia|].
  pose proof (clock_step k). lia.
Qed.

Lemma poll_loop_unfold (fuel k : nat) (now : Z) :
  loop (S fuel) k now =
  if (now - startTime <? timeout)%Z then
    match answer_of env k with
    | JS.Rejected e =>
        Some (mkPollRun
                (JS.Throw (JS.new_Error
                   (JS.or_else (Some (JS.message e)) "Error checking task status")))
                [poll_request] (now + latency env k)%Z)
    | JS.Resolved t =>
        if is_terminal (status t)
        then Some (mkPollRun (JS.Return t) [poll_request] (now + latency env k)%Z)
        else
          match loop fuel (S k)
                  (now + latency env k + Z.max 0 interval + oversleep env k)%Z with
          | Some r =>
              Some (mkPollRun (outcome r) ([poll_request] ++ requests r) (finished_at r))
          | None => None
          end
    end
  else Some (mkPollRun (JS.Throw timed_out) [] now).
Proof.
  subst loop. cbn [poll_loop]. unfold getTaskStatus.
  destruct (now - startTime <? timeout)%Z; [|reflexivity].
  destruct (answer_of env k); reflexivity.
Qed.

(** With a positive interval the loop ends: [fuel] iterations are enough as
    soon as they cover the time left. *)
Lemma poll_loop_total (fuel k : nat) (now : Z) :
  (timeout - (now - startTime) <= Z.of_nat fuel * interval)%Z ->
  exists r, loop (S fuel) k now = Some r.
Proof.
  revert k now.
  induction fuel as [|fuel IH]; intros k now Hleft; rewrite poll_loop_unfold.
  - destruct (now - startTime <? timeout)%Z eqn:Hw; [|eauto].
    apply Z.ltb_lt in Hw. simpl in Hleft. lia.
  - destruct (now - startTime <? timeout)%Z eqn:Hw; [|eauto].
    destruct (answer_of env k) as [t|e]; [|eauto].
    destruct (is_terminal (status t)); [eauto|].
    rewrite Nat2Z.inj_succ, Z.mul_succ_l in Hleft.
    pose proof (latency_nonneg k). pose proof (oversleep_nonneg k).
    destruct (IH (S k) (now + latency env k + Z.max 0 interval + oversleep env k)%Z)
      as [r Hr]; [lia|].
    rewrite Hr. eauto.
Qed.

Lemma nonterminal_not_terminal (k : nat) (t : Task) :
  nonterminal_at env k -> answer_of env k = JS.Resolved t ->
  is_terminal (status t) = true -> False.
Proof.
  intros (t' & Ha & Hnt) Hanswer Hterm. rewrite Hanswer in Ha.
  injection Ha as <-. congruence.
Qed.

Lemma nonterminal_not_rejected (k : nat) (e : JS.Error) :
  nonterminal_at env k -> answer_of env k = JS.Rejected e -> False.
Proof.
  intros (t' & Ha & _) Hanswer. rewrite Hanswer in Ha. discriminate.
Qed.

Lemma within_earlier (j k : nat) :
  j <= k -> within env interval timeout startTime k ->
  within env interval timeout startTime j.
Proof.
  unfold within. intros Hle Hk. pose proof (clock_monotone j k Hle) as Hm.
  subst clock. lia.
Qed.

(** The loop, given enough fuel: it ends, it only reads the status, it
    returns the first terminal snapshot when the poll that fetches it is
    reached, and it times out when every poll started in time comes back
    non-terminal. *)
Lemma poll_loop_spec (fuel : nat) :
  (timeout <= Z.of_nat fuel * interval)%Z ->
  exists r,
    loop (S fuel) 0 startTime = Some r /\
    Forall (fun q => q = poll_request) (requests r) /\
    (forall n t,
       reaches env interval timeout startTime n ->
       answer_of env n = JS.Resolved t -> is_terminal (status t) = true ->
       outcome r = JS.Return t /\ length (requests r) = S n) /\
    ((forall k, within env interval timeout startTime k -> nonterminal_at env k) ->
     outcome r = JS.Throw timed_out /\
     exists n,
       requests r = repeat poll_request n /\
       (forall j, j < n -> within env interval timeout startTime j) /\
       ~ within env interval timeout startTime n).
Proof.
  intros Hfuel.
  destruct (poll_loop_total fuel 0 startTime) as [r Hrun]; [lia|].
  exists r. split; [assumption|].
  destruct (poll_loop_run (S fuel) 0 r Hrun) as (n & _ & Hbefore & Hend).
  split; [|split].
  - apply Forall_forall. intros q Hq.
    destruct Hend as [_ _ Hr | t _ _ _ _ Hr | e _ _ _ Hr];
      rewrite Hr in Hq; apply repeat_spec in Hq; assumption.
  - intros n0 t0 [Hin0 Hearlier] Hanswer Hterm.
    destruct (Nat.lt_trichotomy n n0) as [Hlt | [Heq | Hgt]].
    + exfalso. specialize (Hearlier n Hlt).
      destruct Hend as [Hout _ _ | t _ Ha Ht _ _ | e _ Ha _ _].
      * apply Hout. apply within_earlier with (k := n0); [lia | assumption].
      * exact (nonterminal_not_terminal n t Hearlier Ha Ht).
      * exact (nonterminal_not_rejected n e Hearlier Ha).
    + subst n0.
      destruct Hend as [Hout _ _ | t _ Ha _ Ho Hr | e _ Ha _ _].
      * contradiction.
      * rewrite Hanswer in Ha. injection Ha as <-. split; [assumption|].
        rewrite Hr, repeat_length. lia.
      * rewrite Hanswer in Ha. discriminate.
    + exfalso. destruct (Hbefore n0) as [_ Hnt]; [lia|].
      exact (nonterminal_not_terminal n0 t0 Hnt Hanswer Hterm).
  - intros Hall.
    destruct Hend as [Hout Ho Hr | t Hin Ha Ht _ _ | e Hin Ha _ _].
    + split; [assumption|]. exists n. rewrite Nat.sub_0_r in Hr.
      split; [assumption|]. split; [|assumption].
      intros j Hj. apply Hbefore. lia.
    + exfalso. exact (nonterminal_not_terminal n t (Hall n Hin) Ha Ht).
    + exfalso. exact (nonterminal_not_rejected n e (Hall n Hin) Ha).
Qed.

End Polling.

(** ** The query over HTTP *)

Section RunQuery.

Import owlApiService.

Variable type_error : string.
Variable env : RestEnv.
Variable taskId : string.

Let poll := JS.GET (task_url taskId) [].

Lemma poll_result_step (remaining retries : nat) :
  poll_result env taskId (S remaining) retries =
  match verdict (status_answer env (S retries)) with
  | Some v => (v, [poll])
  | None =>
      (fst (poll_result env taskId remaining (S retries)),
       poll :: snd (poll_result env taskId remaining (S retries)))
  end.
Proof.
  simpl. unfold verdict.
  destruct (status_answer env (S retries)) as [data|e]; [|reflexivity].
  destruct (info_status_is data "completed"); [reflexivity|].
  destruct (info_status_is data "error"); [reflexivity|].
  destruct (poll_result env taskId remaining (S retries)). reflexivity.
Qed.

(** The loop stops at the first attempt that decides, after one request
    per attempt. *)
Lemma poll_result_first (remaining retries n : nat)
    (v : JS.Completion (option QueryPayload)) :
  retries < n <= retries + remaining ->
  (forall j, retries < j < n -> verdict (status_answer env j) = None) ->
  verdict (status_answer env n) = Some v ->
  poll_result env taskId remaining retries = (v, repeat poll (n - retries)).
Proof.
  revert retries. induction remaining as [|remaining IH]; intros retries Hn Hbefore Hv;
    [lia|].
  rewrite poll_result_step.
  destruct (Nat.eq_dec n (S retries)) as [->|Hne].
  - rewrite Hv. replace (S retries - retries) with 1 by lia. reflexivity.
  - rewrite (Hbefore (S retries)) by lia.
    rewrite (IH (S retries)); [|lia| |assumption].
    + simpl. replace (n - retries) with (S (n - S retries)) by lia. reflexivity.
    + intros j Hj. apply Hbefore. lia.
Qed.

(** Without a deciding answer the loop makes all its attempts and gives
    up. *)
Lemma poll_result_exhausted (remaining retries : nat) :
  (forall j, retries < j <= retries + remaining -> verdict (status_answer env j) = None) ->
  poll_result env taskId remaining retries
  = (JS.Throw (JS.new_Error "Task timed out after 60 seconds"), repeat poll remaining).
Proof.
  revert retries. induction remaining as [|remaining IH]; intros retries Hnone;
    [reflexivity|].
  rewrite poll_result_step, (Hnone (S retries)) by lia.
  rewrite (IH (S retries)); [reflexivity|].
  intros j Hj. apply Hnone. lia.
Qed.

Lemma poll_result_bounded (remaining retries : nat) :
  exists n, n <= remaining /\
    snd (poll_result env taskId remaining retries) = repeat poll n.
Proof.
  revert retries. induction remaining as [|remaining IH]; intros retries.
  - exists 0. split; [lia | reflexivity].
  - rewrite poll_result_step.
    destruct (verdict (status_answer env (S retries))) as [v|].
    + exists 1. split; [lia | reflexivity].
    + destruct (IH (S retries)) as (n & Hn & Hreqs).
      exists (S n). split; [lia|]. simpl. rewrite Hreqs. reflexivity.
Qed.

Variable params : QueryParams.

Hypothesis started : started_as env taskId.

Lemma runQuery_started :
  runQuery type_error env params =
  (JS.bind (fst (poll_result env taskId maxRetries 0)) (format_result type_error),
   submit_request params :: snd (poll_result env taskId maxRetries 0)).
Proof.
  unfold runQuery. destruct started as [-> Htruthy]. simpl started_task_id.
  cbv iota. rewrite Htruthy.
  destruct (poll_result env taskId maxRetries 0). reflexivity.
Qed.

(** [runQuery] ends at the first attempt that decides. *)
Lemma runQuery_first_verdict (n : nat) (v : JS.Completion (option QueryPayload)) :
  1 <= n <= maxRetries ->
  pending_before env n ->
  verdict (status_answer env n) = Some v ->
  runQuery type_error env params
  = (JS.bind v (format_result type_error), submit_request params :: repeat poll n).
Proof.
  intros Hn Hpending Hv. rewrite runQuery_started.
  rewrite (poll_result_first maxRetries 0 n v).
  - simpl. rewrite Nat.sub_0_r. reflexivity.
  - lia.
  - intros j Hj. apply Hpending. lia.
  - assumption.
Qed.

(** X5: [runQuery] ends at the first attempt that finds the task completed,
    when that attempt is among the sixty it makes; it has then posted the
    query once and asked for the status once per attempt.  It throws the
    [TypeError] of the engine when the completed task carries no result,
    and returns the answer, the transcript and the printed token counts of
    the result otherwise (the counts being safe integers). *)
Theorem runQuery_first_completed (n : nat) (data : TaskInfo) :
  1 <= n <= maxRetries ->
  pending_before env n ->
  status_answer env n = JS.Resolved data ->
  info_status data = Some "completed" ->
  safe_counts (info_result data) ->
  snd (runQuery type_error env params) = submit_request params :: repeat poll n /\
  fst (runQuery type_error env params) =
    match info_result data with
    | None => JS.Throw (JS.new_Error type_error)
    | Some p =>
        let count (f : TokenInfo -> option Z) :=
          match token_info p with
          | Some t => match f t with Some z => z | None => 0%Z end
          | None => 0%Z
          end in
        JS.Return
          (mkQueryResult (answer p)
             ("Completion: " ++ JS.show (count completion_token_count) ++
              " | Prompt: " ++ JS.show (count prompt_token_count) ++
              " | Total: " ++
              JS.show (if (count total_token_count =? 0)%Z
                       then (count completion_token_count + count prompt_token_count)%Z
                       else count total_token_count))
             "✅ Successfully completed" (chat_history p))
    end.
Proof.
  intros Hn Hpending Hanswer Hcompleted _. rewrite runQuery_started.
  rewrite (poll_result_first maxRetries 0 n (JS.Return (info_result data))).
  - cbn [fst snd JS.bind]. rewrite Nat.sub_0_r. split; [reflexivity|].
    unfold format_result. destruct (info_result data) as [p|]; [|reflexivity].
    cbv zeta. unfold count_or_zero.
    destruct (token_info p) as [t|]; [|reflexivity].
    destruct (completion_token_count t), (prompt_token_count t), (total_token_count t);
      reflexivity.
  - lia.
  - intros j Hj. apply Hpending. lia.
  - unfold verdict, info_status_is. rewrite Hanswer, Hcompleted. reflexivity.
Qed.

(** X6: A status [error], or a rejected status request, ends [runQuery] at that
    attempt with an error: the text sent by the server (or [Task failed]) in
    the first case, the rejection itself in the second. *)
Theorem runQuery_first_failure (n : nat) :
  1 <= n <= maxRetries ->
  pending_before env n ->
  (forall data,
     status_answer env n = JS.Resolved data ->
     info_status_is data "completed" = false ->
     info_status_is data "error" = true ->
     runQuery type_error env params
     = (JS.Throw (JS.new_Error (JS.or_else (info_error data) "Task failed")),
        submit_request params :: repeat poll n)) /\
  (forall e,
     status_answer env n = JS.Rejected e ->
     runQuery type_error env params = (JS.Throw e, submit_request params :: repeat poll n)).
Proof.
  intros Hn Hpending. split.
  - intros data Hanswer Hnot Herror. rewrite runQuery_started.
    rewrite (poll_result_first maxRetries 0 n
               (JS.Throw (JS.new_Error (JS.or_else (info_error data) "Task failed")))).
    + simpl. rewrite Nat.sub_0_r. reflexivity.
    + lia.
    + intros j Hj. apply Hpending. lia.
    + unfold verdict. rewrite Hanswer, Hnot, Herror. reflexivity.
  - intros e Hanswer. rewrite runQuery_started.
    rewrite (poll_result_first maxRetries 0 n (JS.Throw e)).
    + simpl. rewrite Nat.sub_0_r. reflexivity.
    + lia.
    + intros j Hj. apply Hpending. lia.
    + unfold verdict. rewrite Hanswer. reflexivity.
Qed.

(** X7: When none of the sixty attempts finds the status [completed] or
    [error] -- [running], [failed] and [canceled] are all the same to the
    loop -- [runQuery] gives up with its time-out error after exactly sixty
    status requests. *)
Theorem runQuery_gives_up :
  pending_before env (S maxRetries) ->
  runQuery type_error env params
  = (JS.Throw (JS.new_Error "Task timed out after 60 seconds"),
     submit_request params :: repeat poll maxRetries).
Proof.
  intros Hpending. rewrite runQuery_started.
  rewrite poll_result_exhausted; [reflexivity|].
  intros j Hj. apply Hpending. lia.
Qed.

End RunQuery.

Section RunQueryWitnesses.

Import owlApiService.

(** The theorem on the server that completes at the second attempt. *)
Lemma runQuery_first_completed_witness :
  snd (runQuery "" counting_server (mkQueryParams "2+2" None))
    = submit_request (mkQueryParams "2+2" None) :: repeat (JS.GET (task_url "t7") []) 2 /\
  fst (runQuery "" counting_server (mkQueryParams "2+2" None))
    = JS.Return (mkQueryResult (Some "4") "Completion: 3 | Prompt: 12 | Total: 15"
                   "✅ Successfully completed" None).
Proof.
  apply (runQuery_first_completed "" counting_server "t7" (mkQueryParams "2+2" None)
           (conj eq_refl eq_refl) 2
           (mkTaskInfo (Some "completed")
              (Some (mkPayload (Some "4") (Some (mkTokenInfo (Some 3%Z) (Some 12%Z) None))
                       None)) None)).
  - unfold maxRetries. lia.
  - intros j Hj. assert (j = 1) as -> by lia. reflexivity.
  - reflexivity.
  - reflexivity.
  - unfold safe_counts, JS.safe_integer, JS.MAX_SAFE_INTEGER. simpl. lia.
Defined.

(** The theorem on the server that reports an error at the third attempt. *)
Lemma runQuery_first_failure_witness :
  (forall data,
     status_answer failing_server 3 = JS.Resolved data ->
     info_status_is data "completed" = false ->
     info_status_is data "error" = true ->
     runQuery "" failing_server (mkQueryParams "2+2" None)
     = (JS.Throw (JS.new_Error (JS.or_else (info_error data) "Task failed")),
        submit_request (mkQueryParams "2+2" None)
          :: repeat (JS.GET (task_url "t8") []) 3)) /\
  (forall e,
     status_answer failing_server 3 = JS.Rejected e ->
     runQuery "" failing_server (mkQueryParams "2+2" None)
     = (JS.Throw e, submit_request (mkQueryParams "2+2" None)
                      :: repeat (JS.GET (task_url "t8") []) 3)).
Proof.
  apply (runQuery_first_failure "" failing_server "t8" (mkQueryParams "2+2" None)
           (conj eq_refl eq_refl) 3).
  - unfold maxRetries. lia.
  - intros j Hj. assert (j = 1 \/ j = 2) as [-> | ->] by lia; reflexivity.
Defined.

(** The theorem on the server that reports [failed] for ever. *)
Lemma runQuery_gives_up_witness :
  runQuery "" stalled_server (mkQueryParams "2+2" (Some "run_mini"))
  = (JS.Throw (JS.new_Error "Task timed out after 60 seconds"),
     submit_request (mkQueryParams "2+2" (Some "run_mini"))
       :: repeat (JS.GET (task_url "t9") []) maxRetries).
Proof.
  apply (runQuery_gives_up "" stalled_server "t9" (mkQueryParams "2+2" (Some "run_mini"))
           (conj eq_refl eq_refl)).
  intros j Hj. reflexivity.
Defined.

(** X8: Whatever the server answers, [runQuery] posts the query once and then
    asks for the status at most sixty times, always for the id the
    submission returned. *)
Theorem runQuery_requests_bounded (type_error : string) (env : RestEnv)
    (params : QueryParams) :
  exists polls,
    snd (runQuery type_error env params) = submit_request params :: polls /\
    length polls <= 60 /\
    forall r, In r polls ->
      exists taskId,
        start_answer env = JS.Resolved (mkStarted (Some taskId)) /\
        r = JS.GET (task_url taskId) [].
Proof.
  unfold runQuery.
  destruct (start_answer env) as [[[taskId|]]|e].
  - cbn [started_task_id]. destruct (JS.truthy taskId).
    + destruct (poll_result_bounded env taskId maxRetries 0) as (n & Hn & Hreqs).
      destruct (poll_result env taskId maxRetries 0) as [r reqs].
      cbn [snd] in *.
      exists reqs. split; [reflexivity|]. subst reqs. rewrite repeat_length.
      split; [exact Hn|]. intros q Hq. apply repeat_spec in Hq. eauto.
    + exists []. simpl. split; [reflexivity|]. split; [lia | contradiction].
  - exists []. simpl. split; [reflexivity|]. split; [lia | contradiction].
  - exists []. simpl. split; [reflexivity|]. split; [lia | contradiction].
Qed.

End RunQueryWitnesses.

Section PollingClaims.

Import taskService.

Lemma is_terminal_spec (s : TaskStatus) :
  is_terminal s = true <-> s = COMPLETED \/ s = FAILED \/ s = CANCELED.
Proof.
  destruct s; simpl; split; intros H; try discriminate; auto;
    destruct H as [H | [H | H]]; discriminate.
Qed.

Lemma nonterminal_spec (env : PollEnv) (j : nat) :
  nonterminal_at env j ->
  exists task, answer_of env j = JS.Resolved task /\
    status task <> COMPLETED /\ status task <> FAILED /\ status task <> CANCELED.
Proof.
  intros (task & Ha & Hnt). exists task. split; [assumption|].
  repeat split; intros Hs;
    assert (is_terminal (status task) = true) as Ht
      by (apply is_terminal_spec; auto);
    congruence.
Qed.

Lemma under_way_pending (renv : owlApiService.RestEnv) (n : nat) :
  (forall j, 1 <= j < n ->
     exists data, owlApiService.status_answer renv j = JS.Resolved data /\
       owlApiService.info_status data <> Some "completed" /\
       owlApiService.info_status data <> Some "error") ->
  owlApiService.pending_before renv n.
Proof.
  intros Hrun j Hj. destruct (Hrun j Hj) as (data & Ha & Hc & He).
  unfold owlApiService.verdict, owlApiService.info_status_is. rewrite Ha.
  destruct (owlApiService.info_status data) as [st|]; [|reflexivity].
  destruct (st =? "completed")%string eqn:H1;
    [apply String.eqb_eq in H1; subst; congruence|].
  destruct (st =? "error")%string eqn:H2;
    [apply String.eqb_eq in H2; subst; congruence|].
  reflexivity.
Qed.

(** The claim as first stated fails in both loops.  In
    [pollTaskCompletion] a status request that is rejected ends the loop
    with the error of that request, not with the time-out error, although no
    poll has seen a terminal status.  In [runQuery] a task reported
    [failed] is polled sixty times and the call ends with its time-out
    error: [failed] does not end that loop. *)
Lemma rejected_poll_is_no_timeout :
  pollTaskCompletion flaky_env "t1" None None 0 301
    = Some (mkPollRun (JS.Throw (JS.new_Error "Network Error"))
              [JS.GET "/tasks/t1" []] 20) /\
  JS.new_Error "Network Error" <> JS.new_Error "Task polling timed out" /\
  owlApiService.status_answer stalled_server 1
    = JS.Resolved (owlApiService.mkTaskInfo (Some "failed") None None) /\
  owlApiService.runQuery "" stalled_server
    (owlApiService.mkQueryParams "2+2" (Some "run_mini"))
    = (JS.Throw (JS.new_Error "Task timed out after 60 seconds"),
       JS.POST "/run/async" [("query", JS.JStr "2+2"); ("module", JS.JStr "run_mini")]
       :: repeat (JS.GET "/run/task/t9" []) 60).
Proof.
  split; [vm_compute; reflexivity|]. split; [discriminate|].
  split; [reflexivity | vm_compute; reflexivity].
Qed.

(** C4, as the code has it.  With a positive interval,
    [pollTaskCompletion] ends after making nothing but GETs of
    [/tasks/{id}], the n-th one [interval] after the answer to the one
    before ([clock_at]), and it ends in one of three ways: at the first
    snapshot whose status is completed, failed or canceled, which it
    returns; at the first rejected request, with the error of that request;
    or, when every request started before the time-out came back with a
    snapshot of another status, with the error [Task polling timed out].
    [runQuery], once its submission has returned an id, makes nothing but
    GETs of [/run/task/{id}], at most sixty: it ends at the first answer
    with status [completed], throws at the first answer with status [error]
    (the text of the server, or [Task failed]) and at the first rejected
    request (the rejection), and throws [Task timed out after 60 seconds]
    when all sixty answers have another status -- [failed] and [canceled]
    included.  In neither loop does the time-out send anything to the
    server. *)
Theorem pollTaskCompletion_first_terminal_or_timeout
    (env : PollEnv) (taskId : string) (interval timeout : option Z)
    (startTime : Z) (fuel : nat) :
  let i := match interval with Some z => z | None => 1000%Z end in
  let t := match timeout with Some z => z | None => 300000%Z end in
  (0 < i)%Z ->
  (forall k, 0 <= latency env k)%Z ->
  (forall k, 0 <= oversleep env k)%Z ->
  (t <= Z.of_nat fuel * i)%Z ->
  (exists r n,
     pollTaskCompletion env taskId interval timeout startTime (S fuel) = Some r /\
     requests r = repeat (JS.GET ("/tasks/" ++ taskId) []) (length (requests r)) /\
     (forall j, j < n ->
        within env i t startTime j /\
        exists task, answer_of env j = JS.Resolved task /\
          status task <> COMPLETED /\ status task <> FAILED /\ status task <> CANCELED) /\
     ((~ within env i t startTime n /\
       outcome r = JS.Throw (JS.new_Error "Task polling timed out") /\
       length (requests r) = n) \/
      (within env i t startTime n /\
       exists task, answer_of env n = JS.Resolved task /\
         (status task = COMPLETED \/ status task = FAILED \/ status task = CANCELED) /\
         outcome r = JS.Return task /\ length (requests r) = S n) \/
      (within env i t startTime n /\
       exists e, answer_of env n = JS.Rejected e /\
         outcome r = JS.Throw (JS.new_Error
                       (JS.or_else (Some (JS.message e)) "Error checking task status")) /\
         length (requests r) = S n))) /\
  (forall (type_error : string) (renv : owlApiService.RestEnv)
          (params : owlApiService.QueryParams) (id : string),
     owlApiService.start_answer renv = JS.Resolved (owlApiService.mkStarted (Some id)) ->
     id <> "" ->
     let run := owlApiService.runQuery type_error renv params in
     let asked (n : nat) :=
       JS.POST "/run/async"
         [("query", JS.JStr (owlApiService.query params));
          ("module", JS.JStr (match owlApiService.module params with
                              | Some m => m
                              | None => "run"
                              end))]
       :: repeat (JS.GET ("/run/task/" ++ id) []) n in
     let under_way (n : nat) :=
       forall j, 1 <= j < n ->
         exists data, owlApiService.status_answer renv j = JS.Resolved data /\
           owlApiService.info_status data <> Some "completed" /\
           owlApiService.info_status data <> Some "error" in
     (forall n, 1 <= n <= 60 -> under_way n ->
        (forall data,
           owlApiService.status_answer renv n = JS.Resolved data ->
           owlApiService.info_status data = Some "completed" -> snd run = asked n) /\
        (forall data,
           owlApiService.status_answer renv n = JS.Resolved data ->
           owlApiService.info_status data = Some "error" ->
           run = (JS.Throw (JS.new_Error
                    (JS.or_else (owlApiService.info_error data) "Task failed")),
                  asked n)) /\
        (forall e,
           owlApiService.status_answer renv n = JS.Rejected e ->
           run = (JS.Throw e, asked n))) /\
     (under_way 61 ->
      run = (JS.Throw (JS.new_Error "Task timed out after 60 seconds"), asked 60))).
Proof.
  cbv zeta. intros Hpos Hlat Hover Hfuel. split.
  - unfold pollTaskCompletion, or_default, defaultInterval, defaultTimeout.
    set (i := match interval with Some z => z | None => 1000%Z end) in *.
    set (t := match timeout with Some z => z | None => 300000%Z end) in *.
    destruct (poll_loop_total env taskId i t startTime Hpos Hlat Hover fuel 0 startTime)
      as [r Hrun]; [lia|].
    destruct (poll_loop_run env taskId i t startTime (S fuel) 0 r Hrun)
      as (n & _ & Hbefore & Hend).
    exists r, n. split; [exact Hrun|].
    assert (forall m, requests r = repeat (JS.GET (status_url taskId) []) m ->
              requests r = repeat (JS.GET ("/tasks/" ++ taskId) []) (length (requests r)))
      as Hgets by (intros m Hm; rewrite Hm at 2; rewrite repeat_length; exact Hm).
    split; [|split].
    + destruct Hend as [_ _ Hr | task _ _ _ _ Hr | e _ _ _ Hr]; exact (Hgets _ Hr).
    + intros j Hj. destruct (Hbefore j) as [Hin Hnt]; [lia|].
      split; [assumption | apply nonterminal_spec; assumption].
    + destruct Hend as [Hout Ho Hr | task Hin Ha Ht Ho Hr | e Hin Ha Ho Hr].
      * left. split; [assumption|]. split; [exact Ho|].
        rewrite Hr, repeat_length. lia.
      * right. left. split; [assumption|]. exists task. split; [assumption|].
        split; [apply is_terminal_spec; assumption|]. split; [assumption|].
        rewrite Hr, repeat_length. lia.
      * right. right. split; [assumption|]. exists e. split; [assumption|].
        split; [assumption|]. rewrite Hr, repeat_length. lia.
  - intros type_error renv params id Hstart Hid.
    assert (owlApiService.started_as renv id) as Hstarted
      by (split; [assumption | destruct id; [congruence | reflexivity]]).
    split.
    + intros n Hn Hrun. apply under_way_pending in Hrun. split; [|split].
      * intros data Ha Hc.
        rewrite (runQuery_first_verdict type_error renv id params Hstarted n
                   (JS.Return (owlApiService.info_result data))); [reflexivity | | | ].
        -- unfold owlApiService.maxRetries. lia.
        -- assumption.
        -- unfold owlApiService.verdict, owlApiService.info_status_is.
           rewrite Ha, Hc. reflexivity.
      * intros data Ha He.
        rewrite (runQuery_first_verdict type_error renv id params Hstarted n
                   (JS.Throw (JS.new_Error
                      (JS.or_else (owlApiService.info_error data) "Task failed"))));
          [reflexivity | | | ].
        -- unfold owlApiService.maxRetries. lia.
        -- assumption.
        -- unfold owlApiService.verdict, owlApiService.info_status_is.
           rewrite Ha, He. reflexivity.
      * intros e Ha.
        rewrite (runQuery_first_verdict type_error renv id params Hstarted n (JS.Throw e));
          [reflexivity | | | ].
        -- unfold owlApiService.maxRetries. lia.
        -- assumption.
        -- unfold owlApiService.verdict. rewrite Ha. reflexivity.
    + intros Hrun. apply under_way_pending in Hrun.
      rewrite (runQuery_started type_error renv id params Hstarted).
      rewrite poll_result_exhausted; [reflexivity|].
      intros j Hj. apply Hrun. unfold owlApiService.maxRetries in Hj. lia.
Qed.

(** The theorem on a server where the task completes at the third poll. *)
Lemma pollTaskCompletion_first_terminal_or_timeout_witness :
  exists r n,
    pollTaskCompletion finishing_env "t1" None None 0 301 = Some r /\
    requests r = repeat (JS.GET "/tasks/t1" []) (length (requests r)) /\
    (forall j, j < n ->
       within finishing_env 1000 300000 0 j /\
       exists task, answer_of finishing_env j = JS.Resolved task /\
         status task <> COMPLETED /\ status task <> FAILED /\ status task <> CANCELED) /\
    ((~ within finishing_env 1000 300000 0 n /\
      outcome r = JS.Throw (JS.new_Error "Task polling timed out") /\
      length (requests r) = n) \/
     (within finishing_env 1000 300000 0 n /\
      exists task, answer_of finishing_env n = JS.Resolved task /\
        (status task = COMPLETED \/ status task = FAILED \/ status task = CANCELED) /\
        outcome r = JS.Return task /\ length (requests r) = S n) \/
     (within finishing_env 1000 300000 0 n /\
      exists e, answer_of finishing_env n = JS.Rejected e /\
        outcome r = JS.Throw (JS.new_Error
                      (JS.or_else (Some (JS.message e)) "Error checking task status")) /\
        length (requests r) = S n)).
Proof.
  apply (pollTaskCompletion_first_terminal_or_timeout finishing_env "t1" None None 0 300).
  - reflexivity.
  - intros k. simpl. lia.
  - intros k. simpl. lia.
  - vm_compute. discriminate.
Defined.

(** The run on that server: three polls, the third snapshot returned. *)
Example finishing_run :
  pollTaskCompletion finishing_env "t1" None None 0 301
  = Some (mkPollRun (JS.Return (snapshot "t1" COMPLETED))
            (repeat (JS.GET "/tasks/t1" []) 3) 2060).
Proof. vm_compute. reflexivity. Qed.

(** C9: [TaskStatus] has a sixth value, [not_found], next to the five
    life-cycle states, and a status request may come back with it.  It does
    not end the loop of [pollTaskCompletion]: when the server keeps
    answering [not_found], the loop polls once per interval for as long as
    the time-out allows and then raises the time-out error. *)
Theorem not_found_is_polled_until_timeout
    (env : PollEnv) (taskId : string) (interval timeout : option Z)
    (startTime : Z) (fuel : nat) :
  let i := or_default interval defaultInterval in
  let t := or_default timeout defaultTimeout in
  (0 < i)%Z ->
  (forall k, 0 <= latency env k)%Z ->
  (forall k, 0 <= oversleep env k)%Z ->
  (t <= Z.of_nat fuel * i)%Z ->
  (forall k, exists task, answer_of env k = JS.Resolved task /\ status task = NOT_FOUND) ->
  (~ In NOT_FOUND lifecycle_states /\ forall s, s = NOT_FOUND \/ In s lifecycle_states) /\
  (forall task, status task = NOT_FOUND ->
     fst (getTaskStatus taskId (JS.Resolved task)) = JS.Return task) /\
  is_terminal NOT_FOUND = false /\
  exists r n,
    pollTaskCompletion env taskId interval timeout startTime (S fuel) = Some r /\
    outcome r = JS.Throw timed_out /\
    requests r = repeat (JS.GET (status_url taskId) []) n /\
    (forall j, j < n -> within env i t startTime j) /\
    ~ within env i t startTime n.
Proof.
  cbv zeta. intros Hpos Hlat Hover Hfuel Hunknown.
  split; [|split; [|split]].
  - split.
    + simpl. intuition discriminate.
    + intros s. destruct s; simpl; auto 10.
  - reflexivity.
  - reflexivity.
  - unfold pollTaskCompletion.
    destruct (poll_loop_spec env taskId _ _ startTime Hpos Hlat Hover fuel Hfuel)
      as (r & Hrun & _ & _ & Htimeout).
    destruct Htimeout as (Hout & n & Hreqs & Hbefore & Hafter).
    + intros k _. destruct (Hunknown k) as (task & Ha & Hs).
      exists task. split; [assumption|]. rewrite Hs. reflexivity.
    + exists r, n. auto.
Qed.

(** The theorem on a server that does not know the task. *)
Lemma not_found_is_polled_until_timeout_witness :
  (~ In NOT_FOUND lifecycle_states /\ forall s, s = NOT_FOUND \/ In s lifecycle_states) /\
  (forall task, status task = NOT_FOUND ->
     fst (getTaskStatus "nope" (JS.Resolved task)) = JS.Return task) /\
  is_terminal NOT_FOUND = false /\
  exists r n,
    pollTaskCompletion unknown_env "nope" None None 0 301 = Some r /\
    outcome r = JS.Throw timed_out /\
    requests r = repeat (JS.GET (status_url "nope") []) n /\
    (forall j, j < n -> within unknown_env 1000 300000 0 j) /\
    ~ within unknown_env 1000 300000 0 n.
Proof.
  apply (not_found_is_polled_until_timeout unknown_env "nope" None None 0 300).
  - reflexivity.
  - intros k. simpl. lia.
  - intros k. simpl. lia.
  - vm_compute. discriminate.
  - intros k. exists (snapshot "nope" NOT_FOUND). split; reflexivity.
Defined.

(** With the default interval and time-out, an unknown id is polled three
    hundred times before the loop gives up. *)
Example unknown_task_run :
  pollTaskCompletion unknown_env "nope" None None 0 301
  = Some (mkPollRun (JS.Throw timed_out) (repeat (JS.GET "/tasks/nope" []) 300) 300000).
Proof. vm_compute. reflexivity. Qed.

End PollingClaims.

(** * Further properties of the code *)

(** ** The indicator of the panel *)

Section Indicator.

Import ConversationPanel PanelInvariants.

Lemma settles_keeps_indicator (st st' : state) :
  settles st st' -> indicator_agrees st -> indicator_agrees st'.
Proof.
  unfold settles, indicator_agrees.
  intros [Hsame | [[Hl Hs] | [Hl [Hs | Hs]]]] Hagree.
  - injection Hsame as -> ->. assumption.
  - rewrite Hl, Hs. tauto.
  - rewrite Hl, Hs. split; discriminate.
  - rewrite Hl, Hs. split; discriminate.
Qed.

Lemma on_completed_settles (ts : string) (p : QueryPayload) (st : state) :
  settles st (on_completed ts p st).
Proof.
  right. right. unfold on_completed.
  destruct (nonempty_history p), (usable_answer p), (token_info p); simpl; auto.
Qed.

Lemma handler_settles (closure_loading : bool) (ts : string) (r : Push.response)
    (st : state) :
  settles st (handleWebSocketMessage closure_loading ts r st).
Proof.
  unfold handleWebSocketMessage.
  destruct (Push.type_is r "system" && Push.status_is r "connected");
    [left; reflexivity|].
  destruct (Push.type_is r "ack"); [left; reflexivity|].
  destruct (Push.type_is r "status").
  - destruct (if Push.status_is r "completed" then Push.result r else None) as [p|].
    + apply on_completed_settles.
    + destruct (Push.status_is r "error"); [right; right; simpl; auto|].
      destruct (Push.status_is r "processing"); [|left; reflexivity].
      destruct (Push.browser_mode r) as [mode|]; [|left; reflexivity].
      destruct (JS.truthy mode); left; reflexivity.
  - destruct (Push.type_is r "log").
    + destruct closure_loading; left; reflexivity.
    + destruct (Push.type_is r "error"); [right; right; simpl; auto | left; reflexivity].
Qed.

Lemma deliver_keeps_indicator (ts : string) (notices : list Push.response) (st : state) :
  indicator_agrees st -> indicator_agrees (deliver ts notices st).
Proof.
  unfold deliver. revert st.
  induction notices as [|n notices IH]; intros st Hagree; simpl; [assumption|].
  apply IH. apply (settles_keeps_indicator st); [apply handler_settles | assumption].
Qed.

Lemma handleSubmit_settles (ts module : string) (throws : bool) (p : panel) :
  settles (view p) (view (fst (handleSubmit ts module throws p))).
Proof.
  unfold handleSubmit.
  destruct (negb (JS.truthy (JS.trim (input (view p)))) || loading (view p));
    [left; reflexivity|].
  destruct (open_socket p) as [c|]; [|right; left; simpl; auto].
  destruct (owlApiService.sendWebSocketQuery throws (owlApiService.socket c)
              (input (view p)) (Some module)) as [[|] ws]; right; left; simpl; auto.
Qed.

Lemma resumed_settles (ts : string) (r : JS.Completion owlApiService.QueryResult)
    (st : state) :
  settles st (handleSubmit_resumed ts r st).
Proof. destruct r as [res|e]; right; right; simpl; auto. Qed.

Lemma step_keeps_indicator (a : action) (p : panel) :
  indicator_agrees (view p) -> indicator_agrees (view (step a p)).
Proof.
  intros Hagree.
  destruct a as [ev ts | now throws | text | ts m throws | k ts r | ]; simpl.
  - destruct (conn p) as [c|]; [|assumption].
    destruct (owlApiService.handle ev c) as [c' notices]. simpl.
    apply deliver_keeps_indicator. assumption.
  - destruct (pingTimer p); [|assumption].
    destruct (open_socket p) as [c|]; [|assumption].
    destruct (owlApiService.sendWebSocketPing throws now (owlApiService.socket c)).
    assumption.
  - assumption.
  - apply (settles_keeps_indicator (view p)); [apply handleSubmit_settles | assumption].
  - destruct (nth_error (awaited p) k); [|assumption].
    apply (settles_keeps_indicator (view p)); [apply resumed_settles | assumption].
  - assumption.
Qed.

(** X1: From mount on, whatever the user, the timers, the socket and the
    server do, and in whatever order submissions, socket events and the
    answers to the queries sent over HTTP come, the status indicator of the
    panel shows [Loading] exactly while [loading] is set. *)
Theorem indicator_follows_loading (ts : string) (constructor_throws : bool)
    (acts : list action) :
  let v := view (steps acts (mount ts constructor_throws)) in
  loading v = true <-> status v = Loading.
Proof.
  cbv zeta. change (indicator_agrees (view (steps acts (mount ts constructor_throws)))).
  assert (indicator_agrees (view (mount ts constructor_throws))) as Hinit.
  { unfold mount. destruct (owlApiService.connectWebSocket constructor_throws)
      as [c notices]. simpl. apply deliver_keeps_indicator.
    unfold indicator_agrees. simpl. split; discriminate. }
  revert Hinit. generalize (mount ts constructor_throws) as p. unfold steps.
  induction acts as [|a acts IH]; intros p Hp; simpl; [assumption|].
  apply IH. apply step_keeps_indicator. assumption.
Qed.

End Indicator.

(** ** The loading bubble *)

Section LoadingBubble.

Import ConversationPanel PanelInvariants.

Lemma loading_bubbles_app (l1 l2 : list Message) :
  loading_bubbles (l1 ++ l2) = loading_bubbles l1 + loading_bubbles l2.
Proof. unfold loading_bubbles. rewrite filter_app, length_app. reflexivity. Qed.

Lemma loading_bubbles_dropped (l : list Message) :
  loading_bubbles (drop_loading l) = 0.
Proof.
  unfold loading_bubbles, drop_loading.
  induction l as [|m l IH]; simpl; [reflexivity|].
  destruct (is_loading m) eqn:Hm; simpl; [assumption|].
  rewrite Hm. assumption.
Qed.

Lemma loading_bubbles_stamped (ts : string) (l : list Message) :
  loading_bubbles (map (with_timestamp ts) l) = loading_bubbles l.
Proof.
  unfold loading_bubbles.
  induction l as [|m l IH]; simpl; [reflexivity|].
  unfold is_loading in *. simpl.
  destruct (role m =? "loading")%string; simpl; rewrite IH; reflexivity.
Qed.

Lemma loading_bubbles_filtered (keep : Message -> bool) (l : list Message) :
  loading_bubbles (filter keep l) <= loading_bubbles l.
Proof.
  unfold loading_bubbles.
  induction l as [|m l IH]; simpl; [lia|].
  destruct (keep m); simpl; destruct (is_loading m); simpl; lia.
Qed.

Lemma loading_bubbles_replaced (m : Message) (l : list Message) :
  is_loading m = false -> loading_bubbles (replace_loading m l) = 0.
Proof.
  intros Hm. unfold replace_loading.
  rewrite loading_bubbles_app, loading_bubbles_dropped.
  unfold loading_bubbles. simpl. rewrite Hm. reflexivity.
Qed.

Lemma loading_bubbles_last (ts mode : string) (l : list Message) :
  loading_bubbles (update_last_loading ts mode l) = loading_bubbles l.
Proof.
  unfold update_last_loading.
  destruct (rev l) as [|lastMessage front] eqn:Hrev; [reflexivity|].
  destruct (is_loading lastMessage) eqn:Hlast; [|reflexivity].
  assert (l = rev front ++ [lastMessage]) as ->.
  { rewrite <- (rev_involutive l), Hrev. reflexivity. }
  rewrite removelast_last, !loading_bubbles_app.
  unfold loading_bubbles. simpl. rewrite Hlast. reflexivity.
Qed.

Lemma loading_bubbles_first (ts text : string) (l : list Message) :
  loading_bubbles (update_first_loading ts text l) = loading_bubbles l.
Proof.
  unfold loading_bubbles.
  induction l as [|m l IH]; simpl; [reflexivity|].
  destruct (is_loading m) eqn:Hm; simpl.
  - unfold is_loading in *. simpl. rewrite Hm. reflexivity.
  - rewrite Hm. assumption.
Qed.

Lemma tidy_keeps_bubble (st st' : state) :
  tidy st st' -> one_loading_bubble st -> one_loading_bubble st'.
Proof.
  unfold tidy, one_loading_bubble. intros [[Hl Hle] | Hzero] [Hone Hidle].
  - split; [lia|]. intros Hfalse. rewrite Hl in Hfalse. specialize (Hidle Hfalse). lia.
  - split; [lia | auto].
Qed.

Lemma on_completed_tidy (ts : string) (p : QueryPayload) (st : state) :
  clean_payload (Some p) -> tidy st (on_completed ts p st).
Proof.
  intros Hclean. right. unfold on_completed.
  assert (loading_bubbles
            (messages
               match nonempty_history p with
               | Some history => setMessages (merge_chat_history ts history) st
               | None =>
                   match usable_answer p with
                   | Some a =>
                       setMessages (replace_loading (mkMessage "assistant" a None (Some ts))) st
                   | None =>
                       setMessages (replace_loading (mkMessage "error"
                         "Empty response received. The browser process may have failed to return results."
                         None (Some ts))) st
                   end
               end) = 0) as Hzero.
  { unfold nonempty_history. simpl in Hclean.
    destruct (chat_history p) as [[|m l]|].
    - destruct (usable_answer p); simpl; apply loading_bubbles_replaced; reflexivity.
    - simpl. unfold merge_chat_history.
      rewrite loading_bubbles_app, loading_bubbles_dropped, loading_bubbles_stamped.
      rewrite Hclean. reflexivity.
    - destruct (usable_answer p); simpl; apply loading_bubbles_replaced; reflexivity. }
  destruct (token_info p); simpl; exact Hzero.
Qed.

Lemma handler_tidy (closure_loading : bool) (ts : string) (r : Push.response)
    (st : state) :
  clean_payload (Push.result r) ->
  tidy st (handleWebSocketMessage closure_loading ts r st).
Proof.
  intros Hclean. unfold handleWebSocketMessage.
  destruct (Push.type_is r "system" && Push.status_is r "connected").
  { left. simpl. split; [reflexivity | apply loading_bubbles_filtered]. }
  destruct (Push.type_is r "ack"); [left; split; [reflexivity | lia]|].
  destruct (Push.type_is r "status").
  - destruct (if Push.status_is r "completed" then Push.result r else None) as [p|] eqn:Hp.
    + apply on_completed_tidy.
      destruct (Push.status_is r "completed"); [|discriminate].
      rewrite Hp in Hclean. assumption.
    + destruct (Push.status_is r "error").
      { right. simpl. apply loading_bubbles_replaced. reflexivity. }
      destruct (Push.status_is r "processing"); [|left; split; [reflexivity | lia]].
      destruct (Push.browser_mode r) as [mode|]; [|left; split; [reflexivity | lia]].
      destruct (JS.truthy mode); left; simpl; split; try reflexivity; try lia.
      rewrite loading_bubbles_last. lia.
  - destruct (Push.type_is r "log").
    + destruct closure_loading; left; simpl; split; try reflexivity; try lia.
      rewrite loading_bubbles_first. lia.
    + destruct (Push.type_is r "error"); [|left; split; [reflexivity | lia]].
      right. simpl. apply loading_bubbles_replaced. reflexivity.
Qed.

Lemma deliver_keeps_bubble (ts : string) (notices : list Push.response) (st : state) :
  Forall (fun n => clean_payload (Push.result n)) notices ->
  one_loading_bubble st -> one_loading_bubble (deliver ts notices st).
Proof.
  unfold deliver. intros Hclean. revert st.
  induction Hclean as [|n notices Hn _ IH]; intros st Hone; simpl; [assumption|].
  apply IH. apply (tidy_keeps_bubble st); [apply handler_tidy | ]; assumption.
Qed.

Lemma handle_notices_clean (ev : owlApiService.event) (ts : string)
    (c : owlApiService.connection) :
  clean_action (Socket ev ts) ->
  Forall (fun n => clean_payload (Push.result n)) (snd (owlApiService.handle ev c)).
Proof.
  destruct c as [ws connected armed].
  destruct ev as [now throws | [data|] | | code | ]; simpl; intros Hclean;
    split_ifs; repeat constructor; assumption.
Qed.

Lemma handleSubmit_keeps_bubble (ts module : string) (throws : bool) (p : panel) :
  one_loading_bubble (view p) ->
  one_loading_bubble (view (fst (handleSubmit ts module throws p))).
Proof.
  intros Hone. unfold handleSubmit.
  destruct (negb (JS.truthy (JS.trim (input (view p)))) || loading (view p)) eqn:Hguard;
    [assumption|].
  apply orb_false_iff in Hguard as [_ Hidle].
  destruct Hone as [_ Hnone]. specialize (Hnone Hidle).
  assert (one_loading_bubble
            (setStatus Loading (setLoading true
               (setMessages
                  (fun prev =>
                     prev ++ [mkMessage "user" (JS.trim (input (view p))) None (Some ts);
                              mkMessage "loading" "Thinking..." None (Some ts)])
                  (setInput "" (view p)))))) as Hstarted.
  { split; simpl.
    - rewrite loading_bubbles_app, Hnone. reflexivity.
    - discriminate. }
  destruct (open_socket p) as [c|]; [|exact Hstarted].
  destruct (owlApiService.sendWebSocketQuery throws (owlApiService.socket c)
              (input (view p)) (Some module)) as [[|] ws]; exact Hstarted.
Qed.

Lemma resumed_keeps_bubble (k : nat) (ts : string)
    (r : JS.Completion owlApiService.QueryResult) (st : state) :
  clean_action (Answered k ts r) ->
  one_loading_bubble (handleSubmit_resumed ts r st).
Proof.
  intros Hclean. destruct r as [res|e].
  - assert (loading_bubbles (show_result ts res (messages st)) = 0) as Hzero.
    { unfold show_result. simpl in Hclean.
      destruct (owlApiService.result_chat_history res) as [[|m l]|].
      - rewrite loading_bubbles_app, loading_bubbles_dropped. reflexivity.
      - rewrite loading_bubbles_stamped. assumption.
      - rewrite loading_bubbles_app, loading_bubbles_dropped. reflexivity. }
    split; simpl; [lia | auto].
  - assert (loading_bubbles (messages (submit_failed ts e st)) = 0) as Hzero.
    { simpl. apply loading_bubbles_replaced. reflexivity. }
    split; [simpl in *; lia | intros _; exact Hzero].
Qed.

Lemma step_keeps_bubble (a : action) (p : panel) :
  clean_action a -> one_loading_bubble (view p) -> one_loading_bubble (view (step a p)).
Proof.
  intros Hclean Hone.
  destruct a as [ev ts | now throws | text | ts m throws | k ts r | ]; simpl.
  - destruct (conn p) as [c|]; [|assumption].
    pose proof (handle_notices_clean ev ts c Hclean) as Hnotices.
    destruct (owlApiService.handle ev c) as [c' notices]. simpl in *.
    apply deliver_keeps_bubble; assumption.
  - destruct (pingTimer p); [|assumption].
    destruct (open_socket p) as [c|]; [|assumption].
    destruct (owlApiService.sendWebSocketPing throws now (owlApiService.socket c)).
    assumption.
  - assumption.
  - apply handleSubmit_keeps_bubble; assumption.
  - destruct (nth_error (awaited p) k); [|assumption].
    apply (resumed_keeps_bubble k). assumption.
  - assumption.
Qed.

(** X2: As long as no transcript of the server, pushed or polled, contains
    a bubble of role [loading], the panel never shows two [Thinking...]
    bubbles, and shows none when [loading] is not set -- in whatever order
    submissions, socket events and the answers to the queries sent over
    HTTP come. *)
Theorem at_most_one_loading_bubble (ts : string) (constructor_throws : bool)
    (acts : list action) :
  Forall clean_action acts ->
  let v := view (steps acts (mount ts constructor_throws)) in
  length (filter is_loading (messages v)) <= 1 /\
  (loading v = false -> length (filter is_loading (messages v)) = 0).
Proof.
  intros Hclean. cbv zeta.
  change (one_loading_bubble (view (steps acts (mount ts constructor_throws)))).
  assert (one_loading_bubble (view (mount ts constructor_throws))) as Hinit.
  { unfold mount, owlApiService.connectWebSocket.
    destruct constructor_throws; simpl; split; vm_compute; auto. }
  revert Hinit. generalize (mount ts constructor_throws) as p. unfold steps.
  induction Hclean as [|a acts Ha _ IH]; intros p Hp; simpl; [assumption|].
  apply IH. apply step_keeps_bubble; assumption.
Qed.

End LoadingBubble.

Section LoadingBubbleWitness.

Import ConversationPanel PanelInvariants.

(** The invariant on a run in which the socket opens while the query sent
    over HTTP is under way, a second query is sent over the socket, and the
    answer to the first arrives after that. *)
Lemma at_most_one_loading_bubble_witness :
  let v :=
    view (steps [Typed "2+2"; Submit "10:01" "run_mini" false;
                 Socket (owlApiService.Opened 5 false) "10:02";
                 Socket (owlApiService.Received
                           (Some (error_notice SocketError))) "10:02";
                 Typed "3+3"; Submit "10:03" "run_mini" false;
                 Answered 0 "10:04"
                   (fst (owlApiService.runQuery "" answering_server
                           (owlApiService.mkQueryParams "2+2" (Some "run_mini"))))]
            (mount "10:00" false)) in
  length (filter is_loading (messages v)) <= 1 /\
  (loading v = false -> length (filter is_loading (messages v)) = 0).
Proof.
  apply (at_most_one_loading_bubble "10:00" false).
  repeat constructor.
Defined.

End LoadingBubbleWitness.

(** ** The connection layer seen from the panel *)

Section PanelConnection.

Import ConversationPanel PanelInvariants.

(** The panel keeps the connection it made at mount. *)
Lemma conn_kept (a : action) (p : panel) :
  match conn p with
  | Some c =>
      exists c', conn (step a p) = Some c' /\
        owlApiService.hasConnected c' = owlApiService.hasConnected c || opens a
  | None => conn (step a p) = None
  end.
Proof.
  destruct (conn p) as [c|] eqn:Hconn.
  - destruct a as [ev ts | now throws | text | ts m throws | k ts r | ]; simpl;
      rewrite ?orb_false_r.
    + rewrite Hconn.
      pose proof (hasConnected_handle ev c) as Hh.
      destruct (owlApiService.handle ev c) as [c' notices]. simpl in *. eauto.
    + destruct (pingTimer p); [|eauto].
      destruct (open_socket p) as [c0|] eqn:Hopen; [|eauto].
      assert (c0 = c) as ->.
      { unfold open_socket in Hopen. rewrite Hconn in Hopen.
        destruct (wsRef p && _); congruence. }
      destruct (owlApiService.sendWebSocketPing throws now (owlApiService.socket c)).
      simpl. eauto.
    + eauto.
    + unfold handleSubmit.
      destruct (negb (JS.truthy (JS.trim (input (view p)))) || loading (view p));
        [eauto|].
      destruct (open_socket p) as [c0|] eqn:Hopen; [|simpl; eauto].
      assert (c0 = c) as ->.
      { unfold open_socket in Hopen. rewrite Hconn in Hopen.
        destruct (wsRef p && _); congruence. }
      destruct (owlApiService.sendWebSocketQuery throws (owlApiService.socket c)
                  (input (view p)) (Some m)) as [[|] ws]; simpl; eauto.
    + destruct (nth_error (awaited p) k); simpl; eauto.
    + rewrite Hconn. destruct (wsRef p); simpl; eauto.
  - destruct a as [ev ts | now throws | text | ts m throws | k ts r | ]; simpl;
      rewrite ?Hconn; auto.
    + unfold open_socket. rewrite Hconn. destruct (pingTimer p); auto.
    + unfold handleSubmit, open_socket. rewrite Hconn.
      destruct (negb (JS.truthy (JS.trim (input (view p)))) || loading (view p));
        auto.
    + destruct (nth_error (awaited p) k); simpl; auto.
    + destruct (wsRef p); reflexivity.
Qed.

Lemma conn_after (acts : list action) (p : panel) :
  match conn p with
  | Some c =>
      exists c', conn (steps acts p) = Some c' /\
        owlApiService.hasConnected c' = owlApiService.hasConnected c || existsb opens acts
  | None => conn (steps acts p) = None
  end.
Proof.
  unfold steps. revert p. induction acts as [|a acts IH]; intros p; simpl.
  - destruct (conn p) as [c|]; [|reflexivity]. exists c. rewrite orb_false_r. auto.
  - pose proof (conn_kept a p) as Hstep. specialize (IH (step a p)).
    destruct (conn p) as [c|].
    + destruct Hstep as (c1 & Hc1 & Hh1). rewrite Hc1 in IH.
      destruct IH as (c' & Hc' & Hh'). exists c'. split; [assumption|].
      rewrite Hh', Hh1, orb_assoc. reflexivity.
    + rewrite Hstep in IH. assumption.
Qed.

(** X3: When the socket made at mount opens, whatever happened before, no
    bubble of a transport error is left on the panel. *)
Theorem open_clears_transport_bubbles (ts ts' : string) (acts : list action)
    (now : Z) (ping_throws : bool) :
  let p := step (Socket (owlApiService.Opened now ping_throws) ts')
             (steps acts (mount ts false)) in
  forall ts0 n, ~ In (error_bubble ts0 n) (messages (view p)).
Proof.
  cbv zeta. intros ts0 n.
  pose proof (conn_after acts (mount ts false)) as Hconn. simpl in Hconn.
  destruct Hconn as (c & Hc & _).
  simpl. rewrite Hc. unfold owlApiService.originalOnOpen.
  unfold WebSocket.send. destruct ping_throws; simpl; unfold clear_connection_errors;
    intros Hin; apply filter_In in Hin as [_ Hkeep];
    rewrite transport_bubble_is_connection_error in Hkeep; discriminate.
Qed.

(** X4: As long as the socket has not opened, its error and close events
    change nothing on the panel. *)
Theorem early_socket_failures_not_shown (ts ts' : string) (constructor_throws : bool)
    (acts : list action) :
  existsb opens acts = false ->
  let p := steps acts (mount ts constructor_throws) in
  view (step (Socket owlApiService.Errored ts') p) = view p /\
  forall code, view (step (Socket (owlApiService.Closed code) ts') p) = view p.
Proof.
  intros Hnever. cbv zeta.
  pose proof (conn_after acts (mount ts constructor_throws)) as Hconn.
  unfold mount, owlApiService.connectWebSocket in *.
  destruct constructor_throws; simpl in Hconn.
  - simpl. rewrite Hconn. auto.
  - destruct Hconn as (c & Hc & Hh). rewrite Hnever in Hh. simpl in Hh.
    simpl. rewrite Hc. simpl. rewrite Hh. simpl. split; [reflexivity|].
    intros code. rewrite andb_false_r. reflexivity.
Qed.

Lemma early_socket_failures_not_shown_witness :
  let p := steps [Typed "hello"; Socket owlApiService.TimeoutElapsed "10:01"]
             (mount "10:00" false) in
  view (step (Socket owlApiService.Errored "10:02") p) = view p /\
  forall code, view (step (Socket (owlApiService.Closed code) "10:02") p) = view p.
Proof.
  apply (early_socket_failures_not_shown "10:00" "10:02" false
           [Typed "hello"; Socket owlApiService.TimeoutElapsed "10:01"]).
  reflexivity.
Defined.

End PanelConnection.

(** ** What a submission leaves on the panel *)

Section SubmissionView.

Import ConversationPanel PanelInvariants.

(** Induction along [trim_start]: either nothing is removed, or one
    character of white space is and the rest is trimmed. *)
Lemma trim_start_cases (P : string -> Prop) :
  (forall s, JS.trim_start s = s -> P s) ->
  (forall a rest, JS.is_space a = true -> P rest -> P (String a rest)) ->
  (forall a b rest, JS.is_space a = false -> JS.is_space2 a b = true ->
     P rest -> P (String a (String b rest))) ->
  (forall a b c rest, JS.is_space a = false -> JS.is_space2 a b = false ->
     JS.is_space3 a b c = true -> P rest -> P (String a (String b (String c rest)))) ->
  forall s, P s.
Proof.
  intros Hkept H1 H2 H3 s.
  assert (forall n s, String.length s <= n -> P s) as Hlen.
  { induction n as [|n IH]; intros t Ht.
    - destruct t; [apply Hkept; reflexivity | simpl in Ht; lia].
    - destruct t as [|a rest]; [apply Hkept; reflexivity|].
      simpl in Ht.
      destruct (JS.is_space a) eqn:Ha; [apply H1; [assumption | apply IH; lia]|].
      destruct rest as [|b rest2];
        [apply Hkept; cbn [JS.trim_start]; rewrite Ha; reflexivity|].
      simpl in Ht.
      destruct (JS.is_space2 a b) eqn:Hab; [apply H2; auto; apply IH; lia|].
      destruct rest2 as [|c rest3];
        [apply Hkept; cbn [JS.trim_start]; rewrite Ha, Hab; reflexivity|].
      simpl in Ht.
      destruct (JS.is_space3 a b c) eqn:Habc; [apply H3; auto; apply IH; lia|].
      apply Hkept. cbn [JS.trim_start]. rewrite Ha, Hab, Habc. reflexivity. }
  apply (Hlen (String.length s)). lia.
Qed.

Lemma trim_start_idempotent (s : string) :
  JS.trim_start (JS.trim_start s) = JS.trim_start s.
Proof.
  induction s as [s Hs | a rest Ha IH | a b rest Ha Hab IH | a b c rest Ha Hab Habc IH]
    using trim_start_cases.
  - rewrite Hs. assumption.
  - cbn [JS.trim_start]. rewrite Ha. assumption.
  - cbn [JS.trim_start]. rewrite Ha, Hab. assumption.
  - cbn [JS.trim_start]. rewrite Ha, Hab, Habc. assumption.
Qed.

Lemma trim_start_blank (s : string) :
  JS.blank s = true -> JS.trim_start s = EmptyString.
Proof. unfold JS.blank. destruct (JS.trim_start s); [reflexivity | discriminate]. Qed.

Lemma trim_end_truthy (s : string) :
  JS.blank s = false -> JS.truthy (JS.trim_end s) = true.
Proof.
  destruct s as [|c rest]; [discriminate|].
  intros Hb. cbn [JS.trim_end]. rewrite Hb. reflexivity.
Qed.

(** [trim] leaves nothing exactly of the strings made of white space. *)
Lemma trim_truthy (s : string) : JS.truthy (JS.trim s) = negb (JS.blank s).
Proof.
  unfold JS.trim. destruct (JS.blank s) eqn:Hb.
  - rewrite trim_start_blank by assumption. reflexivity.
  - apply trim_end_truthy. unfold JS.blank in *.
    rewrite trim_start_idempotent. assumption.
Qed.

(** X9: A submission whose input is white space only (the white space
    [trim] removes, of one byte or more), or made while [loading] is set, is
    dropped: the panel and its socket stay as they are and [runQuery] is
    not called. *)
Theorem blank_or_pending_submission_dropped (ts module : string) (send_throws : bool)
    (p : panel) :
  JS.blank (input (view p)) || loading (view p) = true ->
  handleSubmit ts module send_throws p = (p, None) /\
  step (Submit ts module send_throws) p = p.
Proof.
  intros Hguard. unfold step, handleSubmit.
  rewrite trim_truthy, negb_involutive, Hguard. auto.
Qed.

(** The theorem on an input of a space, a no-break space and an ideographic
    space. *)
Lemma blank_or_pending_submission_dropped_witness :
  handleSubmit "10:01" "run" false (step (Typed wide_blank) (mount "10:00" false))
  = (step (Typed wide_blank) (mount "10:00" false), None) /\
  step (Submit "10:01" "run" false) (step (Typed wide_blank) (mount "10:00" false))
  = step (Typed wide_blank) (mount "10:00" false).
Proof.
  apply (blank_or_pending_submission_dropped "10:01" "run" false
           (step (Typed wide_blank) (mount "10:00" false))).
  reflexivity.
Defined.

Lemma poll_result_error_origin (env : owlApiService.RestEnv) (taskId : string)
    (remaining retries : nat) (e : JS.Error) :
  fst (owlApiService.poll_result env taskId remaining retries) = JS.Throw e ->
  JS.formattedMessage e = None \/
  exists k, retries < k <= retries + remaining /\
            owlApiService.status_answer env k = JS.Rejected e.
Proof.
  revert retries. induction remaining as [|n IH]; intros retries; simpl.
  - intros H. injection H as <-. left. reflexivity.
  - destruct (owlApiService.status_answer env (S retries)) as [data|e'] eqn:Hanswer.
    + destruct (owlApiService.info_status_is data "completed"); [discriminate|].
      destruct (owlApiService.info_status_is data "error").
      * simpl. intros H. injection H as <-. left. reflexivity.
      * specialize (IH (S retries)).
        destruct (owlApiService.poll_result env taskId n (S retries)) as [r reqs].
        simpl in *. intros H. destruct (IH H) as [Hnone | (k & Hk & Hrej)]; [auto|].
        right. exists k. split; [lia | assumption].
    + simpl. intros H. injection H as <-. right. exists (S retries). split; [lia | assumption].
Qed.

(** An error of [runQuery] is a rejection of one of its requests, or an
    error it made itself or the engine made, which has no formatted
    message. *)
Lemma runQuery_error_origin (type_error : string) (env : owlApiService.RestEnv)
    (params : owlApiService.QueryParams) (e : JS.Error) :
  fst (owlApiService.runQuery type_error env params) = JS.Throw e ->
  JS.formattedMessage e = None \/
  owlApiService.start_answer env = JS.Rejected e \/
  exists k, 1 <= k <= 60 /\ owlApiService.status_answer env k = JS.Rejected e.
Proof.
  unfold owlApiService.runQuery.
  destruct (owlApiService.start_answer env) as [[[taskId|]]|e'].
  - cbn [owlApiService.started_task_id]. destruct (JS.truthy taskId).
    + pose proof (poll_result_error_origin env taskId owlApiService.maxRetries 0) as Ho.
      destruct (owlApiService.poll_result env taskId owlApiService.maxRetries 0)
        as [[payload|e'] reqs]; cbn [fst JS.bind] in *.
      * destruct payload; simpl; [discriminate|].
        intros H. injection H as <-. left. reflexivity.
      * intros H. injection H as <-.
        destruct (Ho e' eq_refl) as [Hnone | (k & Hk & Hrej)]; [auto|].
        right. right. exists k. unfold owlApiService.maxRetries in Hk.
        split; [lia | assumption].
    + simpl. intros H. injection H as <-. left. reflexivity.
  - simpl. intros H. injection H as <-. left. reflexivity.
  - simpl. intros H. injection H as <-. right. left. reflexivity.
Qed.

(** X10: When the answer to a query sent over HTTP arrives, whatever has
    happened on the panel since the submission: with a transcript in the
    answer, the list of the panel becomes that transcript (the greeting,
    the earlier turns, the question itself and what arrived in between are
    gone unless the transcript has them); without one, the loading bubbles
    go and the answer is appended.  [loading] is reset, the status is
    success, the token text is that of the answer, and the input is left
    as it is. *)
Theorem polled_answer_shown (k : nat) (ts : string) (res : owlApiService.QueryResult)
    (p : panel) :
  k < length (awaited p) ->
  let p' := step (Answered k ts (JS.Return res)) p in
  let v := view p' in
  messages v =
    match owlApiService.result_chat_history res with
    | Some (m :: l) => map (with_timestamp ts) (m :: l)
    | _ =>
        filter (fun m => negb (role m =? "loading")%string) (messages (view p)) ++
        [mkMessage "assistant"
           (match owlApiService.result_answer res with Some a => a | None => "" end)
           None (Some ts)]
    end /\
  (input v, loading v, status v, tokenCount v)
    = (input (view p), false, Success, owlApiService.tokenCount res) /\
  length (awaited p') = length (awaited p) - 1.
Proof.
  intros Hk. cbv zeta. cbn [step].
  destruct (nth_error (awaited p) k) as [q|] eqn:Hq;
    [|apply nth_error_None in Hq; lia].
  cbn [view awaited]. split; [|split; [reflexivity|]].
  - simpl. unfold show_result.
    destruct (owlApiService.result_chat_history res) as [[|m l]|]; reflexivity.
  - unfold without. rewrite length_app, length_firstn, length_skipn. lia.
Qed.

(** X11: When a query sent over HTTP fails, whatever has happened on the
    panel since the submission: the loading bubbles go and one error bubble
    is appended, [loading] is reset and the status is the failure.  The
    text is the formatted message of the error when the error is a
    rejected request that carries one; every error [runQuery] raises
    itself -- the task ended in error, no task id, time-out, a completed
    task without result -- gives the same generic text, whatever the
    server said. *)
Theorem polled_failure_shown (k : nat) (ts type_error : string)
    (env : owlApiService.RestEnv) (params : owlApiService.QueryParams)
    (e : JS.Error) (p : panel) :
  k < length (awaited p) ->
  fst (owlApiService.runQuery type_error env params) = JS.Throw e ->
  let v := view (step (Answered k ts (JS.Throw e)) p) in
  messages v =
    filter (fun m => negb (role m =? "loading")%string) (messages (view p)) ++
    [mkMessage "error"
       (JS.or_else (JS.formattedMessage e) "An error occurred processing your request")
       None (Some ts)] /\
  (input v, loading v, status v) = (input (view p), false, Failed) /\
  (JS.or_else (JS.formattedMessage e) "An error occurred processing your request"
     = "An error occurred processing your request" \/
   owlApiService.start_answer env = JS.Rejected e \/
   exists j, 1 <= j <= 60 /\ owlApiService.status_answer env j = JS.Rejected e).
Proof.
  intros Hk Hres. cbv zeta. cbn [step].
  destruct (nth_error (awaited p) k) as [q|] eqn:Hq;
    [|apply nth_error_None in Hq; lia].
  cbn [view]. split; [reflexivity|]. split; [reflexivity|].
  destruct (runQuery_error_origin type_error env params e Hres) as [Hnone | Hrej]; [|auto].
  left. rewrite Hnone. reflexivity.
Qed.

(** X12: A submission the axios instance rejects makes [runQuery] throw the
    rejection after its one POST, and the bubble then shown is what the
    response interceptor made of the failure -- the status and message of
    the server, the no-response text, or the message of the set-up error
    (the generic text when that message is empty). *)
Theorem rejected_submission_shown (k : nat) (ts type_error : string)
    (env : owlApiService.RestEnv) (params : owlApiService.QueryParams)
    (f : owlApiService.AxiosFailure) (p : panel) :
  k < length (awaited p) ->
  owlApiService.start_answer env = JS.Rejected (owlApiService.intercept f) ->
  let r := owlApiService.runQuery type_error env params in
  snd r = [JS.POST "/run/async"
             [("query", JS.JStr (owlApiService.query params));
              ("module", JS.JStr (match owlApiService.module params with
                                  | Some m => m
                                  | None => "run"
                                  end))]] /\
  messages (view (step (Answered k ts (fst r)) p)) =
    filter (fun m => negb (role m =? "loading")%string) (messages (view p)) ++
    [mkMessage "error"
       match f with
       | owlApiService.BadStatus _ status data_message statusText =>
           "Server error: " ++ JS.show status ++ " - " ++
           JS.or_else data_message statusText
       | owlApiService.NoResponse _ =>
           "No response from server. Please check your connection or the server status."
       | owlApiService.SetupFailed m =>
           if JS.truthy m then m else "An error occurred processing your request"
       end None (Some ts)].
Proof.
  intros Hk Hstart. cbv zeta.
  assert (owlApiService.runQuery type_error env params
          = (JS.Throw (owlApiService.intercept f),
             [owlApiService.submit_request params])) as ->
    by (unfold owlApiService.runQuery; rewrite Hstart; reflexivity).
  split; [reflexivity|]. cbn [fst step].
  destruct (nth_error (awaited p) k) as [q|] eqn:Hq;
    [|apply nth_error_None in Hq; lia].
  cbn [view]. simpl. unfold replace_loading, drop_loading, is_loading.
  do 3 f_equal. destruct f as [msg status [dm|] st | msg | msg]; simpl.
  - unfold JS.or_opt. simpl. destruct (JS.truthy dm); reflexivity.
  - reflexivity.
  - reflexivity.
  - destruct msg; reflexivity.
Qed.

End SubmissionView.

Section SubmissionViewWitnesses.

Import ConversationPanel PanelInvariants.

(** The theorem on a panel where the time-out notice of the socket landed
    while the query was under way: the answer comes after the error
    bubble. *)
Lemma polled_answer_shown_witness :
  let p' := step (Answered 0 "10:02" (JS.Return four_result)) waiting_panel in
  let v := view p' in
  messages v =
    [mkMessage "assistant" "How can I help you today?" None (Some "10:00");
     mkMessage "user" "2+2" None (Some "10:01");
     mkMessage "error"
       "Failed to connect to the server via WebSocket. Falling back to HTTP API."
       None (Some "10:01");
     mkMessage "assistant" "4" None (Some "10:02")] /\
  (input v, loading v, status v, tokenCount v)
    = ("", false, Success, "Completion: 0 | Prompt: 0 | Total: 0") /\
  length (awaited p') = 0.
Proof.
  apply (polled_answer_shown 0 "10:02" four_result waiting_panel).
  vm_compute. lia.
Defined.

(** The theorem on the server whose task ends in error with the text
    [boom]: the bubble has the generic text. *)
Lemma polled_failure_shown_witness :
  let e := JS.new_Error "boom" in
  let v := view (step (Answered 0 "10:02" (JS.Throw e)) waiting_panel) in
  messages v =
    filter (fun m => negb (role m =? "loading")%string) (messages (view waiting_panel)) ++
    [mkMessage "error" "An error occurred processing your request" None (Some "10:02")] /\
  (input v, loading v, status v) = ("", false, Failed) /\
  (JS.or_else (JS.formattedMessage e) "An error occurred processing your request"
     = "An error occurred processing your request" \/
   owlApiService.start_answer failing_server = JS.Rejected e \/
   exists j, 1 <= j <= 60 /\ owlApiService.status_answer failing_server j = JS.Rejected e).
Proof.
  apply (polled_failure_shown 0 "10:02" "" failing_server
           (owlApiService.mkQueryParams "2+2" (Some "run_mini"))
           (JS.new_Error "boom") waiting_panel).
  - vm_compute. lia.
  - reflexivity.
Defined.

(** The theorem on a server that cannot be reached. *)
Lemma rejected_submission_shown_witness :
  let r := owlApiService.runQuery "" unreachable_server
             (owlApiService.mkQueryParams "2+2" (Some "run_mini")) in
  snd r = [JS.POST "/run/async" [("query", JS.JStr "2+2"); ("module", JS.JStr "run_mini")]] /\
  messages (view (step (Answered 0 "10:02" (fst r)) waiting_panel)) =
    filter (fun m => negb (role m =? "loading")%string) (messages (view waiting_panel)) ++
    [mkMessage "error"
       "No response from server. Please check your connection or the server status."
       None (Some "10:02")].
Proof.
  apply (rejected_submission_shown 0 "10:02" "" unreachable_server
           (owlApiService.mkQueryParams "2+2" (Some "run_mini"))
           (owlApiService.NoResponse "Network Error") waiting_panel).
  - vm_compute. lia.
  - reflexivity.
Defined.

End SubmissionViewWitnesses.

(** ** The task viewer *)

Section Viewer.

Import TaskViewer.

Variable env : taskService.PollEnv.
Variable taskId : string.
Variables pollInterval maxPollDuration : Z.
Variable onTaskComplete : bool.
Variable startTime : Z.

Let loop := poll_loop env taskId pollInterval maxPollDuration onTaskComplete startTime.
Let clock := clock_at env pollInterval startTime.
Let fetch := JS.GET (taskService.status_url taskId) [].
Let in_time (k : nat) : Prop := (clock k - startTime < maxPollDuration)%Z.

Lemma viewer_loop_unfold (fuel k : nat) (now : Z) (st : state) :
  loop (S fuel) k now st =
  if (now - startTime <? maxPollDuration)%Z then
    match taskService.answer_of env k with
    | JS.Rejected e =>
        match loop fuel (S k)
                (now + taskService.latency env k + Z.max 0 (pollInterval * 5)
                 + taskService.oversleep env k)%Z
                (mkState (task st)
                   (Some (JS.or_else
                            (Some (JS.message
                               (JS.new_Error
                                  (JS.or_else (Some (JS.message e))
                                     "Error checking task status"))))
                            "Error fetching task status"))
                   (isPolling st)) with
        | Some r => Some (mkRun (final r) (completed r) (fetch :: requests r) (finished_at r))
        | None => None
        end
    | JS.Resolved t =>
        if taskService.is_terminal (taskService.status t)
        then Some (mkRun (mkState (Some t) None (isPolling st))
                     (if onTaskComplete then [t] else []) [fetch]
                     (now + taskService.latency env k)%Z)
        else
          match loop fuel (S k)
                  (now + taskService.latency env k + Z.max 0 pollInterval
                   + taskService.oversleep env k)%Z
                  (mkState (Some t) None (isPolling st)) with
          | Some r =>
              Some (mkRun (final r) (completed r) (fetch :: requests r) (finished_at r))
          | None => None
          end
    end
  else Some (mkRun st [] [] now).
Proof.
  subst loop. cbn [poll_loop]. unfold fetchTaskStatus, taskService.getTaskStatus.
  destruct (now - startTime <? maxPollDuration)%Z; [|reflexivity].
  destruct (taskService.answer_of env k) as [t|e]; [|reflexivity].
  destruct (taskService.is_terminal (taskService.status t)); reflexivity.
Qed.

Lemma viewer_clock_succ (k : nat) :
  clock (S k) =
  (clock k + taskService.latency env k +
   Z.max 0 (match taskService.answer_of env k with
            | JS.Rejected _ => pollInterval * 5
            | JS.Resolved _ => pollInterval
            end) + taskService.oversleep env k)%Z.
Proof. reflexivity. Qed.

(** How a run of the loop ends: out of time at iteration [n] with nothing
    handed to the callback, or with the terminal snapshot of the n-th
    fetch. *)
Lemma viewer_loop_run (fuel k : nat) (st : state) (r : run) :
  loop fuel k (clock k) st = Some r ->
  isPolling (final r) = isPolling st /\
  exists n, k <= n /\
    (forall j, k <= j < n -> in_time j /\ goes_on env j) /\
    ((~ in_time n /\ completed r = [] /\ requests r = repeat fetch (n - k)) \/
     (in_time n /\
      exists t, taskService.answer_of env n = JS.Resolved t /\
        taskService.is_terminal (taskService.status t) = true /\
        completed r = (if onTaskComplete then [t] else []) /\
        (task (final r), error (final r)) = (Some t, None) /\
        requests r = repeat fetch (S n - k))).
Proof.
  revert k st r.
  induction fuel as [|fuel IH]; intros k st r Hrun; [discriminate|].
  rewrite viewer_loop_unfold in Hrun.
  destruct (clock k - startTime <? maxPollDuration)%Z eqn:Hw.
  - apply Z.ltb_lt in Hw.
    assert (forall st1 delay,
      (delay = match taskService.answer_of env k with
               | JS.Rejected _ => pollInterval * 5
               | JS.Resolved _ => pollInterval
               end)%Z ->
      goes_on env k ->
      isPolling st1 = isPolling st ->
      forall r',
      loop fuel (S k)
        (clock k + taskService.latency env k + Z.max 0 delay
         + taskService.oversleep env k)%Z st1 = Some r' ->
      let r0 := mkRun (final r') (completed r') (fetch :: requests r') (finished_at r') in
      isPolling (final r0) = isPolling st /\
      exists n, k <= n /\
        (forall j, k <= j < n -> in_time j /\ goes_on env j) /\
        ((~ in_time n /\ completed r0 = [] /\ requests r0 = repeat fetch (n - k)) \/
         (in_time n /\
          exists t, taskService.answer_of env n = JS.Resolved t /\
            taskService.is_terminal (taskService.status t) = true /\
            completed r0 = (if onTaskComplete then [t] else []) /\
            (task (final r0), error (final r0)) = (Some t, None) /\
            requests r0 = repeat fetch (S n - k)))) as Hcontinue.
    { intros st1 delay Hdelay Hgoes Hst1 r' Hrec. cbv zeta. cbn [final completed requests].
      rewrite Hdelay, <- viewer_clock_succ in Hrec.
      apply IH in Hrec as (Hpolling & n & Hle & Hbefore & Hend).
      split; [congruence|].
      exists n. split; [lia|]. split.
      { intros j Hj. destruct (Nat.eq_dec j k) as [->|Hne]; [auto|]. apply Hbefore. lia. }
      destruct Hend as [(Hout & Hc & Hr) | (Hin & t & Ha & Ht & Hc & Hf & Hr)].
      - left. split; [assumption|]. split; [assumption|]. rewrite Hr.
        replace (n - k) with (S (n - S k)) by lia. reflexivity.
      - right. split; [assumption|]. exists t. repeat split; try assumption.
        rewrite Hr. replace (S n - k) with (S (S n - S k)) by lia. reflexivity. }
    destruct (taskService.answer_of env k) as [t|e] eqn:Hanswer.
    + destruct (taskService.is_terminal (taskService.status t)) eqn:Hterm.
      * injection Hrun as <-. split; [reflexivity|].
        exists k. split; [lia|]. split; [intros j Hj; lia|].
        right. split; [exact Hw|]. exists t. repeat split; try assumption.
        cbn [requests]. replace (S k - k) with 1 by lia. reflexivity.
      * destruct (loop fuel (S k) _ _) as [r'|] eqn:Hrec; [|discriminate].
        injection Hrun as <-.
        apply (Hcontinue _ pollInterval eq_refl) in Hrec; [exact Hrec | | reflexivity].
        unfold goes_on. rewrite Hanswer. assumption.
    + destruct (loop fuel (S k) _ _) as [r'|] eqn:Hrec; [|discriminate].
      injection Hrun as <-.
      apply (Hcontinue _ (pollInterval * 5)%Z eq_refl) in Hrec; [exact Hrec | | reflexivity].
      unfold goes_on. rewrite Hanswer. exact I.
  - apply Z.ltb_ge in Hw. injection Hrun as <-. split; [reflexivity|].
    exists k. split; [lia|]. split; [intros j Hj; lia|].
    left. split; [unfold in_time; lia|]. split; [reflexivity|].
    cbn [requests]. rewrite Nat.sub_diag. reflexivity.
Qed.

Hypothesis interval_positive : (0 < pollInterval)%Z.
Hypothesis latency_nonneg : forall k, (0 <= taskService.latency env k)%Z.
Hypothesis oversleep_nonneg : forall k, (0 <= taskService.oversleep env k)%Z.

Lemma viewer_clock_monotone (j k : nat) : j <= k -> (clock j <= clock k)%Z.
Proof.
  induction 1 as [|k Hle IH]; [lia|].
  rewrite viewer_clock_succ.
  pose proof (latency_nonneg k). pose proof (oversleep_nonneg k).
  destruct (taskService.answer_of env k); lia.
Qed.

Lemma viewer_loop_total (fuel k : nat) (now : Z) (st : state) :
  (maxPollDuration - (now - startTime) <= Z.of_nat fuel * pollInterval)%Z ->
  exists r, loop (S fuel) k now st = Some r.
Proof.
  revert k now st.
  induction fuel as [|fuel IH]; intros k now st Hleft; rewrite viewer_loop_unfold.
  - destruct (now - startTime <? maxPollDuration)%Z eqn:Hw; [|eauto].
    apply Z.ltb_lt in Hw. simpl in Hleft. lia.
  - destruct (now - startTime <? maxPollDuration)%Z eqn:Hw; [|eauto].
    rewrite Nat2Z.inj_succ, Z.mul_succ_l in Hleft.
    pose proof (latency_nonneg k). pose proof (oversleep_nonneg k).
    destruct (taskService.answer_of env k) as [t|e].
    + destruct (taskService.is_terminal (taskService.status t)); [eauto|].
      match goal with
      | |- context [loop (S fuel) (S k) ?now' ?st'] =>
          destruct (IH (S k) now' st') as [r Hr]; [lia | rewrite Hr; eauto]
      end.
    + match goal with
      | |- context [loop (S fuel) (S k) ?now' ?st'] =>
          destruct (IH (S k) now' st') as [r Hr]; [lia | rewrite Hr; eauto]
      end.
Qed.

(** The loop of the viewer, given enough fuel. *)
Lemma viewer_loop_spec (fuel : nat) (st : state) :
  (maxPollDuration <= Z.of_nat fuel * pollInterval)%Z ->
  exists r,
    loop (S fuel) 0 startTime st = Some r /\
    isPolling (final r) = isPolling st /\
    Forall (fun q => q = fetch) (requests r) /\
    length (completed r) <= 1 /\
    (forall t, In t (completed r) ->
       taskService.is_terminal (taskService.status t) = true /\
       (task (final r), error (final r)) = (Some t, None)) /\
    (forall n t,
       reaches env pollInterval maxPollDuration startTime n ->
       taskService.answer_of env n = JS.Resolved t ->
       taskService.is_terminal (taskService.status t) = true ->
       completed r = (if onTaskComplete then [t] else []) /\
       (task (final r), error (final r)) = (Some t, None) /\
       length (requests r) = S n).
Proof.
  intros Hfuel.
  destruct (viewer_loop_total fuel 0 startTime st) as [r Hrun]; [lia|].
  exists r. split; [assumption|].
  destruct (viewer_loop_run (S fuel) 0 st r Hrun) as (Hpolling & n & _ & Hbefore & Hend).
  split; [assumption|]. split; [|split; [|split]].
  - apply Forall_forall. intros q Hq.
    destruct Hend as [(_ & _ & Hr) | (_ & t & _ & _ & _ & _ & Hr)];
      rewrite Hr in Hq; apply repeat_spec in Hq; assumption.
  - destruct Hend as [(_ & -> & _) | (_ & t & _ & _ & -> & _)];
      [simpl; lia | destruct onTaskComplete; simpl; lia].
  - intros t0 Hin.
    destruct Hend as [(_ & Hc & _) | (_ & t & _ & Ht & Hc & Hf & _)];
      rewrite Hc in Hin; [contradiction|].
    destruct onTaskComplete; [|contradiction].
    destruct Hin as [<- | []]. auto.
  - intros n0 t0 [Hin0 Hearlier] Hanswer Hterm.
    destruct (Nat.lt_trichotomy n n0) as [Hlt | [Heq | Hgt]].
    + exfalso. specialize (Hearlier n Hlt). unfold goes_on in Hearlier.
      destruct Hend as [(Hout & _) | (_ & t & Ha & Ht & _)].
      * apply Hout. unfold in_time.
        pose proof (viewer_clock_monotone n n0) as Hm. subst clock. cbv beta in *.
        specialize (Hm ltac:(lia)). lia.
      * rewrite Ha in Hearlier. congruence.
    + subst n0.
      destruct Hend as [(Hout & _) | (_ & t & Ha & _ & Hc & Hf & Hr)].
      * exfalso. apply Hout. exact Hin0.
      * rewrite Hanswer in Ha. injection Ha as <-.
        split; [assumption|]. split; [assumption|].
        rewrite Hr, repeat_length. lia.
    + exfalso. destruct (Hbefore n0) as [_ Hgoes]; [lia|].
      unfold goes_on in Hgoes. rewrite Hanswer in Hgoes. congruence.
Qed.

End Viewer.

Section ViewerClaims.

Import TaskViewer.

(** X13: With a positive interval the polling of the viewer ends and leaves
    [isPolling] false; it only reads the status; it hands at most one
    snapshot to [onTaskComplete], a terminal one, which is then the one on
    display with no error.  A rejected fetch does not end it: the first
    terminal snapshot is delivered whenever its fetch starts before
    [maxPollDuration] has run out, each rejected fetch before it costing
    five intervals of sleep and each other one. *)
Theorem viewer_polling_delivers_once
    (env : taskService.PollEnv) (taskId : string)
    (pollInterval maxPollDuration : option Z) (onTaskComplete : bool)
    (startTime : Z) (fuel : nat) (st : state) :
  let i := taskService.or_default pollInterval 1000 in
  let d := taskService.or_default maxPollDuration 300000 in
  (0 < i)%Z ->
  (forall k, 0 <= taskService.latency env k)%Z ->
  (forall k, 0 <= taskService.oversleep env k)%Z ->
  (d <= Z.of_nat fuel * i)%Z ->
  exists r,
    pollTaskCompletion env taskId pollInterval maxPollDuration onTaskComplete
      startTime (S fuel) false st = Some r /\
    isPolling (final r) = false /\
    Forall (fun q => q = JS.GET (taskService.status_url taskId) []) (requests r) /\
    length (completed r) <= 1 /\
    (forall t, In t (completed r) ->
       taskService.is_terminal (taskService.status t) = true /\
       (task (final r), error (final r)) = (Some t, None)) /\
    (forall n t,
       reaches env i d startTime n ->
       taskService.answer_of env n = JS.Resolved t ->
       taskService.is_terminal (taskService.status t) = true ->
       completed r = (if onTaskComplete then [t] else []) /\
       (task (final r), error (final r)) = (Some t, None) /\
       length (requests r) = S n).
Proof.
  cbv zeta. intros Hpos Hlat Hover Hfuel. unfold pollTaskCompletion.
  destruct (viewer_loop_spec env taskId _ _ onTaskComplete startTime Hpos Hlat Hover fuel
              (mkState (task st) (error st) true) Hfuel)
    as (r & Hrun & Hpolling & Hreqs & Hone & Hshown & Hfirst).
  rewrite Hrun. eexists. split; [reflexivity|]. cbn [final completed requests task error isPolling].
  repeat split; try assumption.
  - apply Hshown. assumption.
  - apply Hshown. assumption.
  - apply (Hfirst n t); assumption.
  - apply (Hfirst n t); assumption.
  - apply (Hfirst n t); assumption.
Qed.

(** The theorem on a server whose first answer is lost. *)
Lemma viewer_polling_delivers_once_witness :
  exists r,
    pollTaskCompletion flaky_env "t1" None None true 0 301 false initial = Some r /\
    isPolling (final r) = false /\
    Forall (fun q => q = JS.GET (taskService.status_url "t1") []) (requests r) /\
    length (completed r) <= 1 /\
    (forall t, In t (completed r) ->
       taskService.is_terminal (taskService.status t) = true /\
       (task (final r), error (final r)) = (Some t, None)) /\
    (forall n t,
       reaches flaky_env 1000 300000 0 n ->
       taskService.answer_of flaky_env n = JS.Resolved t ->
       taskService.is_terminal (taskService.status t) = true ->
       completed r = (if true then [t] else []) /\
       (task (final r), error (final r)) = (Some t, None) /\
       length (requests r) = S n).
Proof.
  apply (viewer_polling_delivers_once flaky_env "t1" None None true 0 300 initial).
  - reflexivity.
  - intros k. simpl. lia.
  - intros k. simpl. lia.
  - vm_compute. discriminate.
Defined.

(** The run on that server: the lost answer costs five seconds, the third
    fetch delivers the completed task. *)
Example flaky_run :
  pollTaskCompletion flaky_env "t1" None None true 0 301 false initial
  = Some (mkRun (mkState (Some (snapshot "t1" COMPLETED)) None false)
            [snapshot "t1" COMPLETED] (repeat (JS.GET "/tasks/t1" []) 3) 6060).
Proof. vm_compute. reflexivity. Qed.

End ViewerClaims.

(** ** Submitting a task *)

Section Execute.

Lemma or_else_truthy (a : option string) (d : string) :
  JS.truthy d = true -> JS.truthy (JS.or_else a d) = true.
Proof.
  intros Hd. unfold JS.or_else. destruct a as [s|]; [|assumption].
  destruct (JS.truthy s) eqn:Hs; assumption.
Qed.

(** X14: [executeTask] posts the request once.  It returns exactly when the
    call resolved with a body other than [null] whose status is not
    [error], and the id it returns is [task_id], or [taskId] when [task_id]
    is missing or empty.  Every error it throws has a message that is not
    empty -- the text of the server, the message of the rejection or of the
    engine, or [Error executing task] -- and no formatted message. *)
Theorem executeTask_outcome {Request : Type} (type_error : string) (request : Request)
    (answer : JS.Axios (option taskService.Executed)) :
  snd (taskService.executeTask type_error request answer) = [("/tasks/execute", request)] /\
  (forall r,
     fst (taskService.executeTask type_error request answer) = JS.Return r <->
     exists data,
       answer = JS.Resolved (Some data) /\
       taskService.executed_status data <> Some "error" /\
       r = taskService.mkSubmitted
             (JS.or_opt (taskService.task_id data) (taskService.taskId data))) /\
  (forall e,
     fst (taskService.executeTask type_error request answer) = JS.Throw e ->
     JS.truthy (JS.message e) = true /\ JS.formattedMessage e = None).
Proof.
  split; [reflexivity|]. unfold taskService.executeTask. cbn [fst].
  assert (forall m : string,
            JS.truthy (JS.message (JS.new_Error
              (JS.or_else (Some m) "Error executing task"))) = true) as Hmessage
    by (intros m; cbn [JS.message JS.new_Error]; apply or_else_truthy; reflexivity).
  destruct answer as [[data|]|e0]; simpl.
  - unfold taskService.executed_is_error.
    destruct (taskService.executed_status data) as [s|] eqn:Hs.
    + destruct (s =? "error")%string eqn:Heq; simpl.
      * apply String.eqb_eq in Heq. subst s. split.
        -- intros r. split; [discriminate|].
           intros (d & Hd & Hne & _). injection Hd as <-. congruence.
        -- intros e H. injection H as <-. split; [apply Hmessage | reflexivity].
      * split.
        -- intros r. split.
           ++ intros H. injection H as <-. exists data. split; [reflexivity|].
              split; [|reflexivity]. rewrite Hs. intros Hc. injection Hc as ->.
              discriminate.
           ++ intros (d & Hd & _ & ->). injection Hd as <-. reflexivity.
        -- discriminate.
    + split.
      * intros r. split.
        -- intros H. injection H as <-. exists data. split; [reflexivity|].
           split; [|reflexivity]. rewrite Hs. discriminate.
        -- intros (d & Hd & _ & ->). injection Hd as <-. reflexivity.
      * discriminate.
  - split.
    + intros r. split; [discriminate|]. intros (d & Hd & _). discriminate.
    + intros e H. injection H as <-. split; [apply Hmessage | reflexivity].
  - split.
    + intros r. split; [discriminate|]. intros (d & Hd & _). discriminate.
    + intros e H. injection H as <-. split; [apply Hmessage | reflexivity].
Qed.

Import TaskExecutor.

(** X15: [handleSubmit] of the task form: a query of white space only does
    nothing; any other is posted once as a [user_query], after which
    [isSubmitting] is false again and the query is still in the form.  If
    the call was accepted the error is cleared and [taskId] is what
    [executeTask] returned; if not, [taskId] is unchanged and a non-empty
    error text is shown. *)
Theorem task_form_submission {Context : Type} (type_error : string) (contextData : Context)
    (answer : JS.Axios (option taskService.Executed)) (st : state) :
  let st' := fst (handleSubmit type_error contextData answer st) in
  let log := snd (handleSubmit type_error contextData answer st) in
  if JS.blank (query st) then st' = st /\ log = []
  else
    log = [("/tasks/execute", mkRequest "user_query" (query st) contextData)] /\
    isSubmitting st' = false /\ query st' = query st /\
    match fst (taskService.executeTask type_error
                 (mkRequest "user_query" (query st) contextData) answer) with
    | JS.Return r =>
        taskId st' = Some (taskService.submitted_taskId r) /\ error st' = None
    | JS.Throw _ =>
        taskId st' = taskId st /\
        exists text, error st' = Some text /\ JS.truthy text = true
    end.
Proof.
  cbv zeta. unfold handleSubmit. rewrite trim_truthy, negb_involutive.
  destruct (JS.blank (query st)); [split; reflexivity|].
  destruct (taskService.executeTask type_error
              (mkRequest "user_query" (query st) contextData) answer)
    as [[r|e] log] eqn:Hexec; cbn [fst snd].
  - assert (log = snd (taskService.executeTask type_error
                         (mkRequest "user_query" (query st) contextData) answer)) as ->
      by (rewrite Hexec; reflexivity).
    repeat split.
  - assert (log = snd (taskService.executeTask type_error
                         (mkRequest "user_query" (query st) contextData) answer)) as ->
      by (rewrite Hexec; reflexivity).
    repeat split. eexists. split; [reflexivity|].
    apply or_else_truthy. reflexivity.
Qed.



(** A query made of no-break spaces only is dropped like the empty one. *)
Example no_break_spaces_are_blank :
  let nbsp := String (ascii_of_nat 194) (String (ascii_of_nat 160) EmptyString) in
  JS.blank (nbsp ++ " " ++ nbsp) = true /\
  handleSubmit "" tt (JS.Resolved None) (mkState (nbsp ++ nbsp) None false None)
  = (mkState (nbsp ++ nbsp) None false None, []).
Proof. split; reflexivity. Qed.

End Execute.

(** ** The browser test page and the session service *)

Section BrowserPage.

Import BrowserTest.

Lemma settle_in_step (fallback text : string)
    (answer : JS.Axios browserService.BrowserResponse) (st : state)
    (service : browserService.state) :
  in_step (st, service) ->
  in_step (shown text (snd (browserService.settle fallback answer service)) st,
           fst (browserService.settle fallback answer service)).
Proof.
  unfold in_step. simpl. intros [Hagree Htruthy].
  destruct answer as [data|e]; simpl.
  - destruct (browserService.session_id data) as [s|]; simpl.
    + destruct (JS.truthy s) eqn:Hs; simpl.
      * split; [reflexivity|]. intros s' H. injection H as <-. assumption.
      * split; assumption.
    + split; assumption.
  - split; assumption.
Qed.

Lemma step_in_step (a : action) (w : world) :
  in_step w -> in_step (fst (step a w)).
Proof.
  destruct w as [st service]. intros Hin.
  destruct a as [answer | answer | answer | answer | answer | v | v | v | v];
    try exact Hin; simpl.
  1-4: match goal with
       | |- context [shown ?text _ _] =>
           match goal with
           | Hw : in_step (?st0, ?sv) |- context [browserService.settle ?fb ?ans ?sv] =>
               pose proof (settle_in_step fb text ans st0 sv Hw) as H;
               destruct (browserService.settle fb ans sv) as [s r]; exact H
           end
       end.
  destruct Hin as [Hagree Htruthy]. simpl in *.
  { 
    destruct (JS.truthy_opt (sessionId st)) eqn:Hs; simpl; [|split; assumption].
    destruct (sessionId st) as [sid|] eqn:Hsid; [|discriminate].
    simpl in Hs. subst service.
    unfold browserService.closeSession, browserService._getSessionId, JS.or_opt.
    simpl. rewrite Hs. simpl.
    destruct answer as [data|e]; simpl.
    + rewrite ?String.eqb_refl, ?andb_true_r.
      destruct (browserService.success data) eqn:Hok; simpl;
        rewrite ?Hs, ?Hok; simpl; rewrite ?Hok; simpl.
      * split; [reflexivity | discriminate].
      * split; [reflexivity | exact Htruthy].
    + rewrite ?Hs. simpl. split; [reflexivity | exact Htruthy]. }
Qed.

(** X17: Whatever is done on the page and whatever the server answers, the
    session id the page shows is the one the service has stored, and it is
    never the empty string. *)
Theorem page_and_service_agree (acts : list action) :
  in_step (steps acts (initial, browserService.initial)).
Proof.
  assert (in_step (initial, browserService.initial)) as Hinit.
  { split; [reflexivity | discriminate]. }
  revert Hinit. generalize (initial, browserService.initial) as w. unfold steps.
  induction acts as [|a acts IH]; intros w Hw; simpl; [assumption|].
  apply IH. apply step_in_step. assumption.
Qed.

Lemma step_banner (a : action) (w : world) :
  In (message (fst w)) banner_texts -> In (message (fst (fst (step a w)))) banner_texts.
Proof.
  destruct w as [st service]. unfold banner_texts.
  destruct a as [answer | answer | answer | answer | answer | v | v | v | v];
    try (simpl; tauto);
    try (simpl;
         match goal with
         | |- context [browserService.settle ?fb ?ans ?sv] =>
             destruct (browserService.settle fb ans sv) as [s r]
         end; simpl; tauto).
  simpl. destruct (negb (JS.truthy_opt (sessionId st))); simpl; [tauto|].
  destruct (browserService.closeSession (sessionId st) answer service) as [[s r] q].
  simpl. destruct (browserService.success r); simpl; tauto.
Qed.

(** X18: The banner of the page never turns red: the handlers leave one of
    eight texts, none of which contains [failed] or [error] -- the service
    never throws, so the failure texts of the first four handlers cannot
    appear.  A rejected navigation, for one, is reported as successful
    while the result on display says [success: false]. *)
Theorem banner_never_red (acts : list action) (w : world)
    (e : JS.Error) :
  banner_red (message (fst (steps acts (initial, browserService.initial)))) = false /\
  (let st' := fst (fst (handleNavigate (JS.Rejected e) w)) in
   message st' = "Navigation successful" /\
   option_map browserService.success (result st') = Some false).
Proof.
  split.
  - assert (In (message (fst (steps acts (initial, browserService.initial)))) banner_texts)
      as Hin.
    { assert (In (message (fst (initial, browserService.initial))) banner_texts) as Hinit
        by (left; reflexivity).
      revert Hinit. generalize (initial, browserService.initial) as w0. unfold steps.
      induction acts as [|a acts IH]; intros w0 Hw; simpl; [assumption|].
      apply IH. apply step_banner. assumption. }
    unfold banner_texts in Hin. simpl in Hin.
    repeat (destruct Hin as [<- | Hin]; [vm_compute; reflexivity|]). contradiction.
  - destruct w as [st service]. simpl. auto.
Qed.

(** X19: On a page in step with the service, the requests of [handleNavigate],
    [handleExtract] and [handlePerformAction] carry the session the page
    shows (null when it shows none), and [handleCloseSession] makes no
    request when the page shows no session and posts the shown one
    otherwise. *)
Theorem page_requests_carry_session (answer : JS.Axios browserService.BrowserResponse)
    (w : world) :
  in_step w ->
  let shown_session := Some (JS.jstr_opt (sessionId (fst w))) in
  map browserService.carried_session (snd (handleNavigate answer w)) = [shown_session] /\
  map browserService.carried_session (snd (handleExtract answer w)) = [shown_session] /\
  map browserService.carried_session (snd (handlePerformAction answer w)) = [shown_session] /\
  map browserService.carried_session (snd (handleCloseSession answer w)) =
    match sessionId (fst w) with
    | Some _ => [shown_session]
    | None => []
    end.
Proof.
  destruct w as [st service]. intros [Hagree Htruthy]. simpl in *. subst service.
  unfold handleNavigate, handleExtract, handlePerformAction, handleCloseSession,
    browserService.navigate, browserService.extract, browserService.performAction,
    browserService.closeSession, session_argument, browserService._getSessionId,
    JS.or_opt.
  destruct (sessionId st) as [s|] eqn:Hsid.
  - pose proof (Htruthy s eq_refl) as Hs. simpl JS.truthy_opt. rewrite Hs.
    simpl negb. cbv iota.
    destruct (browserService.settle "Failed to navigate" answer (Some s)) as [s1 r1].
    destruct (browserService.settle "Failed to extract content" answer (Some s)) as [s2 r2].
    destruct (browserService.settle "Failed to perform action" answer (Some s)) as [s3 r3].
    destruct (browserService.close_settle s answer (Some s)) as [s4 r4].
    simpl. rewrite Hs.
    unfold browserService._getSessionId, JS.or_opt. simpl. rewrite Hs. repeat split.
  - simpl.
    destruct (browserService.settle "Failed to navigate" answer None) as [s1 r1].
    destruct (browserService.settle "Failed to extract content" answer None) as [s2 r2].
    destruct (browserService.settle "Failed to perform action" answer None) as [s3 r3].
    repeat split.
Qed.

Lemma page_requests_carry_session_witness :
  let w := steps [Navigate (JS.Resolved
                     (browserService.mkBrowserResponse true (Some "s1") None))]
             (initial, browserService.initial) in
  let answer := JS.Rejected (JS.new_Error "Network Error") in
  let shown_session := Some (JS.jstr_opt (sessionId (fst w))) in
  map browserService.carried_session (snd (handleNavigate answer w)) = [shown_session] /\
  map browserService.carried_session (snd (handleExtract answer w)) = [shown_session] /\
  map browserService.carried_session (snd (handlePerformAction answer w)) = [shown_session] /\
  map browserService.carried_session (snd (handleCloseSession answer w)) =
    match sessionId (fst w) with
    | Some _ => [shown_session]
    | None => []
    end.
Proof.
  apply (page_requests_carry_session (JS.Rejected (JS.new_Error "Network Error"))
           (steps [Navigate (JS.Resolved
                     (browserService.mkBrowserResponse true (Some "s1") None))]
              (initial, browserService.initial))).
  split; [reflexivity|]. intros s H. injection H as <-. reflexivity.
Defined.

End BrowserPage.

(** ** Running a tool *)

Section Tools.

Import ToolExecutor.

Lemma missingParams_spec (tool : toolService.Tool) (parameters : JS.jobject) (n : string) :
  In n (missingParams tool parameters) <->
  exists param,
    In param (toolService.parameters tool) /\ toolService.parameter_name param = n /\
    toolService.required param = true /\ unset parameters n = true.
Proof.
  unfold missingParams. rewrite in_map_iff. split.
  - intros (param & Hname & Hin). apply filter_In in Hin as [Hin Hcond].
    apply andb_true_iff in Hcond as [Hreq Hunset].
    exists param. rewrite <- Hname. auto.
  - intros (param & Hin & Hname & Hreq & Hunset). exists param.
    split; [assumption|]. apply filter_In. split; [assumption|].
    rewrite Hname, Hreq, Hunset. reflexivity.
Qed.

(** X20: The tool form never runs a tool with a required parameter unset
    (absent or the empty string): it posts the execution, once and with all
    the parameters of the form, exactly when no required parameter is
    unset; otherwise it makes no request and shows the names of the unset
    ones.  Either way [loading] is false afterwards. *)
Theorem tool_runs_only_when_complete (tool : toolService.Tool)
    (answer : JS.Axios toolService.Execution) (st : state) :
  let st' := fst (handleExecute tool answer st) in
  let log := snd (handleExecute tool answer st) in
  loading st' = false /\
  ((forall param, In param (toolService.parameters tool) ->
      toolService.required param = true ->
      unset (parameters st) (toolService.parameter_name param) = false) ->
   log = [(toolService.name tool, parameters st)]) /\
  (forall param, In param (toolService.parameters tool) ->
     toolService.required param = true ->
     unset (parameters st) (toolService.parameter_name param) = true ->
     log = [] /\ result st' = None /\
     error st' = Some ("Missing required parameters: " ++
                       join (missingParams tool (parameters st)))%string /\
     In (toolService.parameter_name param) (missingParams tool (parameters st))).
Proof.
  cbv zeta. unfold handleExecute.
  destruct (missingParams tool (parameters st)) as [|n rest] eqn:Hmissing.
  - destruct (toolService.executeTool (toolService.name tool) (parameters st) answer)
      as [[r|e] log] eqn:Hexec;
      (assert (log = [(toolService.name tool, parameters st)]) as ->
         by (unfold toolService.executeTool in Hexec; injection Hexec; auto));
      cbn [fst snd]; (split; [reflexivity|]); (split; [reflexivity|]);
      intros param Hin Hreq Hunset; exfalso;
      assert (In (toolService.parameter_name param) (missingParams tool (parameters st)))
        as Hm by (apply missingParams_spec; eauto);
      rewrite Hmissing in Hm; contradiction.
  - cbn [fst snd]. split; [reflexivity|]. split.
    + intros Hall. exfalso.
      assert (In n (missingParams tool (parameters st))) as Hn
        by (rewrite Hmissing; left; reflexivity).
      apply missingParams_spec in Hn as (param & Hin & Hname & Hreq & Hunset).
      rewrite <- Hname in Hunset. rewrite (Hall param Hin Hreq) in Hunset. discriminate.
    + intros param Hin Hreq Hunset. repeat split.
      rewrite <- Hmissing. apply missingParams_spec. eauto.
Qed.

End Tools.

(** ** Environment variables *)

Section Environment.

Import owlApiService.

Lemma update_loop_spec {Data : Type} (answers : nat -> JS.Axios Data)
    (variables : list EnvPair) (posted : nat) (results : list Data) :
  let sendable := filter (fun v => JS.truthy (pair_key v)) variables in
  exists n, n <= length sendable /\
    snd (update_loop answers variables posted results)
      = map set_request (firstn n sendable) /\
    (forall j, j + 1 <= n - 1 -> exists data, answers (posted + j) = JS.Resolved data) /\
    match fst (update_loop answers variables posted results) with
    | JS.Return all =>
        n = length sendable /\ length all = length results + n /\
        (n >= 1 -> exists data, answers (posted + (n - 1)) = JS.Resolved data)
    | JS.Throw e => n >= 1 /\ answers (posted + (n - 1)) = JS.Rejected e
    end.
Proof.
  cbv zeta. revert posted results.
  induction variables as [|v rest IH]; intros posted results; simpl.
  - exists 0. simpl. repeat split; try lia.
  - destruct (JS.truthy (pair_key v)) eqn:Hkey; [|apply IH].
    destruct (answers posted) as [data|e] eqn:Hanswer.
    + specialize (IH (S posted) (results ++ [data])).
      destruct (update_loop answers rest (S posted) (results ++ [data])) as [r reqs].
      destruct IH as (n & Hn & Hreqs & Hbefore & Hend). cbn [fst snd] in *.
      exists (S n). split; [simpl; lia|]. split; [simpl; rewrite Hreqs; reflexivity|].
      split.
      * intros j Hj. destruct j as [|j].
        -- rewrite Nat.add_0_r. eauto.
        -- replace (posted + S j) with (S posted + j) by lia. apply Hbefore. lia.
      * destruct r as [all|e].
        -- destruct Hend as (-> & Hlen & Hlast). rewrite length_app in Hlen. simpl in Hlen.
           split; [reflexivity|]. split; [lia|]. intros _.
           destruct (length (filter (fun v0 => JS.truthy (pair_key v0)) rest)) as [|m] eqn:Hm.
           ++ simpl. rewrite Nat.add_0_r. eauto.
           ++ replace (posted + (S (S m) - 1)) with (S posted + (S m - 1)) by lia.
              apply Hlast. lia.
        -- destruct Hend as [Hge Hrej]. split; [lia|].
           replace (posted + (S n - 1)) with (S posted + (n - 1)) by lia. assumption.
    + exists 1. simpl. split; [lia|]. split; [reflexivity|]. split.
      * intros j Hj. lia.
      * split; [lia|]. rewrite Nat.add_0_r. assumption.
Qed.

(** X21: [updateEnvVars] posts the variables that have a key, in the order of
    the list and never one without a key.  It returns one result per posted
    variable when every POST is accepted; at the first rejected POST it
    stops and rethrows, the variables before it having been set and the
    ones after it not having been sent. *)
Theorem updateEnvVars_posts_in_order {Data : Type} (answers : nat -> JS.Axios Data)
    (variables : list EnvPair) :
  let sendable := filter (fun v => JS.truthy (pair_key v)) variables in
  exists n, n <= length sendable /\
    snd (updateEnvVars answers variables) = map set_request (firstn n sendable) /\
    (forall j, j + 1 <= n - 1 -> exists data, answers j = JS.Resolved data) /\
    match fst (updateEnvVars answers variables) with
    | JS.Return all => n = length sendable /\ length all = n
    | JS.Throw e => n >= 1 /\ answers (n - 1) = JS.Rejected e
    end.
Proof.
  cbv zeta. unfold updateEnvVars.
  destruct (update_loop_spec answers variables 0 []) as (n & Hn & Hreqs & Hbefore & Hend).
  exists n. split; [assumption|]. split; [assumption|]. split; [exact Hbefore|].
  destruct (fst (update_loop answers variables 0 [])) as [all|e].
  - destruct Hend as (Hall & Hlen & _). simpl in Hlen. auto.
  - exact Hend.
Qed.

(** X22: [getEnvironmentVariables] never leaves a value undefined and never
    gives away the key the build was given: when the service cannot be
    asked, every value it returns is empty or the fixed mask. *)
Theorem environment_fallback_hides_values (OPENAI_API_KEY : option string)
    (e : JS.Error) (check : JS.Axios EnvCheck) :
  Forall (fun v => pair_value v = "" \/ pair_value v = mask)
         (fst (getEnvironmentVariables OPENAI_API_KEY (JS.Rejected e) check)) /\
  snd (getEnvironmentVariables OPENAI_API_KEY (JS.Rejected e) check)
    = [JS.GET "/env/api_related" []; JS.GET "/env/check" []].
Proof.
  split; [|reflexivity]. simpl.
  assert (Forall (fun v => pair_value v = "" \/ pair_value v = mask)
            [mkEnvPair "OPENAI_API_KEY" (if JS.truthy_opt OPENAI_API_KEY then mask else "")])
    as Hfallback.
  { constructor; [|constructor]. simpl. destruct (JS.truthy_opt OPENAI_API_KEY); auto. }
  destruct check as [c|e']; [|assumption].
  destruct (check_status c) as [s|]; [|assumption].
  destruct (s =? "missing")%string; [|assumption].
  destruct (missing_vars c) as [keys|]; [|assumption].
  apply Forall_forall. intros v Hv. apply in_map_iff in Hv as (k & <- & _).
  left. reflexivity.
Qed.

End Environment.

(** ** The environment manager *)

Section Manager.

Import EnvironmentManager.

Lemma known_spec (table : list EnvVar) (k : string) :
  known table k = true <-> In k (keys table).
Proof.
  unfold known, keys. rewrite existsb_exists, in_map_iff. split.
  - intros (p & Hin & Heq). apply String.eqb_eq in Heq. eauto.
  - intros (p & Heq & Hin). exists p. split; [assumption|]. apply String.eqb_eq. assumption.
Qed.

Lemma completeVars_keys_eq (table : list EnvVar) (envData : list owlApiService.EnvPair) :
  keys (completeVars table envData)
    = keys table ++
      filter (fun k => negb (known table k)) (map owlApiService.pair_key envData).
Proof.
  unfold completeVars, keys. rewrite map_app, !map_map. simpl. f_equal.
  induction envData as [|env rest IH]; simpl; [reflexivity|].
  destruct (known table (owlApiService.pair_key env)); simpl; rewrite IH; reflexivity.
Qed.

Lemma NoDup_append {A : Type} (l1 l2 : list A) :
  NoDup l1 -> NoDup l2 -> (forall a, In a l1 -> ~ In a l2) -> NoDup (l1 ++ l2).
Proof.
  induction l1 as [|a l1 IH]; intros H1 H2 Hdisjoint; simpl; [assumption|].
  inversion H1 as [|? ? Hnotin Hrest]; subst. constructor.
  - rewrite in_app_iff. intros [Hin|Hin]; [contradiction|].
    apply (Hdisjoint a); [left; reflexivity | assumption].
  - apply IH; auto. intros b Hb. apply Hdisjoint. right. assumption.
Qed.

Lemma skipn_exact {A : Type} (l1 l2 : list A) (n : nat) :
  length l1 = n -> skipn n (l1 ++ l2) = l2.
Proof. intros <-. induction l1; simpl; auto. Qed.

Lemma firstn_exact {A : Type} (l1 l2 : list A) (n : nat) :
  length l1 = n -> firstn n (l1 ++ l2) = l1.
Proof. intros <-. induction l1; simpl; [reflexivity | f_equal; assumption]. Qed.

(** X23: The list shown after loading the variables holds the whole table, in
    the order of the table, then the variables of the server the table does
    not know, all in the group [other]; every key of the server is in it,
    and no key is listed twice when neither the table nor the answer of the
    server repeats one. *)
Theorem loaded_list_covers_table_and_server (table : list EnvVar)
    (envData : list owlApiService.EnvPair) :
  NoDup (keys table) ->
  NoDup (map owlApiService.pair_key envData) ->
  NoDup (keys (completeVars table envData)) /\
  firstn (length table) (keys (completeVars table envData)) = keys table /\
  (forall k, In k (keys (completeVars table envData)) <->
             In k (keys table) \/ In k (map owlApiService.pair_key envData)) /\
  (forall v, In v (skipn (length table) (completeVars table envData)) ->
             group v = "other" /\ known table (key v) = false).
Proof.
  intros Htable Hdata. rewrite completeVars_keys_eq. repeat split.
  - apply NoDup_append; [assumption | apply NoDup_filter; assumption |].
    intros k Hk Hin. apply filter_In in Hin as [_ Hunknown].
    apply known_spec in Hk. rewrite Hk in Hunknown. discriminate.
  - apply firstn_exact. unfold keys. rewrite length_map. reflexivity.
  - rewrite in_app_iff, filter_In. intros [Hin|[Hin _]]; auto.
  - rewrite in_app_iff, filter_In. intros [Hin|Hin]; [auto|].
    destruct (known table k) eqn:Hknown.
    + left. apply known_spec. assumption.
    + right. auto.
  - unfold completeVars in H.
    rewrite skipn_exact in H by (rewrite length_map; reflexivity).
    apply in_map_iff in H as (env & <- & _). reflexivity.
  - unfold completeVars in H.
    rewrite skipn_exact in H by (rewrite length_map; reflexivity).
    apply in_map_iff in H as (env & <- & Hin). apply filter_In in Hin as [_ Hunknown].
    simpl. apply negb_true_iff. assumption.
Qed.

Lemma loaded_list_covers_table_and_server_witness :
  let table := [mkEnvVar "OPENAI_API_KEY" "" None (Some "sk-default") None "openai" None] in
  let envData := [owlApiService.mkEnvPair "OPENAI_API_KEY" "sk-1";
                  owlApiService.mkEnvPair "MY_FLAG" "on"] in
  keys (completeVars table envData) = ["OPENAI_API_KEY"; "MY_FLAG"] /\
  NoDup (keys (completeVars table envData)).
Proof.
  cbv zeta. split; [reflexivity|].
  apply (loaded_list_covers_table_and_server
           [mkEnvVar "OPENAI_API_KEY" "" None (Some "sk-default") None "openai" None]
           [owlApiService.mkEnvPair "OPENAI_API_KEY" "sk-1";
            owlApiService.mkEnvPair "MY_FLAG" "on"]).
  - simpl. repeat constructor; simpl; intuition discriminate.
  - simpl. repeat constructor; simpl; intuition discriminate.
Defined.

Lemma includes_equals (s : string) : JS.includes s "=" = has_equals s.
Proof.
  induction s as [|c rest IH]; [reflexivity|].
  cbn [JS.includes has_equals]. rewrite IH. f_equal.
  change (prefix "=" (String c rest))
    with (if ascii_dec "=" c then prefix "" rest else false).
  destruct (ascii_dec "=" c) as [<-|Hne].
  - destruct rest; reflexivity.
  - symmetry. apply Ascii.eqb_neq. congruence.
Qed.

Lemma before_equals_clean (s : string) : has_equals (before_equals s) = false.
Proof.
  induction s as [|c rest IH]; [reflexivity|]. simpl.
  destruct (Ascii.eqb c "=") eqn:Hc; [reflexivity|]. simpl. rewrite Hc. assumption.
Qed.

Lemma trim_start_clean (s : string) :
  has_equals s = false -> has_equals (JS.trim_start s) = false.
Proof.
  induction s as [s Hs | a rest Ha IH | a b rest Ha Hab IH | a b c rest Ha Hab Habc IH]
    using trim_start_cases; intros H.
  - rewrite Hs. assumption.
  - cbn [JS.trim_start]. rewrite Ha. apply IH.
    cbn [has_equals] in H. apply orb_false_iff in H. tauto.
  - cbn [JS.trim_start]. rewrite Ha, Hab. apply IH.
    cbn [has_equals] in H. repeat (apply orb_false_iff in H as [_ H]). assumption.
  - cbn [JS.trim_start]. rewrite Ha, Hab, Habc. apply IH.
    cbn [has_equals] in H. repeat (apply orb_false_iff in H as [_ H]). assumption.
Qed.

Lemma trim_end_clean (s : string) :
  has_equals s = false -> has_equals (JS.trim_end s) = false.
Proof.
  induction s as [|c rest IH]; intros H; [reflexivity|].
  cbn [JS.trim_end]. destruct (JS.blank (String c rest)); [reflexivity|].
  cbn [has_equals] in *. apply orb_false_iff in H as [Hc Hrest].
  rewrite Hc, (IH Hrest). reflexivity.
Qed.

Lemma sanitized_key_clean (newValue : string) : has_equals (sanitized_key newValue) = false.
Proof.
  unfold sanitized_key. rewrite includes_equals.
  destruct (has_equals newValue) eqn:H; [|assumption].
  apply trim_end_clean, trim_start_clean, before_equals_clean.
Qed.

Lemma set_key_spec (vars : list EnvVar) (index : nat) (k : string) :
  match set_key vars index k with
  | None => length vars <= index
  | Some vars' =>
      index < length vars /\ length vars' = length vars /\
      (exists v, nth_error vars index = Some v /\
         nth_error vars' index =
           Some (mkEnvVar k (value v) (guide v) (defaultValue v) (description v) (group v)
                   (isOptional v))) /\
      (forall j, j <> index -> nth_error vars' j = nth_error vars j)
  end.
Proof.
  revert index. induction vars as [|v rest IH]; intros index; simpl; [lia|].
  destruct index as [|i].
  - repeat split; try lia.
    + exists v. split; reflexivity.
    + intros [|j] Hj; [contradiction | reflexivity].
  - specialize (IH i). destruct (set_key rest i k) as [rest'|]; [|lia].
    destruct IH as (Hlt & Hlen & (x & Hx & Hx') & Hother).
    repeat split; try (simpl; lia).
    + exists x. split; assumption.
    + intros [|j] Hj; [reflexivity|]. simpl. apply Hother. lia.
Qed.

(** X24: Editing the key of a row never leaves an equals sign in it: what is
    typed or pasted is cut at the first [=] and trimmed.  The value and the
    other fields of the row, and all the other rows, stay as they are; the
    edit fails exactly when there is no row at the index. *)
Theorem edited_key_has_no_equals (index : nat) (newValue : string) (envVars : list EnvVar) :
  match handleUpdateKey index newValue envVars with
  | None => length envVars <= index
  | Some vars' =>
      index < length envVars /\ length vars' = length envVars /\
      (exists old new,
         nth_error envVars index = Some old /\ nth_error vars' index = Some new /\
         has_equals (key new) = false /\
         (has_equals newValue = false -> key new = newValue) /\
         value new = value old /\ group new = group old /\ guide new = guide old /\
         defaultValue new = defaultValue old /\ description new = description old /\
         isOptional new = isOptional old) /\
      (forall j, j <> index -> nth_error vars' j = nth_error envVars j)
  end.
Proof.
  unfold handleUpdateKey.
  pose proof (set_key_spec envVars index (sanitized_key newValue)) as H.
  destruct (set_key envVars index (sanitized_key newValue)) as [vars'|]; [|assumption].
  destruct H as (Hlt & Hlen & (v & Hv & Hv') & Hother).
  repeat split; try assumption.
  eexists v, _. split; [exact Hv|]. split; [exact Hv'|]. simpl.
  split; [apply sanitized_key_clean|]. split; [|repeat split].
  intros Hclean. unfold sanitized_key. rewrite includes_equals, Hclean. reflexivity.
Qed.

Lemma set_value_spec (vars : list EnvVar) (k v : string) :
  match set_value vars k v with
  | None => value_of vars k = None /\ ~ In k (keys vars)
  | Some vars' =>
      In k (keys vars) /\ keys vars' = keys vars /\
      forall k', value_of vars' k' = if (k =? k')%string then Some v else value_of vars k'
  end.
Proof.
  induction vars as [|x rest IH]; simpl; [auto|].
  destruct (key x =? k)%string eqn:Hx.
  - apply String.eqb_eq in Hx. subst k. repeat split; [auto|]. intros k'. simpl.
    destruct (key x =? k')%string; reflexivity.
  - destruct (set_value rest k v) as [rest'|].
    + destruct IH as (Hin & Hkeys & Hval). repeat split; [auto | simpl; congruence |].
      intros k'. simpl. rewrite Hval.
      destruct (key x =? k')%string eqn:Hk'; [|reflexivity].
      apply String.eqb_eq in Hk'. subst k'.
      rewrite String.eqb_sym, Hx. reflexivity.
    + destruct IH as [Hval Hnotin]. split; [assumption|].
      intros [Heq|Hin]; [|contradiction]. apply String.eqb_neq in Hx. contradiction.
Qed.

Lemma value_of_app (l1 l2 : list EnvVar) (k : string) :
  value_of (l1 ++ l2) k =
    match value_of l1 k with Some v => Some v | None => value_of l2 k end.
Proof.
  induction l1 as [|x l1 IH]; simpl; [reflexivity|].
  destruct (key x =? k)%string; [reflexivity | assumption].
Qed.

Lemma merge_one_value (vars : list EnvVar) (newVar : EnvVar) (k : string) :
  value_of (merge_one vars newVar) k =
    if (key newVar =? k)%string then Some (value newVar) else value_of vars k.
Proof.
  unfold merge_one. pose proof (set_value_spec vars (key newVar) (value newVar)) as H.
  destruct (set_value vars (key newVar) (value newVar)) as [vars'|].
  - destruct H as (_ & _ & Hval). apply Hval.
  - destruct H as [Hnone _]. rewrite value_of_app. simpl.
    destruct (key newVar =? k)%string eqn:Hk.
    + apply String.eqb_eq in Hk. subst k. rewrite Hnone. reflexivity.
    + destruct (value_of vars k); reflexivity.
Qed.

Lemma merge_one_keys (vars : list EnvVar) (newVar : EnvVar) :
  (In (key newVar) (keys vars) /\ keys (merge_one vars newVar) = keys vars) \/
  (~ In (key newVar) (keys vars) /\ keys (merge_one vars newVar) = keys vars ++ [key newVar]).
Proof.
  unfold merge_one. pose proof (set_value_spec vars (key newVar) (value newVar)) as H.
  destruct (set_value vars (key newVar) (value newVar)) as [vars'|].
  - left. destruct H as (Hin & Hkeys & _). auto.
  - right. destruct H as [_ Hnotin]. split; [assumption|].
    unfold keys. rewrite map_app. reflexivity.
Qed.

Lemma NoDup_snoc {A : Type} (l : list A) (a : A) :
  NoDup l -> ~ In a l -> NoDup (l ++ [a]).
Proof.
  intros Hl Ha. apply NoDup_append; [assumption | repeat constructor; auto |].
  intros b Hb [<-|[]]. contradiction.
Qed.

(** X25: Importing variables keeps the rows of the list where they are and adds
    the new keys after them, each once: no key that was listed once is
    listed twice afterwards, every imported key is listed, and a row keeps
    its key. *)
Theorem import_keeps_rows_in_place (newVars envVars : list EnvVar) :
  NoDup (keys envVars) ->
  NoDup (keys (merge_imported newVars envVars)) /\
  firstn (length envVars) (keys (merge_imported newVars envVars)) = keys envVars /\
  (forall k, In k (keys (merge_imported newVars envVars)) <->
             In k (keys envVars) \/ In k (keys newVars)).
Proof.
  unfold merge_imported. revert envVars.
  induction newVars as [|newVar rest IH]; intros envVars Hnodup; simpl.
  - split; [assumption|]. split.
    + replace (length envVars) with (length (keys envVars))
        by (unfold keys; apply length_map).
      apply firstn_all.
    + intros k. tauto.
  - destruct (merge_one_keys envVars newVar) as [[Hin Hkeys]|[Hnotin Hkeys]].
    + assert (length (merge_one envVars newVar) = length envVars) as Hlen
        by (unfold keys in Hkeys; rewrite <- (length_map key), Hkeys, length_map; reflexivity).
      destruct (IH (merge_one envVars newVar)) as (Hnd & Hfirst & Hmem);
        [rewrite Hkeys; assumption|].
      split; [assumption|]. split.
      * rewrite <- Hlen, Hfirst. assumption.
      * intros k. rewrite Hmem, Hkeys. intuition (subst; auto).
    + assert (length (merge_one envVars newVar) = S (length envVars)) as Hlen
        by (unfold keys in Hkeys; rewrite <- (length_map key), Hkeys, length_app,
              length_map; simpl; lia).
      destruct (IH (merge_one envVars newVar)) as (Hnd & Hfirst & Hmem);
        [rewrite Hkeys; apply NoDup_snoc; assumption|].
      split; [assumption|]. split.
      * rewrite Hlen, Hkeys in Hfirst.
        assert (firstn (length envVars)
                  (firstn (S (length envVars))
                     (keys (fold_left merge_one rest (merge_one envVars newVar))))
                = firstn (length envVars) (keys envVars ++ [key newVar])) as Hcut
          by (rewrite Hfirst; reflexivity).
        rewrite firstn_firstn, Nat.min_l in Hcut by lia. rewrite Hcut.
        apply firstn_exact. unfold keys. rewrite length_map. reflexivity.
      * intros k. rewrite Hmem, Hkeys, in_app_iff. simpl. intuition.
Qed.

Lemma import_keeps_rows_in_place_witness :
  let row k v := mkEnvVar k v None None None "other" None in
  keys (merge_imported [row "B" "2"; row "C" "3"; row "C" "4"] [row "A" "1"; row "B" "0"])
    = ["A"; "B"; "C"] /\
  NoDup (keys (merge_imported [row "B" "2"; row "C" "3"; row "C" "4"]
                 [row "A" "1"; row "B" "0"])).
Proof.
  cbv zeta. split; [reflexivity|].
  apply (import_keeps_rows_in_place
           [mkEnvVar "B" "2" None None None "other" None;
            mkEnvVar "C" "3" None None None "other" None;
            mkEnvVar "C" "4" None None None "other" None]
           [mkEnvVar "A" "1" None None None "other" None;
            mkEnvVar "B" "0" None None None "other" None]).
  simpl. repeat constructor; simpl; intuition discriminate.
Defined.

Lemma merge_imported_value (newVars envVars : list EnvVar) (k : string) :
  value_of (merge_imported newVars envVars) k =
    match value_of (rev newVars) k with
    | Some v => Some v
    | None => value_of envVars k
    end.
Proof.
  unfold merge_imported. revert envVars.
  induction newVars as [|newVar rest IH]; intros envVars; simpl; [reflexivity|].
  rewrite IH, value_of_app, merge_one_value. simpl.
  destruct (value_of (rev rest) k); [reflexivity|].
  destruct (key newVar =? k)%string; reflexivity.
Qed.

(** X26: After an import the first row with a key shows the value the import
    gave that key last, also when the key was in the list before or comes
    several times in the imported text; a key the import does not mention
    keeps its value. *)
Theorem import_last_value_wins (before after envVars : list EnvVar) (newVar : EnvVar) :
  (forall x, In x after -> key x <> key newVar) ->
  value_of (merge_imported (before ++ newVar :: after) envVars) (key newVar)
    = Some (value newVar) /\
  (forall k, ~ In k (keys (before ++ newVar :: after)) ->
     value_of (merge_imported (before ++ newVar :: after) envVars) k = value_of envVars k).
Proof.
  intros Hafter. split.
  - rewrite merge_imported_value, rev_app_distr. simpl. rewrite <- app_assoc. simpl.
    rewrite value_of_app.
    assert (value_of (rev after) (key newVar) = None) as ->.
    { assert (forall x, In x (rev after) -> key x <> key newVar) as H
        by (intros x Hx; apply Hafter, in_rev; assumption).
      induction (rev after) as [|x l IHl]; simpl; [reflexivity|].
      destruct (key x =? key newVar)%string eqn:Hx.
      - apply String.eqb_eq in Hx. exfalso. apply (H x); [left; reflexivity | assumption].
      - apply IHl. intros y Hy. apply H. right. assumption. }
    simpl. rewrite String.eqb_refl. reflexivity.
  - intros k Hk. rewrite merge_imported_value.
    assert (value_of (rev (before ++ newVar :: after)) k = None) as ->; [|reflexivity].
    assert (forall x, In x (rev (before ++ newVar :: after)) -> key x <> k) as H.
    { intros x Hx Heq. apply Hk. unfold keys. apply in_map_iff. exists x.
      split; [assumption | apply in_rev; assumption]. }
    induction (rev (before ++ newVar :: after)) as [|x l IHl]; simpl; [reflexivity|].
    destruct (key x =? k)%string eqn:Hx.
    + apply String.eqb_eq in Hx. exfalso. apply (H x); [left; reflexivity | assumption].
    + apply IHl. intros y Hy. apply H. right. assumption.
Qed.

Lemma import_last_value_wins_witness :
  let row k v := mkEnvVar k v None None None "other" None in
  value_of (merge_imported ([row "C" "3"] ++ row "C" "4" :: [row "B" "2"])
              [row "A" "1"; row "C" "0"]) "C" = Some "4".
Proof.
  cbv zeta.
  apply (import_last_value_wins
           [mkEnvVar "C" "3" None None None "other" None]
           [mkEnvVar "B" "2" None None None "other" None]
           [mkEnvVar "A" "1" None None None "other" None;
            mkEnvVar "C" "0" None None None "other" None]
           (mkEnvVar "C" "4" None None None "other" None)).
  simpl. intros x [<-|[]]. simpl. discriminate.
Defined.

Lemma sendable_rows (envVars : list EnvVar) :
  filter (fun v => JS.truthy (owlApiService.pair_key v))
    (map (fun v => owlApiService.mkEnvPair (key v) (value v)) (nonEmptyVars envVars))
  = map (fun v => owlApiService.mkEnvPair (key v) (value v))
      (filter (fun v => negb (JS.trim (value v) =? "")%string && JS.truthy (key v)) envVars).
Proof.
  unfold nonEmptyVars. induction envVars as [|v rest IH]; simpl; [reflexivity|].
  destruct (negb (JS.trim (value v) =? "")%string); simpl; [|assumption].
  destruct (JS.truthy (key v)); simpl; rewrite IH; reflexivity.
Qed.

(** X27: Saving sends the rows that have a key and a value that is not blank,
    one POST each in the order of the list, and no other row.  When every
    POST is accepted the message says so and the list is loaded again, the
    whole table first; at the first rejected POST nothing more is sent, the
    message reports the failure and the list stays as it was. *)
Theorem save_sends_filled_rows {Data : Type} (table : list EnvVar)
    (OPENAI_API_KEY : option string) (answers : nat -> JS.Axios Data)
    (related : JS.Axios (list owlApiService.EnvItem))
    (check : JS.Axios owlApiService.EnvCheck) (envVars : list EnvVar) :
  let saved := handleSaveChanges table OPENAI_API_KEY answers related check envVars in
  let filled :=
    filter (fun v => negb (JS.trim (value v) =? "")%string && JS.truthy (key v)) envVars in
  let post v := owlApiService.set_request (owlApiService.mkEnvPair (key v) (value v)) in
  exists n, n <= length filled /\
    ((saved_message saved = "Environment variables saved successfully" /\
      n = length filled /\
      saved_requests saved =
        map post filled ++
        snd (owlApiService.getEnvironmentVariables OPENAI_API_KEY related check) /\
      firstn (length table) (keys (saved_vars saved)) = keys table) \/
     (saved_message saved = "Failed to save environment variables" /\
      n >= 1 /\ (exists e, answers (n - 1) = JS.Rejected e) /\
      saved_requests saved = map post (firstn n filled) /\
      saved_vars saved = envVars)).
Proof.
  cbv zeta. unfold handleSaveChanges, owlApiService.updateEnvVars.
  pose proof (update_loop_spec answers
                (map (fun v => owlApiService.mkEnvPair (key v) (value v))
                     (nonEmptyVars envVars)) 0 []) as H.
  cbv zeta in H. rewrite sendable_rows in H.
  destruct (owlApiService.update_loop answers
              (map (fun v => owlApiService.mkEnvPair (key v) (value v))
                   (nonEmptyVars envVars)) 0 []) as [[all|e] posts];
    destruct H as (n & Hn & Hposts & _ & Hend); cbn [fst snd] in *;
    rewrite length_map in Hn; exists n; (split; [assumption|]).
  - left. destruct Hend as (Hall & _). rewrite length_map in Hall.
    destruct (owlApiService.getEnvironmentVariables OPENAI_API_KEY related check)
      as [envData gets].
    cbn [saved_message saved_requests saved_vars snd].
    split; [reflexivity|]. split; [assumption|]. split.
    + rewrite Hposts, Hall, <- (length_map (fun v => owlApiService.mkEnvPair (key v) (value v))),
        firstn_all, map_map. reflexivity.
    + rewrite completeVars_keys_eq. apply firstn_exact. unfold keys. apply length_map.
  - right. destruct Hend as [Hge Hrej]. cbn [saved_message saved_requests saved_vars].
    split; [reflexivity|]. split; [assumption|]. split; [eauto|]. split; [|reflexivity].
    rewrite Hposts, firstn_map, map_map. reflexivity.
Qed.

End Manager.

(** ** The stored browser session *)

Section StoredSession.

Import browserService.

Lemma settle_usable (fallback : string) (answer : JS.Axios BrowserResponse) (st : state) :
  usable st -> usable (fst (settle fallback answer st)).
Proof.
  intros Hst. unfold settle. destruct answer as [data|e]; [|assumption]. simpl.
  destruct (session_id data) as [s|]; [|assumption].
  destruct (JS.truthy s) eqn:Hs; assumption.
Qed.

Lemma perform_usable (op : operation) (st : state) :
  usable st ->
  usable (fst (fst (perform op st))) /\ Forall close_carries_id (snd (perform op st)).
Proof.
  intros Hst. destruct op as [params answer|params answer|params answer|keyword answer
                              |provided answer]; cbn [perform].
  1-4: split; [apply settle_usable; assumption|];
       constructor; [|constructor]; intros Hclose; discriminate Hclose.
  unfold closeSession.
  destruct (_getSessionId provided st) as [sessionId|]; [|split; [assumption | constructor]].
  destruct (JS.truthy sessionId) eqn:Hid; [|split; [assumption | constructor]].
  cbn [fst snd]. split.
  - unfold close_settle. destruct answer as [data|e]; [|assumption]. simpl.
    match goal with |- usable (if ?b then _ else _) => destruct b end;
      [exact I | assumption].
  - constructor; [|constructor]. intros _. exists sessionId. split; [reflexivity | assumption].
Qed.

(** X28: Whatever the clients of the service call and whatever the server
    answers, the service never keeps an empty session id, and it never asks
    the server to close a session without naming one: every request to
    [/browser/sessions/close] carries a session id that is not empty. *)
Theorem stored_session_is_never_empty (ops : list operation) :
  match fst (run ops initial) with
  | Some s => JS.truthy s = true
  | None => True
  end /\
  forall r, In r (snd (run ops initial)) -> is_close_request r = true ->
    exists s, carried_session r = Some (JS.JStr s) /\ JS.truthy s = true.
Proof.
  assert (forall st, usable st ->
            usable (fst (run ops st)) /\ Forall close_carries_id (snd (run ops st))) as H.
  { induction ops as [|op rest IH]; intros st Hst; cbn [run].
    - split; [assumption | constructor].
    - destruct (perform_usable op st Hst) as [Hnext Hreqs].
      destruct (perform op st) as [[st' response] reqs]. cbn [fst snd] in *.
      destruct (IH st' Hnext) as [Hend Hrest].
      destruct (run rest st') as [st'' reqs']. cbn [fst snd] in *.
      split; [assumption|]. apply Forall_app. split; assumption. }
  destruct (H initial I) as [Hend Hlog]. split; [exact Hend|].
  intros r Hr. rewrite Forall_forall in Hlog. apply Hlog. assumption.
Qed.

End StoredSession.

(** ** The chat component *)

Section Chat.

Import CamelChat.

Lemma chat_handler_appends (f : frame) (st : state) :
  exists added, messages (handleWebSocketMessage f st) = messages st ++ added.
Proof.
  unfold handleWebSocketMessage.
  destruct (status_is f "success").
  - destruct (chat_history f) as [history|]; [eexists; reflexivity|].
    destruct (JS.truthy_opt (response f)); [eexists; reflexivity|].
    exists []. simpl. rewrite app_nil_r. reflexivity.
  - destruct (status_is f "error"); [eexists; reflexivity|].
    exists []. rewrite app_nil_r. reflexivity.
Qed.

(** X29: The chat component only ever appends to its list of messages, whatever
    frames the socket delivers: the messages shown before stay, in place.
    The notices [connectWebSocket] makes itself (timeout, error, close,
    failure, connected) are not shown at all and leave the component as it
    was. *)
Theorem chat_only_appends (frames : list frame) (notices : list TransportNotice)
    (st : state) :
  (exists added, messages (receive frames st) = messages st ++ added) /\
  receive (map (fun n => of_notice (error_notice n)) notices) st = st /\
  handleWebSocketMessage (of_notice connected_notice) st = st.
Proof.
  split; [|split].
  - unfold receive. revert st. induction frames as [|f rest IH]; intros st; simpl.
    + exists []. rewrite app_nil_r. reflexivity.
    + destruct (IH (handleWebSocketMessage f st)) as [added Hadded].
      destruct (chat_handler_appends f st) as [first Hfirst].
      exists (first ++ added). rewrite Hadded, Hfirst, app_assoc. reflexivity.
  - unfold receive. induction notices as [|n rest IH]; simpl; [reflexivity|].
    replace (handleWebSocketMessage (of_notice (error_notice n)) st) with st
      by (destruct n; reflexivity).
    assumption.
  - reflexivity.
Qed.

End Chat.
